(** * DGP: export profiles, node observers, file loader and workspace tabs

    A shallow embedding of the parts of the Dynamic Gravity Processor that
    its specification makes claims about:

    - [dgp/lib/exporters/export_profile.py]: the [ExportProfile] class with
      its class-level registry and its JSON round trip;
    - [dgp/gui/workspaces/dataset.py]: the segment controller slot, the
      sub-tab [sigLoaded] wiring and the workspace state mapping;
    - the file loader and the node observers, which the sources only use
      (their defining modules are not part of the excerpt).

    Python values are dynamically typed, so attribute values are elements of
    one type [pyval]; a call either returns, raises, or leaves the model. *)

From Stdlib Require Import ZArith Ascii String List Bool Lia DecimalString.
From Stdlib Require DecimalZ DecimalPos DecimalN DecimalFacts.
From stdpp Require Import base option list strings gmap.

Local Open Scope Z_scope.

(* ===================================================================== *)
(** * Python values *)
(* ===================================================================== *)

(** [TimeFormat(Enum)]: one member, whose value is the strftime pattern. *)
Inductive TimeFormat := ISO8601.

Definition TimeFormat_value (t : TimeFormat) : string :=
  match t with ISO8601 => "%Y-%m-%dT%H:%M:%S.%f%z" end.

(** The Python values that occur: the JSON scalars and lists, the members of
    [TimeFormat], and instances of [ExportProfile]. An instance is its
    identity [oid] together with its [__dict__], attribute names in the
    order in which [__init__] assigns them. Floats are left out. *)
#[local] Unset Elimination Schemes.
Inductive pyval :=
| PNone
| PBool (b : bool)
| PInt (z : Z)
| PStr (s : string)
| PList (l : list pyval)
| PEnum (t : TimeFormat)
| PObj (oid : nat) (attrs : list (string * pyval)).
#[local] Set Elimination Schemes.

(** Induction on a value, with the hypothesis for every item of a list. *)
Definition pyval_ind (P : pyval -> Prop)
    (HNone : P PNone)
    (HBool : forall b, P (PBool b))
    (HInt : forall z, P (PInt z))
    (HStr : forall s, P (PStr s))
    (HList : forall l, Forall P l -> P (PList l))
    (HEnum : forall t, P (PEnum t))
    (HObj : forall oid attrs, P (PObj oid attrs))
  : forall v, P v :=
  fix ind (v : pyval) : P v :=
    match v with
    | PNone => HNone
    | PBool b => HBool b
    | PInt z => HInt z
    | PStr s => HStr s
    | PList l =>
        HList l ((fix items (l : list pyval) : Forall P l :=
                    match l return Forall P l with
                    | [] => List.Forall_nil P
                    | x :: l' => List.Forall_cons P x l' (ind x) (items l')
                    end) l)
    | PEnum t => HEnum t
    | PObj oid attrs => HObj oid attrs
    end.

(** A Python [dict] with [str] keys (keyword arguments, [__dict__]):
    insertion ordered, at most one entry per key. *)
Abbreviation pydict := (list (string * pyval)).

(** The exception classes that the modelled code can raise. *)
Inductive exn := JSONDecodeError | TypeError | ValueError | AttributeError.

(** What a call does: it returns, it raises, or it reaches a value that the
    model does not cover (a float, a character beyond Latin-1). *)
Inductive outcome (A : Type) :=
| Return (a : A)
| Raise (e : exn)
| OutOfModel.
Arguments Return {A} a.
Arguments Raise {A} e.
Arguments OutOfModel {A}.

Definition obind {A B} (m : outcome A) (k : A -> outcome B) : outcome B :=
  match m with
  | Return a => k a
  | Raise e => Raise e
  | OutOfModel => OutOfModel
  end.

Definition olift {A B} (f : A -> B) (m : outcome A) : outcome B :=
  obind m (fun a => Return (f a)).

(** ** Truth value, [==] on attribute values, hashing *)

(** [bool(v)]. Enum members and plain instances are always true. *)
Definition truthy (v : pyval) : bool :=
  match v with
  | PNone => false
  | PBool b => b
  | PInt z => negb (z =? 0)
  | PStr s => negb (String.eqb s "")
  | PList l => match l with [] => false | _ => true end
  | PEnum _ => true
  | PObj _ _ => true
  end.

(** [hash(v)] raises [TypeError] for a list; every other value here is
    hashable. *)
Definition hashable (v : pyval) : bool :=
  match v with
  | PList _ => false
  | _ => true
  end.

(** Equality of two hashable values as dict keys: [True == 1] and
    [False == 0]; instances without [__eq__] compare by identity. *)
Definition key_eqb (a b : pyval) : bool :=
  match a, b with
  | PNone, PNone => true
  | PBool x, PBool y => Bool.eqb x y
  | PBool x, PInt z | PInt z, PBool x => z =? (if x then 1 else 0)
  | PInt x, PInt y => x =? y
  | PStr x, PStr y => String.eqb x y
  | PEnum ISO8601, PEnum ISO8601 => true
  | PObj i _, PObj j _ => Nat.eqb i j
  | _, _ => false
  end.

(** ** Insertion-ordered dictionaries *)

Section Dict.
Context {K V : Type} (eqb : K -> K -> bool).

(** [d.get(k)] *)
Fixpoint dict_get (d : list (K * V)) (k : K) : option V :=
  match d with
  | [] => None
  | (k', v) :: d' => if eqb k' k then Some v else dict_get d' k
  end.

(** [d[k] = v]: an existing key keeps its position (and its key object),
    a new key goes last. *)
Fixpoint dict_set (d : list (K * V)) (k : K) (v : V) : list (K * V) :=
  match d with
  | [] => [(k, v)]
  | (k', v') :: d' =>
      if eqb k' k then (k', v) :: d' else (k', v') :: dict_set d' k v
  end.

(** [dict(pairs)] *)
Definition dict_of_pairs (pairs : list (K * V)) : list (K * V) :=
  fold_left (fun d kv => dict_set d (fst kv) (snd kv)) pairs [].

Definition dict_keys (d : list (K * V)) : list K := map fst d.
Definition dict_values (d : list (K * V)) : list V := map snd d.

(** How many of the keys [ks] are equal to [k]. *)
Definition key_count (ks : list K) (k : K) : nat :=
  length (filter (fun k' => eqb k' k = true) ks).
End Dict.

(** Attribute lookup on a value: [v.attr]. *)
Definition getattr (v : pyval) (attr : string) : option pyval :=
  match v with
  | PObj _ attrs => dict_get String.eqb attrs attr
  | _ => None
  end.

(* ===================================================================== *)
(** * The [json] module of the Python standard library *)
(* ===================================================================== *)

(** Text is a [string]: a sequence of code points below 256. The encoder
    follows [json.encoder] with the settings [json.dumps] passes on
    ([ensure_ascii], no [sort_keys], separators chosen from [indent]); the
    decoder follows [json.decoder] and [json.scanner] in strict mode. *)
Module Json.

Definition chr (n : N) : ascii := ascii_of_N n.
Definition ord (c : ascii) : N := N_of_ascii c.

Definition dquote : ascii := Eval cbv in chr 34.
Definition backslash : ascii := Eval cbv in chr 92.
Definition newline : ascii := Eval cbv in chr 10.

(** Writes a JSON text with ['] where the text has a double quote. *)
Fixpoint quoted (s : string) : string :=
  match s with
  | EmptyString => EmptyString
  | String c s' =>
      String (if Ascii.eqb c "'" then dquote else c) (quoted s')
  end.

(** ** Encoder *)

(** One lower-case hexadecimal digit, as ['{0:04x}'.format] prints it. *)
Definition hexdigit (n : N) : ascii :=
  if (n <? 10)%N then chr (48 + n) else chr (87 + n).

(** [ESCAPE_DCT] and the [replace] function of
    [py_encode_basestring_ascii], for one character below 256. *)
Definition escape_char (c : ascii) : string :=
  let n := ord c in
  if (n =? 34)%N then String backslash (String dquote EmptyString)
  else if (n =? 92)%N then String backslash (String backslash EmptyString)
  else if (n =? 10)%N then String backslash "n"
  else if (n =? 13)%N then String backslash "r"
  else if (n =? 9)%N then String backslash "t"
  else if (n =? 12)%N then String backslash "f"
  else if (n =? 8)%N then String backslash "b"
  else if ((32 <=? n) && (n <=? 126))%N then String c EmptyString
  else String backslash
         ("u00" +:+ String (hexdigit (n / 16))
                      (String (hexdigit (n mod 16)) EmptyString)).

Fixpoint escape (s : string) : string :=
  match s with
  | EmptyString => EmptyString
  | String c s' => escape_char c +:+ escape s'
  end.

Definition encode_basestring_ascii (s : string) : string :=
  String dquote (escape s +:+ String dquote EmptyString).

(** [int.__repr__] *)
Definition intstr (z : Z) : string := NilZero.string_of_int (Z.to_int z).

Fixpoint spaces (n : nat) : string :=
  match n with
  | O => EmptyString
  | S n' => String " " (spaces n')
  end.

(** [_indent * level] *)
Fixpoint repeat_string (u : string) (n : nat) : string :=
  match n with
  | O => EmptyString
  | S n' => u +:+ repeat_string u n'
  end.

Section Encoder.
(** [indent] is the [_indent] of [_make_iterencode]: [None], or the text
    of one level of indentation; [default] is asked for a replacement
    of every value that is no JSON type. *)
Variable indent : option string.
Variable default : pyval -> pyval.

Definition item_separator : string :=
  match indent with None => ", " | Some _ => "," end.
Definition key_separator : string := ": ".

(** ['\n' + _indent * level], or nothing without [indent]. *)
Definition newline_indent (level : nat) : string :=
  match indent with
  | None => EmptyString
  | Some u => String newline (repeat_string u level)
  end.

(** A scalar: [str], [None], [True], [False], [int]. *)
Definition encode_scalar (o : pyval) : option string :=
  match o with
  | PStr s => Some (encode_basestring_ascii s)
  | PNone => Some "null"
  | PBool true => Some "true"
  | PBool false => Some "false"
  | PInt z => Some (intstr z)
  | _ => None
  end.

(** The items of a list after the first, as [_iterencode_list] yields
    them: the separator and the item, for each. *)
Definition iterencode_rest (enc : pyval -> outcome string) (sep : string)
  : list pyval -> outcome string :=
  fix rest (l : list pyval) : outcome string :=
    match l with
    | [] => Return EmptyString
    | y :: l' =>
        obind (enc y) (fun c =>
        obind (rest l') (fun r => Return (sep +:+ c +:+ r)))
    end.

(** [_iterencode] with [_iterencode_list]. A value of no JSON type is
    replaced by [default(o)] and the replacement encoded; a replacement
    that is itself a container or of no JSON type is outside the model
    ([_encode] answers with a string or [None] only). *)
Fixpoint iterencode (level : nat) (o : pyval) : outcome string :=
  match o with
  | PList [] => Return "[]"
  | PList (x :: l) =>
      obind (iterencode (S level) x) (fun b =>
      obind (iterencode_rest (iterencode (S level))
               (item_separator +:+ newline_indent (S level)) l) (fun r =>
      Return ("[" +:+ newline_indent (S level) +:+ b +:+ r
                  +:+ newline_indent level +:+ "]")))
  | PEnum _ | PObj _ _ =>
      match encode_scalar (default o) with
      | Some s => Return s
      | None => OutOfModel
      end
  | _ =>
      match encode_scalar o with
      | Some s => Return s
      | None => OutOfModel
      end
  end.

(** [_iterencode_dict] for a dict with [str] keys, after its first
    item: separator, key, key separator, value. *)
Fixpoint iterencode_items (level : nat) (d : pydict) : outcome string :=
  match d with
  | [] => Return EmptyString
  | (k, v) :: d' =>
      obind (iterencode level v) (fun c =>
      obind (iterencode_items level d') (fun r =>
      Return (item_separator +:+ newline_indent level
                +:+ encode_basestring_ascii k +:+ key_separator
                +:+ c +:+ r)))
  end.

Definition iterencode_dict (level : nat) (d : pydict) : outcome string :=
  match d with
  | [] => Return "{}"
  | (k, v) :: d' =>
      obind (iterencode (S level) v) (fun c =>
      obind (iterencode_items (S level) d') (fun r =>
      Return ("{" +:+ newline_indent (S level)
                +:+ encode_basestring_ascii k +:+ key_separator
                +:+ c +:+ r +:+ newline_indent level +:+ "}")))
  end.

(** [JSONEncoder.encode] of a dict [d], all of whose chunks are joined. *)
Definition encode (d : pydict) : outcome string := iterencode_dict 0 d.
End Encoder.

(** What [_make_iterencode] makes of the [indent] argument before it
    writes anything: [None] stays, a string is the text of one level,
    and anything else is multiplied with a space, which gives so many
    spaces for an int (none for a negative one), one for [True], and
    [TypeError] for a value that is no number. *)
Definition indent_string (indent : pyval) : outcome (option string) :=
  match indent with
  | PNone => Return None
  | PStr s => Return (Some s)
  | PInt z => Return (Some (spaces (Z.to_nat z)))
  | PBool b => Return (Some (spaces (if b then 1 else 0)))
  | PList _ | PEnum _ | PObj _ _ => Raise TypeError
  end.

(** [json.dumps(d, indent=indent, default=default)] for a dict [d]. *)
Definition dumps (indent : pyval) (default : pyval -> pyval) (d : pydict)
  : outcome string :=
  obind (indent_string indent) (fun u => encode u default d).

(** ** Decoder *)

(** [WHITESPACE_STR] *)
Definition is_ws (c : ascii) : bool :=
  let n := ord c in
  ((n =? 32) || (n =? 9) || (n =? 10) || (n =? 13))%N.

(** [WHITESPACE.match(s, end).end()] *)
Fixpoint skip_ws (s : string) : string :=
  match s with
  | EmptyString => EmptyString
  | String c s' => if is_ws c then skip_ws s' else s
  end.

(** A text of white space only, which the decoder reads over. *)
Fixpoint blank (s : string) : bool :=
  match s with
  | EmptyString => true
  | String c s' => is_ws c && blank s'
  end.

(** An indentation of white space: none, or a blank text per level. *)
Definition blank_unit (indent : option string) : bool :=
  match indent with
  | None => true
  | Some u => blank u
  end.

(** An [indent] argument that gives such an indentation: [None], a
    number, or a blank string. *)
Definition blank_indent (indent : pyval) : bool :=
  match indent with
  | PNone | PInt _ | PBool _ => true
  | PStr s => blank s
  | PList _ | PEnum _ | PObj _ _ => false
  end.

(** [s[idx:idx + len(p)] == p], with what follows the match. *)
Fixpoint strip_prefix (p s : string) : option string :=
  match p, s with
  | EmptyString, _ => Some s
  | String a p', String b s' =>
      if Ascii.eqb a b then strip_prefix p' s' else None
  | String _ _, EmptyString => None
  end.

(** One hexadecimal digit of a [\uXXXX] escape, either case. *)
Definition hexval (c : ascii) : option N :=
  let n := ord c in
  if ((48 <=? n) && (n <=? 57))%N then Some (n - 48)%N
  else if ((97 <=? n) && (n <=? 102))%N then Some (n - 87)%N
  else if ((65 <=? n) && (n <=? 70))%N then Some (n - 55)%N
  else None.

(** [_decode_uXXXX], as the accelerated scanner reads it: exactly four
    hexadecimal digits. *)
Definition decode_uXXXX (h1 h2 h3 h4 : ascii) : option N :=
  match hexval h1, hexval h2, hexval h3, hexval h4 with
  | Some a, Some b, Some c, Some d =>
      Some (((a * 16 + b) * 16 + c) * 16 + d)%N
  | _, _, _, _ => None
  end.

(** [BACKSLASH]: the character that a one-letter escape stands for. *)
Definition BACKSLASH (e : ascii) : option ascii :=
  let n := ord e in
  if (n =? 34)%N then Some dquote
  else if (n =? 92)%N then Some backslash
  else if (n =? 47)%N then Some "/"%char
  else if (n =? 98)%N then Some (chr 8)
  else if (n =? 102)%N then Some (chr 12)
  else if (n =? 110)%N then Some (chr 10)
  else if (n =? 114)%N then Some (chr 13)
  else if (n =? 116)%N then Some (chr 9)
  else None.

Definition cons_char (c : ascii) (r : outcome (string * string))
  : outcome (string * string) :=
  olift (fun '(k, rest) => (String c k, rest)) r.

(** [scanstring(s, end)], [s] being the text after the opening quote:
    the decoded string and the text after the closing quote. An escape
    of a code point above 255 (surrogate pairs among them) leaves the
    model. *)
Fixpoint scanstring (s : string) : outcome (string * string) :=
  match s with
  | EmptyString => Raise JSONDecodeError
  | String c r =>
      if Ascii.eqb c dquote then Return (EmptyString, r)
      else if Ascii.eqb c backslash then
        match r with
        | EmptyString => Raise JSONDecodeError
        | String e r1 =>
            if Ascii.eqb e "u" then
              match r1 with
              | String h1 (String h2 (String h3 (String h4 r2))) =>
                  match decode_uXXXX h1 h2 h3 h4 with
                  | Some uni =>
                      if (uni <? 256)%N
                      then cons_char (chr uni) (scanstring r2)
                      else OutOfModel
                  | None => Raise JSONDecodeError
                  end
              | _ => Raise JSONDecodeError
              end
            else
              match BACKSLASH e with
              | Some ch => cons_char ch (scanstring r1)
              | None => Raise JSONDecodeError
              end
        end
      else if (ord c <? 32)%N then Raise JSONDecodeError
      else cons_char c (scanstring r)
  end.

(** A decimal digit, as the constructor of [Decimal.uint] it stands for. *)
Definition digit (c : ascii) : option (Decimal.uint -> Decimal.uint) :=
  let n := ord c in
  if (n =? 48)%N then Some Decimal.D0
  else if (n =? 49)%N then Some Decimal.D1
  else if (n =? 50)%N then Some Decimal.D2
  else if (n =? 51)%N then Some Decimal.D3
  else if (n =? 52)%N then Some Decimal.D4
  else if (n =? 53)%N then Some Decimal.D5
  else if (n =? 54)%N then Some Decimal.D6
  else if (n =? 55)%N then Some Decimal.D7
  else if (n =? 56)%N then Some Decimal.D8
  else if (n =? 57)%N then Some Decimal.D9
  else None.

Definition is_digit (c : ascii) : bool :=
  match digit c with Some _ => true | None => false end.

(** The longest run of digits and the text after it. *)
Fixpoint scan_digits (s : string) : Decimal.uint * string :=
  match s with
  | EmptyString => (Decimal.Nil, s)
  | String c r =>
      match digit c with
      | Some D => let '(d, r') := scan_digits r in (D d, r')
      | None => (Decimal.Nil, s)
      end
  end.

(** The integer part of [NUMBER_RE]: a lone zero, or a digit from 1 to 9
    and the digits after it. *)
Definition scan_integer (s : string) : option (Decimal.uint * string) :=
  match s with
  | EmptyString => None
  | String c r =>
      if Ascii.eqb c "0" then Some (Decimal.D0 Decimal.Nil, r)
      else if is_digit c then Some (scan_digits s)
      else None
  end.

Definition starts_with_digit (s : string) : bool :=
  match s with
  | EmptyString => false
  | String c _ => is_digit c
  end.

(** The fraction of [NUMBER_RE] matches at [s]: a dot and a digit. *)
Definition has_frac (s : string) : bool :=
  match s with
  | String c r => Ascii.eqb c "." && starts_with_digit r
  | EmptyString => false
  end.

(** The exponent of [NUMBER_RE] matches at [s]: [e] or [E], an optional
    sign, a digit. *)
Definition has_exp (s : string) : bool :=
  match s with
  | String c r =>
      (Ascii.eqb c "e" || Ascii.eqb c "E") &&
      match r with
      | String g r' =>
          if Ascii.eqb g "-" || Ascii.eqb g "+"
          then starts_with_digit r' else is_digit g
      | EmptyString => false
      end
  | EmptyString => false
  end.

(** [NUMBER_RE.match(s, idx)] and the conversion of the match: [None]
    when the pattern does not match; a match with a fraction or an
    exponent is a float. *)
Definition match_number (s : string) : option (outcome (pyval * string)) :=
  let '(neg, s1) :=
    match s with
    | String c r => if Ascii.eqb c "-" then (true, r) else (false, s)
    | EmptyString => (false, s)
    end in
  match scan_integer s1 with
  | None => None
  | Some (d, r) =>
      if has_frac r || has_exp r then Some OutOfModel
      else
        let z := Z.of_uint d in
        Some (Return (PInt (if neg then - z else z), r))
  end.

(** What follows a number in a text does not continue it. *)
Definition delimited (r : string) : Prop :=
  starts_with_digit r = false /\ has_frac r = false /\ has_exp r = false.

(** A value starts with a character that is no white space and does not
    close an array. *)
Definition starts_value (t : string) : Prop :=
  exists c t', t = String c t' /\ is_ws c = false /\ Ascii.eqb c "]" = false.

Section Decoder.
(** The decoder state [St] is whatever [object_hook] reads and writes;
    the hook is called on every object as soon as it is closed. *)
Context {St : Type}.
Variable object_hook : pydict -> St -> outcome pyval * St.

(** The body of [JSONArray] before its loop: an empty array, or the
    items. [s] is the text after the bracket. *)
Definition JSONArray_with
    (loop : string -> St -> outcome (list pyval * string) * St)
    (s : string) (st : St) : outcome (pyval * string) * St :=
  match skip_ws s with
  | String c r =>
      if Ascii.eqb c "]" then (Return (PList [], r), st)
      else
        match loop (skip_ws s) st with
        | (Return (vs, r'), st') => (Return (PList vs, r'), st')
        | (Raise e, st') => (Raise e, st')
        | (OutOfModel, st') => (OutOfModel, st')
        end
  | EmptyString => (Raise JSONDecodeError, st)
  end.

(** The body of [JSONObject] before its loop: an empty object, or the
    pairs, the first of which starts after its opening quote. *)
Definition JSONObject_with
    (loop : string -> list (string * pyval) -> St
            -> outcome (pyval * string) * St)
    (s : string) (st : St) : outcome (pyval * string) * St :=
  match skip_ws s with
  | String c r =>
      if Ascii.eqb c "}" then
        match object_hook [] st with
        | (Return v, st') => (Return (v, r), st')
        | (Raise e, st') => (Raise e, st')
        | (OutOfModel, st') => (OutOfModel, st')
        end
      else if Ascii.eqb c dquote then loop r [] st
      else (Raise JSONDecodeError, st)
  | EmptyString => (Raise JSONDecodeError, st)
  end.

(** One round of the loop of [JSONArray]: an item, then the bracket that
    ends the array or the comma before the next round. *)
Definition JSONArray_step
    (scan_once : string -> St -> outcome (pyval * string) * St)
    (loop : string -> St -> outcome (list pyval * string) * St)
    (s : string) (st : St) : outcome (list pyval * string) * St :=
  match scan_once s st with
  | (Return (v, r), st1) =>
      match skip_ws r with
      | String c r' =>
          if Ascii.eqb c "]" then (Return ([v], r'), st1)
          else if Ascii.eqb c "," then
            match loop (skip_ws r') st1 with
            | (Return (vs, r''), st2) => (Return (v :: vs, r''), st2)
            | other => other
            end
          else (Raise JSONDecodeError, st1)
      | EmptyString => (Raise JSONDecodeError, st1)
      end
  | (Raise e, st1) => (Raise e, st1)
  | (OutOfModel, st1) => (OutOfModel, st1)
  end.

(** One round of the loop of [JSONObject], [s] being the text after the
    opening quote of the key and [pairs] the pairs read so far, latest
    first: key, colon, value, then the brace that ends the object (and
    the hook on [dict(pairs)]) or the comma and quote before the next
    round. *)
Definition JSONObject_step
    (scan_once : string -> St -> outcome (pyval * string) * St)
    (loop : string -> list (string * pyval) -> St
            -> outcome (pyval * string) * St)
    (s : string) (pairs : list (string * pyval)) (st : St)
  : outcome (pyval * string) * St :=
  match scanstring s with
  | Return (key, r) =>
      match skip_ws r with
      | String c r1 =>
          if Ascii.eqb c ":" then
            match scan_once (skip_ws r1) st with
            | (Return (value, r2), st1) =>
                let pairs' := (key, value) :: pairs in
                match skip_ws r2 with
                | String c2 r3 =>
                    if Ascii.eqb c2 "}" then
                      match object_hook
                              (dict_of_pairs String.eqb (rev pairs'))
                              st1 with
                      | (Return v, st2) => (Return (v, r3), st2)
                      | (Raise e, st2) => (Raise e, st2)
                      | (OutOfModel, st2) => (OutOfModel, st2)
                      end
                    else if Ascii.eqb c2 "," then
                      match skip_ws r3 with
                      | String c3 r4 =>
                          if Ascii.eqb c3 dquote
                          then loop r4 pairs' st1
                          else (Raise JSONDecodeError, st1)
                      | EmptyString => (Raise JSONDecodeError, st1)
                      end
                    else (Raise JSONDecodeError, st1)
                | EmptyString => (Raise JSONDecodeError, st1)
                end
            | (Raise e, st1) => (Raise e, st1)
            | (OutOfModel, st1) => (OutOfModel, st1)
            end
          else (Raise JSONDecodeError, st)
      | EmptyString => (Raise JSONDecodeError, st)
      end
  | Raise e => (Raise e, st)
  | OutOfModel => (OutOfModel, st)
  end.

(** The body of [_scan_once], given the parsers of objects and arrays. *)
Definition scan_value
    (parse_object parse_array :
       string -> St -> outcome (pyval * string) * St)
    (s : string) (st : St) : outcome (pyval * string) * St :=
  match s with
  | EmptyString => (Raise JSONDecodeError, st)
  | String c r =>
      if Ascii.eqb c dquote then
        (olift (fun '(k, r') => (PStr k, r')) (scanstring r), st)
      else if Ascii.eqb c "{" then parse_object r st
      else if Ascii.eqb c "[" then parse_array r st
      else
        match strip_prefix "null" s, strip_prefix "true" s,
              strip_prefix "false" s with
        | Some r', _, _ => (Return (PNone, r'), st)
        | None, Some r', _ => (Return (PBool true, r'), st)
        | None, None, Some r' => (Return (PBool false, r'), st)
        | None, None, None =>
            match match_number s with
            | Some res => (res, st)
            | None =>
                match strip_prefix "NaN" s,
                      strip_prefix "Infinity" s,
                      strip_prefix "-Infinity" s with
                | None, None, None => (Raise JSONDecodeError, st)
                | _, _, _ => (OutOfModel, st)
                end
            end
        end
  end.

(** [_scan_once] with the loops of [JSONArray] and [JSONObject]. Every
    call spends one unit of [fuel], and of any two calls in a row one has
    read a character, so a text never needs more than two units for each
    of its characters. *)
Fixpoint scan_once (fuel : nat) (s : string) (st : St)
  : outcome (pyval * string) * St :=
  match fuel with
  | O => (OutOfModel, st)
  | S fuel' =>
      scan_value (JSONObject_with (object_loop fuel'))
                 (JSONArray_with (array_loop fuel')) s st
  end

with array_loop (fuel : nat) (s : string) (st : St)
  : outcome (list pyval * string) * St :=
  match fuel with
  | O => (OutOfModel, st)
  | S fuel' => JSONArray_step (scan_once fuel') (array_loop fuel') s st
  end

with object_loop (fuel : nat) (s : string)
                 (pairs : list (string * pyval)) (st : St)
  : outcome (pyval * string) * St :=
  match fuel with
  | O => (OutOfModel, st)
  | S fuel' =>
      JSONObject_step (scan_once fuel') (object_loop fuel') s pairs st
  end.

(** [json.loads(s, object_hook=object_hook)]: [JSONDecoder.decode],
    which skips white space around the one value and rejects extra
    data after it. *)
Definition loads (s : string) (st : St) : outcome pyval * St :=
  match scan_once (S (S (2 * String.length s))) (skip_ws s) st with
  | (Return (obj, r), st') =>
      match skip_ws r with
      | EmptyString => (Return obj, st')
      | String _ _ => (Raise JSONDecodeError, st')
      end
  | (Raise e, st') => (Raise e, st')
  | (OutOfModel, st') => (OutOfModel, st')
  end.
End Decoder.

(** [json.loads] without a hook makes a [dict] of every object. The
    values here have no dicts among them, so this hook stands in for the
    missing one: it answers with the dictionary, held by an instance of
    identity 0, and counts its calls. *)
Definition record (d : pydict) (calls : nat) : outcome pyval * nat :=
  (Return (PObj 0 d), S calls).

(** [text] is one JSON object with no object inside it, and reads as the
    dictionary [d]. *)
Definition object_of (text : string) (d : pydict) : Prop :=
  loads record text 0%nat = (Return (PObj 0%nat d), 1%nat).

(** [JSONDecoder.raw_decode] at the first character that is no white
    space: the value there and the text after it, which [loads] goes on
    to check for extra data. *)
Definition raw_decode {St : Type}
    (object_hook : pydict -> St -> outcome pyval * St)
    (s : string) (st : St) : outcome (pyval * string) * St :=
  scan_once object_hook (S (S (2 * String.length s))) (skip_ws s) st.

(** A hook that keeps a record of its calls: the object and the state
    that each call has found. *)
Definition traced {St : Type}
    (object_hook : pydict -> St -> outcome pyval * St)
    (d : pydict) (s : St * list (pydict * St))
  : outcome pyval * (St * list (pydict * St)) :=
  match object_hook d (fst s) with
  | (o, st') => (o, (st', snd s ++ [(d, fst s)]))
  end.

(** The calls of the hook while [loads] reads [text], in order. *)
Definition hook_calls {St : Type}
    (object_hook : pydict -> St -> outcome pyval * St)
    (text : string) (st : St) : list (pydict * St) :=
  snd (snd (loads (traced object_hook) text (st, []))).

(** What a decoder makes of the text that [iterencode] writes for [o]:
    a list item by item, a value of no JSON type as its replacement. *)
Fixpoint decoded (default : pyval -> pyval) (o : pyval) : pyval :=
  match o with
  | PList l => PList (map (decoded default) l)
  | PEnum _ | PObj _ _ => default o
  | _ => o
  end.

Definition decoded_items (default : pyval -> pyval) (d : pydict) : pydict :=
  map (fun kv => (fst kv, decoded default (snd kv))) d.

(** The values of the JSON types: the scalars, and lists of such. *)
Fixpoint json_native (o : pyval) : bool :=
  match o with
  | PNone | PBool _ | PInt _ | PStr _ => true
  | PList l => forallb json_native l
  | PEnum _ | PObj _ _ => false
  end.

End Json.

(* ===================================================================== *)
(** * [dgp/lib/exporters/export_profile.py] *)
(* ===================================================================== *)

Module ExportProfile.

(** The process state that the class touches: the class attribute
    [__profiles], and the identity that the next instance gets. *)
Record state := {
  next_oid : nat;
  __profiles : list (pyval * pyval)
}.

Definition initial : state := {| next_oid := 0; __profiles := [] |}.

Definition M (A : Type) : Type := state -> outcome A * state.

(** [TimeFormat(value)]: the member with that value, or [ValueError]. *)
Definition TimeFormat_of_value (value : string) : outcome TimeFormat :=
  if String.eqb value (TimeFormat_value ISO8601) then Return ISO8601
  else Raise ValueError.

(** [register(cls, profile)]: [cls.__profiles[profile.name] = profile]. *)
Definition register (profile : pyval) : M unit := fun st =>
  match getattr profile "name" with
  | None => (Raise AttributeError, st)
  | Some name =>
      if hashable name then
        (Return tt,
         {| next_oid := next_oid st;
            __profiles := dict_set key_eqb (__profiles st) name profile |})
      else (Raise TypeError, st)
  end.

(** [profiles(cls)] and [names(cls)]: what the generator yields when it
    is run to its end. *)
Definition profiles (st : state) : list pyval :=
  dict_values (__profiles st).

Definition names (st : state) : list pyval :=
  dict_keys (__profiles st).

(** [__init__] on the fresh instance [self]; the answer is the
    initialised instance. *)
Definition __init__ (self : nat)
    (name columns ext precision dateformat _userprofile register_ : pyval)
  : M pyval := fun st =>
  let columns' := if truthy columns then columns else PList [] in
  let dateformat' :=
    match dateformat with
    | PStr s => olift PEnum (TimeFormat_of_value s)
    | _ => Return dateformat
    end in
  match dateformat' with
  | Return df =>
      let obj := PObj self [("name", name); ("columns", columns');
                            ("ext", ext); ("precision", precision);
                            ("dateformat", df);
                            ("_userprofile", _userprofile)] in
      if truthy register_ then
        match register obj st with
        | (Return _, st') => (Return obj, st')
        | (Raise e, st') => (Raise e, st')
        | (OutOfModel, st') => (OutOfModel, st')
        end
      else (Return obj, st)
  | Raise e => (Raise e, st)
  | OutOfModel => (OutOfModel, st)
  end.

(** The parameters of [__init__] after [self]. *)
Definition parameters : list string :=
  ["name"; "columns"; "ext"; "precision"; "dateformat"; "_userprofile";
   "register"].

Definition is_parameter (k : string) : bool :=
  existsb (String.eqb k) parameters.

Definition arg (kwargs : pydict) (k : string) (default : pyval) : pyval :=
  match dict_get String.eqb kwargs k with
  | Some v => v
  | None => default
  end.

(** The call of [ExportProfile] on the keyword arguments [kwargs] (the
    double-star call of the source): a new instance, the arguments
    bound to the parameters ([TypeError] for a keyword that is no
    parameter and for a missing [name]), then [__init__]. *)
Definition new (kwargs : pydict) : M pyval := fun st =>
  let self := next_oid st in
  let st1 := {| next_oid := S self; __profiles := __profiles st |} in
  if forallb (fun kv => is_parameter (fst kv)) kwargs then
    match dict_get String.eqb kwargs "name" with
    | None => (Raise TypeError, st1)
    | Some name =>
        __init__ self name
          (arg kwargs "columns" PNone)
          (arg kwargs "ext" (PStr "dat"))
          (arg kwargs "precision" (PInt 10))
          (arg kwargs "dateformat" (PEnum ISO8601))
          (arg kwargs "_userprofile" (PBool true))
          (arg kwargs "register" (PBool true))
          st1
    end
  else (Raise TypeError, st1).

(** [self.__dict__] *)
Definition __dict__ (self : pyval) : outcome pydict :=
  match self with
  | PObj _ attrs => Return attrs
  | _ => Raise AttributeError
  end.

(** [copy(self)]: the class called on the keywords [self.__dict__]. *)
Definition copy (self : pyval) : M pyval := fun st =>
  match __dict__ self with
  | Return d => new d st
  | Raise e => (Raise e, st)
  | OutOfModel => (OutOfModel, st)
  end.

(** The [readonly] property: [not self._userprofile]. *)
Definition readonly (self : pyval) : outcome bool :=
  match getattr self "_userprofile" with
  | Some u => Return (negb (truthy u))
  | None => Raise AttributeError
  end.

(** The [_encode] of [to_json]: the value of a [TimeFormat] member, and
    (by falling off its end) [None] for anything else. *)
Definition _encode (val : pyval) : pyval :=
  match val with
  | PEnum t => PStr (TimeFormat_value t)
  | _ => PNone
  end.

(** [to_json(self, indent)]: the [indent] goes to [json.dumps] as it
    is, whatever it is. *)
Definition to_json (self : pyval) (indent : pyval) : outcome string :=
  obind (__dict__ self) (Json.dumps indent _encode).

(** The [_decode] of [from_json]: the class called on the keywords [obj]. *)
Definition _decode (obj : pydict) : M pyval := new obj.

(** [from_json(cls, value)] *)
Definition from_json (value : string) : M pyval :=
  Json.loads _decode value.

(** ** Profile documents *)

(** The keys of a profile in JSON: the attributes of an instance. *)
Definition attributes : list string :=
  ["name"; "columns"; "ext"; "precision"; "dateformat"; "_userprofile"].

(** A JSON object that describes a profile, as a dictionary: its keys are
    attributes, with a string under [name] and, if there is a
    [dateformat], the value of a [TimeFormat] member under it; its values
    are of the JSON types. *)
Definition profile_document (d : pydict) (name : string) : Prop :=
  NoDup (map fst d) /\
  Forall (fun kv => fst kv ∈ attributes /\ Json.json_native (snd kv) = true) d /\
  dict_get String.eqb d "name" = Some (PStr name) /\
  (forall v, dict_get String.eqb d "dateformat" = Some v ->
             v = PStr (TimeFormat_value ISO8601)).

(** A JSON object that the constructor makes a profile of: its keys are
    parameters of the constructor, so there may be a [register] among
    them; it has a string under [name]; and a string under
    [dateformat], if there is one, is the value of a [TimeFormat]
    member. *)
Definition profile_keywords (d : pydict) (name : string) : Prop :=
  Forall (fun kv => fst kv ∈ parameters) d /\
  dict_get String.eqb d "name" = Some (PStr name) /\
  (forall s, dict_get String.eqb d "dateformat" = Some (PStr s) ->
             s = TimeFormat_value ISO8601).

(** ** Profiles whose attributes have the annotated types *)

Record fields := {
  name : string;
  columns : list string;
  ext : string;
  precision : Z;
  dateformat : TimeFormat;
  _userprofile : bool
}.

(** The JSON object of section 6 of the specification for [f]. *)
Definition document_of (f : fields) : pydict :=
  [("name", PStr (name f));
   ("columns", PList (map PStr (columns f)));
   ("ext", PStr (ext f));
   ("precision", PInt (precision f));
   ("dateformat", PStr (TimeFormat_value (dateformat f)));
   ("_userprofile", PBool (_userprofile f))].

(** The instance [oid] that holds [f]. *)
Definition instance (oid : nat) (f : fields) : pyval :=
  PObj oid [("name", PStr (name f));
            ("columns", PList (map PStr (columns f)));
            ("ext", PStr (ext f));
            ("precision", PInt (precision f));
            ("dateformat", PEnum (dateformat f));
            ("_userprofile", PBool (_userprofile f))].

End ExportProfile.

(* ===================================================================== *)
(** * [dgp/core/types/enumerations.py] *)
(* ===================================================================== *)

Inductive StateAction := CREATE | UPDATE | DELETE.

Global Instance StateAction_eq_dec : EqDecision StateAction.
Proof. solve_decision. Defined.

(* ===================================================================== *)
(** * The file loader *)
(* ===================================================================== *)

Module FileLoader.
Section FileLoader.
(** Paths, loaded results and exception objects are not inspected. *)
Context {Path Result Exception : Type}.

(** The two signals of a loader, with what they carry. *)
Inductive notification :=
| loaded (result : Result)
| error (exception : Exception).

(** A loader holds the path and the loading function, which returns a
    result or raises. *)
Record FileLoader := {
  path : Path;
  loader : Path -> Result + Exception
}.

(** Modelled from the spec: [dgp/core/file_loader.py] is not among the
    sources (only its test is). [run] executes the loading function on
    the path; on success it emits [loaded] with the result, on any
    exception raised by the loading function it emits [error] with the
    exception and does not emit [loaded]. The answer is the sequence
    of notifications emitted by one run. *)
Definition run (fl : FileLoader) : list notification :=
  match loader fl (path fl) with
  | inl result => [loaded result]
  | inr exception => [error exception]
  end.

Definition is_loaded (n : notification) : bool :=
  match n with loaded _ => true | error _ => false end.

Definition is_error (n : notification) : bool :=
  match n with loaded _ => false | error _ => true end.

(** What a [QSignalSpy] on the signal has recorded after the run. *)
Definition spy_loaded (ns : list notification) : list Result :=
  omap (fun n => match n with loaded r => Some r | error _ => None end) ns.

Definition spy_error (ns : list notification) : list Exception :=
  omap (fun n => match n with loaded _ => None | error e => Some e end) ns.
End FileLoader.
Arguments notification : clear implicits.
Arguments FileLoader : clear implicits.
End FileLoader.

(* ===================================================================== *)
(** * Nodes of the project tree and their observers *)
(* ===================================================================== *)

Module Node.

(** A callback is known by what it is: the [remove] method of the plot
    group of a segment, or some other callable. *)
Inductive callback :=
| group_remove (group : string)
| callable (n : nat).

Global Instance callback_eq_dec : EqDecision callback.
Proof. solve_decision. Defined.

(** A registration: the listening object, the callback, the action. *)
Record observer := {
  listener : string;
  callback_of : callback;
  action : StateAction
}.

(** Modelled from the spec: the controllers of [dgp/core/controllers]
    are not among the sources. A node is a tree element with a unique
    identifier, a mapping of named attributes, child nodes and a list
    of registered observers. *)
#[local] Unset Elimination Schemes.
Inductive Node := {
  uid : string;
  attrs : gmap string pyval;
  children : list Node;
  observers : list observer
}.
#[local] Set Elimination Schemes.

(** The callbacks that a mutation has invoked, in order. *)
Abbreviation trace := (list callback).

(** Modelled from the spec: [register_observer(listener, callback,
    action)] attaches the callback to the node for that action. *)
Definition register_observer (l : string) (cb : callback) (a : StateAction)
    (n : Node) : Node :=
  {| uid := uid n; attrs := attrs n; children := children n;
     observers := observers n ++
                  [{| listener := l; callback_of := cb; action := a |}] |}.

(** Every callback registered on [n] for the action [a]. *)
Definition notify (a : StateAction) (n : Node) : trace :=
  map callback_of (filter (fun o => action o = a) (observers n)).

Definition get_attr (key : string) (n : Node) : option pyval :=
  attrs n !! key.

(** Modelled from the spec: [set_attr] writes the attribute and then
    invokes the callbacks registered for [UPDATE] on the node. *)
Definition set_attr (key : string) (value : pyval) (n : Node)
  : Node * trace :=
  let n' := {| uid := uid n; attrs := <[key := value]> (attrs n);
               children := children n; observers := observers n |} in
  (n', notify UPDATE n').

(** Modelled from the spec: [get_child(uid)], the child with that
    identifier. *)
Definition get_child (u : string) (n : Node) : option Node :=
  find (fun c => bool_decide (uid c = u)) (children n).

Definition with_children (n : Node) (cs : list Node) : Node :=
  {| uid := uid n; attrs := attrs n; children := cs;
     observers := observers n |}.

(** A child is an object of its own: a change made through a reference
    to it shows in the parent. [update_child u f] is the parent after
    [f] has changed the child that [get_child u] answers with. *)
Fixpoint update_first (u : string) (f : Node -> Node) (cs : list Node)
  : list Node :=
  match cs with
  | [] => []
  | c :: cs' =>
      if bool_decide (uid c = u) then f c :: cs'
      else c :: update_first u f cs'
  end.

Definition update_child (u : string) (f : Node -> Node) (n : Node) : Node :=
  with_children n (update_first u f (children n)).

Fixpoint remove_first (u : string) (cs : list Node) : list Node :=
  match cs with
  | [] => []
  | c :: cs' =>
      if bool_decide (uid c = u) then cs' else c :: remove_first u cs'
  end.

(** Modelled from the spec: [remove_child(uid)] takes the child out and
    then invokes the callbacks registered for [DELETE] on it. There is
    nothing to remove, and the call fails, when no child has the
    identifier. *)
Definition remove_child (u : string) (n : Node) : option (Node * trace) :=
  match get_child u n with
  | Some c =>
      Some (with_children n (remove_first u (children n)),
            notify DELETE c)
  | None => None
  end.

(** Modelled from the spec: [add_child] appends the new child and then
    invokes the callbacks registered for [CREATE] on the node. *)
Definition add_child (c : Node) (n : Node) : Node * trace :=
  let n' := with_children n (children n ++ [c]) in
  (n', notify CREATE n').

(** How many times a run of callbacks has invoked [cb]. *)
Definition times_called (cb : callback) (tr : trace) : nat :=
  length (filter (fun c => c = cb) tr).

(** The callbacks registered on [n], for whatever action. *)
Definition registered (n : Node) : list callback :=
  map callback_of (observers n).

End Node.

(* ===================================================================== *)
(** * [dgp/gui/workspaces/dataset.py] *)
(* ===================================================================== *)

(** ** [SegmentSelectTab]: the slot for a changed segment *)

Module SegmentSelectTab.
Import Node.

(** [LineUpdate]: the action, the identifier of the segment, and the new
    start, stop and label, [None] where the plot has none. *)
Record LineUpdate := {
  lu_action : StateAction;
  lu_uid : string;
  start : pyval;
  stop : pyval;
  label : pyval
}.

(** [seg_c.set_attr(key, value)] on the child [u] of the controller. *)
Definition child_set_attr (u key : string) (value : pyval)
    (st : Node * trace) : Node * trace :=
  let '(control, tr) := st in
  match get_child u control with
  | Some seg_c =>
      let '(seg_c', tr') := set_attr key value seg_c in
      (update_child u (fun _ => seg_c') control, tr ++ tr')
  | None => (control, tr)
  end.

Definition when (b : bool) {A} (f : A -> A) (a : A) : A :=
  if b then f a else a.

(** The segment that [add_child] makes of a [CREATE] update. *)
Definition segment_of (update : LineUpdate) : Node :=
  {| uid := lu_uid update;
     attrs := <["start" := start update]>
                (<["stop" := stop update]>
                   (<["label" := label update]> ∅));
     children := [];
     observers := [] |}.

(** [_slot_segment_changed(self, update)] on the controller
    [self.control]: the controller afterwards and the callbacks invoked,
    or [None] when the segment that the update names does not exist. *)
Definition _slot_segment_changed (update : LineUpdate) (control : Node)
  : option (Node * trace) :=
  match lu_action update with
  | DELETE => remove_child (lu_uid update) control
  | UPDATE =>
      match get_child (lu_uid update) control with
      | None => None
      | Some _ =>
          let u := lu_uid update in
          Some
            (when (truthy (label update))
               (child_set_attr u "label" (label update))
               (when (truthy (stop update))
                  (child_set_attr u "stop" (stop update))
                  (when (truthy (start update))
                     (child_set_attr u "start" (start update))
                     (control, []))))
      end
  | CREATE =>
      let seg_c := segment_of update in
      let '(control', tr) := add_child seg_c control in
      let u := lu_uid update in
      Some (with_children control'
              (children control ++
               [register_observer u (group_remove u) DELETE seg_c]),
            tr)
  end.

(** The loop of [__init__] over [self.control.children]: the plot group
    of every segment observes the deletion of its segment. *)
Definition register_groups (control : Node) : Node :=
  with_children control
    (map (fun segment =>
            register_observer (uid segment) (group_remove (uid segment))
              DELETE segment)
         (children control)).

End SegmentSelectTab.

(** ** [DataSetTab]: the state of the sub-tabs, and their [sigLoaded] *)

Module DataSetTab.

(** What [get_state] answers and [restore_state] takes: [None], a plain
    value, or a dictionary of such, possibly nested. *)
#[local] Unset Elimination Schemes.
Inductive settings :=
| SNone
| SValue (v : pyval)
| SDict (d : list (string * settings)).
#[local] Set Elimination Schemes.

(** A sub-tab as the workspace sees it: the name of its class and what
    its [get_state] answers. *)
Record SubTab := {
  class_name : string;
  get_state : settings
}.

(** [SegmentSelectTab.get_state] hands on the state of its channel
    controller; [DataTransformTab.get_state] is [pass] and answers
    [None]. *)
Definition segment_tab (controller_state : settings) : SubTab :=
  {| class_name := "SegmentSelectTab"; get_state := controller_state |}.

Definition transform_tab : SubTab :=
  {| class_name := "DataTransformTab"; get_state := SNone |}.

(** The tabs of [self.workspace], in the order of [addTab]. *)
Definition workspace (controller_state : settings) : list SubTab :=
  [segment_tab controller_state; transform_tab].

(** [save_state]: the dictionary that the loop over the tabs builds and
    hands to the [save_state] of the base class. *)
Definition save_state (tabs : list SubTab) : gmap string settings :=
  fold_left (fun state tab => <[class_name tab := get_state tab]> state)
            tabs ∅.

(** [_tab_loaded]: the state that [tab.restore_state] is called with,
    [ws_settings.get(name, {})]. *)
Definition _tab_loaded (ws_settings : gmap string settings) (tab : SubTab)
  : settings :=
  default (SDict []) (ws_settings !! class_name tab).

(** *** Signals and slots *)

Inductive tab_class := SegmentSelect | DataTransform.

Global Instance tab_class_eq_dec : EqDecision tab_class.
Proof. solve_decision. Defined.

(** What can be observed: a sub-tab has emitted [sigLoaded], and the
    slot [_tab_loaded] of the workspace has run for a sub-tab (which is
    where [restore_state] is called). *)
Inductive event :=
| emitted (tab : tab_class)
| tab_loaded (tab : tab_class).

Global Instance event_eq_dec : EqDecision event.
Proof. solve_decision. Defined.

(** The Qt side of one workspace: how many times [_tab_loaded] is
    connected to the [sigLoaded] of each sub-tab, the results of worker
    threads that the event loop has yet to deliver, and the events so
    far. *)
Record world := {
  connections : tab_class -> nat;
  pending : list tab_class;
  log : list event
}.

Definition empty_world : world :=
  {| connections := fun _ => 0%nat; pending := []; log := [] |}.

(** [tab.sigLoaded.connect(self._tab_loaded)] *)
Definition connect (tab : tab_class) (w : world) : world :=
  {| connections := fun t => if decide (t = tab)
                             then S (connections w t) else connections w t;
     pending := pending w;
     log := log w |}.

(** [self.sigLoaded.emit(self)]: a signal calls the slots that are
    connected at the time of the emission, once per connection. *)
Definition emit (tab : tab_class) (w : world) : world :=
  {| connections := connections w;
     pending := pending w;
     log := log w ++ emitted tab
              :: replicate (connections w tab) (tab_loaded tab) |}.

(** [SegmentSelectTab.__init__]: the data frame is loaded by a
    [ThreadedFunction]; its result reaches [_dataframe_loaded] through
    the event loop, after the constructors have returned. *)
Definition SegmentSelectTab_init (w : world) : world :=
  {| connections := connections w;
     pending := pending w ++ [SegmentSelect];
     log := log w |}.

(** [SegmentSelectTab._dataframe_loaded] ends with the emission. *)
Definition _dataframe_loaded (w : world) : world := emit SegmentSelect w.

(** [DataTransformTab.__init__] ends with the emission. *)
Definition DataTransformTab_init (w : world) : world := emit DataTransform w.

(** [DataSetTab.__init__]: each sub-tab is constructed and then its
    [sigLoaded] connected. *)
Definition __init__ (w : world) : world :=
  connect DataTransform
    (DataTransformTab_init
       (connect SegmentSelect
          (SegmentSelectTab_init w))).

(** The event loop delivers the pending results in order. *)
Definition deliver (w : world) : world :=
  fold_left (fun w' (_ : tab_class) => _dataframe_loaded w')
            (pending w)
            {| connections := connections w; pending := [];
               log := log w |}.

Definition count_event (e : event) (w : world) : nat :=
  length (filter (fun e' => e' = e) (log w)).

End DataSetTab.

(* ===================================================================== *)
(** * Sample data *)
(* ===================================================================== *)

Module Samples.
Import Node.

Definition segment (u : string) (first last : Z) (name : string) : Node :=
  {| uid := u;
     attrs := <["start" := PInt first]>
                (<["stop" := PInt last]> (<["label" := PStr name]> ∅));
     children := [];
     observers := [] |}.

Definition line1 : Node := segment "seg-1" 100 200 "line 1".
Definition line2 : Node := segment "seg-2" 300 400 "line 2".

(** A data set with two segments and nothing registered yet. *)
Definition dataset : Node :=
  {| uid := "dataset"; attrs := <["name" := PStr "flight"]> ∅;
     children := [line1; line2]; observers := [] |}.

(** The plot moves the end of the second line to 450 and clears its
    label; the start is not part of the update. *)
Definition relabel : SegmentSelectTab.LineUpdate :=
  {| SegmentSelectTab.lu_action := UPDATE;
     SegmentSelectTab.lu_uid := "seg-2";
     SegmentSelectTab.start := PNone;
     SegmentSelectTab.stop := PInt 450;
     SegmentSelectTab.label := PStr "" |}.

(** The second line with a listener for its updates, in a data set of
    its own, and an update from the plot that moves both ends of the
    line and leaves the label alone. *)
Definition watched_line : Node :=
  register_observer "line-table" (callable 1) UPDATE line2.

Definition watched_dataset : Node :=
  {| uid := "dataset"; attrs := <["name" := PStr "flight"]> ∅;
     children := [line1; watched_line]; observers := [] |}.

Definition retime : SegmentSelectTab.LineUpdate :=
  {| SegmentSelectTab.lu_action := UPDATE;
     SegmentSelectTab.lu_uid := "seg-2";
     SegmentSelectTab.start := PInt 320;
     SegmentSelectTab.stop := PInt 450;
     SegmentSelectTab.label := PNone |}.

(** What a channel controller may answer for its state. *)
Definition channels : DataSetTab.settings :=
  DataSetTab.SDict
    [("rows", DataSetTab.SValue (PInt 2));
     ("plotted",
      DataSetTab.SDict [("gravity", DataSetTab.SValue (PInt 0))])].

(** A profile as the application ships it. *)
Definition gravity : ExportProfile.fields :=
  {| ExportProfile.name := "gravity";
     ExportProfile.columns := ["gravity"; "lat"; "long"];
     ExportProfile.ext := "csv";
     ExportProfile.precision := 6;
     ExportProfile.dateformat := ISO8601;
     ExportProfile._userprofile := false |}.

(** A profile document that leaves the extension and the user flag to
    their defaults, and the text that [json.dumps] writes for it. *)
Definition document : pydict :=
  [("name", PStr "gravity");
   ("columns", PList [PStr "gravity"; PStr "lat"]);
   ("precision", PInt 6);
   ("dateformat", PStr "%Y-%m-%dT%H:%M:%S.%f%z")].

Definition document_text : string :=
  Json.quoted
    "{'name': 'gravity', 'columns': ['gravity', 'lat'], 'precision': 6, 'dateformat': '%Y-%m-%dT%H:%M:%S.%f%z'}".

(** The state after that profile has been constructed first of all. *)
Definition registered : ExportProfile.state :=
  {| ExportProfile.next_oid := 1;
     ExportProfile.__profiles :=
       [(PStr "gravity", ExportProfile.instance 0 gravity)] |}.

End Samples.

(* ===================================================================== *)
(** * More of the same modules *)
(* ===================================================================== *)

(** ** Calls from outside *)

Module Registry.
Import ExportProfile.

(** What the rest of the program can do with the class. *)
Inductive call :=
| call_register (profile : pyval)
| call_new (kwargs : pydict)
| call_copy (self : pyval)
| call_from_json (value : string).

(** The state after a call, whether the call returns or raises. *)
Definition after (c : call) (st : state) : state :=
  match c with
  | call_register profile => snd (register profile st)
  | call_new kwargs => snd (new kwargs st)
  | call_copy self => snd (copy self st)
  | call_from_json value => snd (from_json value st)
  end.

Definition after_all (cs : list call) (st : state) : state :=
  fold_left (fun st' c => after c st') cs st.

(** No two keys of the registry are equal. *)
Definition distinct_names (st : state) : Prop :=
  forall k, (key_count key_eqb (names st) k <= 1)%nat.

(** Every profile of the registry is under a key equal to its name. *)
Definition keyed_by_name (st : state) : Prop :=
  Forall (fun kp => exists n, getattr (snd kp) "name" = Some n /\
                              key_eqb (fst kp) n = true)
         (__profiles st).

(** One change of the registry: none, or an entry set under the name of
    its profile. *)
Definition registry_step (r r' : list (pyval * pyval)) : Prop :=
  r' = r \/
  exists name obj,
    getattr obj "name" = Some name /\ hashable name = true /\
    r' = dict_set key_eqb r name obj.

End Registry.

(** ** Plain text *)

Module PlainText.
Import Json.

(** A character that [ensure_ascii] lets through as it is. *)
Definition printable (c : ascii) : bool :=
  ((32 <=? ord c) && (ord c <=? 126))%N.

(** [c in s] *)
Fixpoint occurs (c : ascii) (s : string) : bool :=
  match s with
  | EmptyString => false
  | String c' s' => Ascii.eqb c c' || occurs c s'
  end.

(** The characters of a text written with an indentation: printable
    ones and, when there is an indentation, the newline and the
    characters of one level of it. *)
Definition text_char (indent : option string) (c : ascii) : bool :=
  printable c ||
  match indent with
  | None => false
  | Some u => Ascii.eqb c newline || occurs c u
  end.

(** Every character of [s] passes [P]. *)
Fixpoint all_chars (P : ascii -> bool) (s : string) : bool :=
  match s with
  | EmptyString => true
  | String c s' => P c && all_chars P s'
  end.

End PlainText.

(** ** [SegmentSelectTab]: the channels of a loaded data frame *)

Module DataFrame.

(** The fields of the gravity data of an AT1A meter,
    [GravityTypes.AT1A] of [dgp/core/types/enumerations.py]. *)
Definition AT1A : list string :=
  ["gravity"; "long_accel"; "cross_accel"; "beam"; "temp"; "status";
   "pressure"; "Etemp"; "gps_week"; "gps_sow"].

(** [data_cols] of [SegmentSelectTab._dataframe_loaded]. *)
Definition data_cols : list string :=
  ["gravity"; "long_accel"; "cross_accel"; "beam"; "temp";
   "pressure"; "Etemp"; "gps_week"; "gps_sow"; "lat"; "long"; "ell_ht"].

Section Columns.
(** A data frame is its columns in order, each a label with a series;
    the series themselves are not looked into. *)
Context {Series : Type}.

(** The comprehension [[df[col] for col in df if keep(col)]]: the
    iteration of a frame yields its labels, and [df[col]] is the column
    of that label. *)
Definition series_where (keep : string -> bool) (df : list (string * Series))
  : list Series :=
  flat_map (fun col =>
              if keep col then
                match dict_get String.eqb df col with
                | Some series => [series]
                | None => []
                end
              else [])
           (dict_keys df).

Definition is_data_col (col : string) : bool :=
  existsb (String.eqb col) data_cols.

(** [_dataframe_loaded(self, df)] up to the emission of [sigLoaded]: the
    arguments of [set_series] and of [set_binary_series]. *)
Definition _dataframe_loaded (df : list (string * Series))
  : list Series * list Series :=
  (series_where is_data_col df,
   series_where (fun col => negb (is_data_col col)) df).
End Columns.
End DataFrame.

(* ===================================================================== *)
(** * Facts *)
(* ===================================================================== *)

(** ** The file loader *)

Module FileLoaderFacts.
Import FileLoader.

(** C1. One run of a loader emits exactly one notification: [loaded]
    with the result and no [error] when the loading function returns,
    [error] with the exception and no [loaded] when it raises. *)
Theorem run_emits_exactly_one
    {Path Result Exception : Type} (fl : FileLoader Path Result Exception) :
  length (run fl) = 1%nat /\
  match loader fl (path fl) with
  | inl result =>
      spy_loaded (run fl) = [result] /\ spy_error (run fl) = []
  | inr exception =>
      spy_error (run fl) = [exception] /\ spy_loaded (run fl) = []
  end.
Proof.
  unfold run. destruct (loader fl (path fl)); cbn; auto.
Qed.
End FileLoaderFacts.

(** ** Nodes and observers *)

Module NodeFacts.
Import Node.

Lemma get_child_uid u n c : get_child u n = Some c -> uid c = u.
Proof.
  unfold get_child. intros H. apply find_some in H as [_ H].
  by apply bool_decide_eq_true in H.
Qed.

Lemma find_update_first_eq u f cs :
  (forall c, uid (f c) = uid c) ->
  find (fun c => bool_decide (uid c = u)) (update_first u f cs)
  = f <$> find (fun c => bool_decide (uid c = u)) cs.
Proof.
  intros Hf. induction cs as [|c cs IH]; [done|]. cbn.
  destruct (bool_decide (uid c = u)) eqn:E; cbn.
  - rewrite Hf, E. done.
  - rewrite E. exact IH.
Qed.

Lemma find_update_first_ne u u' f cs :
  (forall c, uid (f c) = uid c) -> u' <> u ->
  find (fun c => bool_decide (uid c = u')) (update_first u f cs)
  = find (fun c => bool_decide (uid c = u')) cs.
Proof.
  intros Hf Hne. induction cs as [|c cs IH]; [done|]. cbn.
  destruct (bool_decide (uid c = u)) eqn:E; cbn.
  - apply bool_decide_eq_true in E. rewrite Hf.
    rewrite !bool_decide_eq_false_2 by congruence. done.
  - destruct (bool_decide (uid c = u')); [done | exact IH].
Qed.

Lemma get_child_update_child_eq u f n :
  (forall c, uid (f c) = uid c) ->
  get_child u (update_child u f n) = f <$> get_child u n.
Proof. intros. by apply find_update_first_eq. Qed.

Lemma get_child_update_child_ne u u' f n :
  (forall c, uid (f c) = uid c) -> u' <> u ->
  get_child u' (update_child u f n) = get_child u' n.
Proof. intros. by apply find_update_first_ne. Qed.

Lemma times_called_app cb t1 t2 :
  times_called cb (t1 ++ t2) = (times_called cb t1 + times_called cb t2)%nat.
Proof. unfold times_called. by rewrite filter_app, length_app. Qed.

Lemma times_called_absent cb tr : cb ∉ tr -> times_called cb tr = 0%nat.
Proof.
  unfold times_called. induction tr as [|c tr IH]; [done|].
  intros Hn. apply not_elem_of_cons in Hn as [Hne Hn].
  rewrite (filter_cons_False (fun c0 => c0 = cb)) by congruence. auto.
Qed.

Lemma notify_subset a n cb : cb ∈ notify a n -> cb ∈ registered n.
Proof.
  unfold notify, registered. intros H.
  apply list_elem_of_fmap in H as (o & -> & Ho).
  apply list_elem_of_filter in Ho as [_ Ho].
  apply list_elem_of_fmap. eauto.
Qed.

Lemma notify_register_observer l cb a n :
  notify a (register_observer l cb a n) = notify a n ++ [cb].
Proof.
  unfold notify, register_observer. cbn.
  rewrite filter_app, map_app.
  rewrite (filter_cons_True (fun o => action o = a)) by done. done.
Qed.

(** C2. A callback registered for [DELETE] on one child is invoked
    exactly once when that child is removed, and not at all when another
    child of the same node is removed. *)
Theorem delete_callback_fires_once
    (n c : Node) (u l : string) (cb : callback) :
  get_child u n = Some c ->
  cb ∉ registered c ->
  (exists n' tr,
      remove_child u (update_child u (register_observer l cb DELETE) n)
      = Some (n', tr)
      /\ times_called cb tr = 1%nat) /\
  (forall u' c',
      u' <> u -> get_child u' n = Some c' -> cb ∉ registered c' ->
      exists n' tr,
        remove_child u' (update_child u (register_observer l cb DELETE) n)
        = Some (n', tr)
        /\ times_called cb tr = 0%nat).
Proof.
  intros Hc Hcb. split.
  - unfold remove_child.
    rewrite get_child_update_child_eq by done. rewrite Hc.
    change (register_observer l cb DELETE <$> Some c)
      with (Some (register_observer l cb DELETE c)).
    eexists _, _. split; [reflexivity|].
    rewrite notify_register_observer, times_called_app.
    rewrite times_called_absent.
    + unfold times_called. by rewrite (filter_cons_True (fun c0 => c0 = cb)).
    + intros H. apply Hcb. by apply notify_subset in H.
  - intros u' c' Hne Hc' Hcb'. unfold remove_child.
    rewrite get_child_update_child_ne by done. rewrite Hc'.
    eexists _, _. split; [reflexivity|].
    apply times_called_absent. intros H. apply Hcb'. by apply notify_subset in H.
Qed.

Lemma delete_callback_fires_once_witness :
  (exists n' tr,
      remove_child "seg-1"
        (update_child "seg-1"
           (register_observer "group-1" (group_remove "seg-1") DELETE)
           Samples.dataset)
      = Some (n', tr)
      /\ times_called (group_remove "seg-1") tr = 1%nat) /\
  (forall u' c',
      u' <> "seg-1" -> get_child u' Samples.dataset = Some c' ->
      group_remove "seg-1" ∉ registered c' ->
      exists n' tr,
        remove_child u'
          (update_child "seg-1"
             (register_observer "group-1" (group_remove "seg-1") DELETE)
             Samples.dataset)
        = Some (n', tr)
        /\ times_called (group_remove "seg-1") tr = 0%nat).
Proof.
  apply (delete_callback_fires_once Samples.dataset Samples.line1).
  - reflexivity.
  - apply not_elem_of_nil.
Defined.
End NodeFacts.

(** ** The slot for a changed segment *)

Module SegmentSelectTabFacts.
Import Node SegmentSelectTab.

(** Where [get_child] finds a child: behind children of other identifiers. *)
Lemma find_split u (cs : list Node) c :
  find (fun c' => bool_decide (uid c' = u)) cs = Some c ->
  exists pre post,
    cs = pre ++ c :: post /\ uid c = u /\ Forall (fun c' => uid c' <> u) pre.
Proof.
  induction cs as [|c0 cs IH]; [done|]. cbn.
  destruct (bool_decide (uid c0 = u)) eqn:E.
  - intros [= ->]. apply bool_decide_eq_true in E.
    by exists [], cs.
  - intros H. destruct (IH H) as (pre & post & -> & Hu & Hpre).
    apply bool_decide_eq_false in E.
    exists (c0 :: pre), post. split; [done|]. split; [done|].
    by constructor.
Qed.

Lemma find_middle u (pre post : list Node) c :
  uid c = u -> Forall (fun c' => uid c' <> u) pre ->
  find (fun c' => bool_decide (uid c' = u)) (pre ++ c :: post) = Some c.
Proof.
  intros Hu Hpre. induction Hpre as [|c0 pre H0 _ IH]; cbn.
  - by rewrite bool_decide_eq_true_2.
  - by rewrite bool_decide_eq_false_2.
Qed.

Lemma update_first_middle u f (pre post : list Node) c :
  uid c = u -> Forall (fun c' => uid c' <> u) pre ->
  update_first u f (pre ++ c :: post) = pre ++ f c :: post.
Proof.
  intros Hu Hpre. induction Hpre as [|c0 pre H0 _ IH]; cbn.
  - by rewrite bool_decide_eq_true_2.
  - rewrite bool_decide_eq_false_2 by done. by rewrite IH.
Qed.

(** One guarded [set_attr] on the segment [u]: the segment gets the
    attribute when the guard holds, and its siblings stay as they are. *)
Lemma when_child_set_attr b u key v (control seg : Node) pre post tr :
  uid seg = u -> Forall (fun c' => uid c' <> u) pre ->
  exists seg' tr',
    when b (child_set_attr u key v)
         (with_children control (pre ++ seg :: post), tr)
    = (with_children control (pre ++ seg' :: post), tr')
    /\ uid seg' = u
    /\ children seg' = children seg
    /\ observers seg' = observers seg
    /\ attrs seg' = if b then <[key := v]> (attrs seg) else attrs seg.
Proof.
  intros Hu Hpre. destruct b; cbn.
  - unfold get_child. cbn. rewrite find_middle by done. cbn.
    unfold update_child. cbn. rewrite update_first_middle by done.
    eexists _, _. split; [reflexivity|]. cbn. done.
  - by exists seg, tr.
Qed.

(** C10. An [UPDATE] writes to the segment that it names those of
    [start], [stop] and [label] whose new value is true, leaves its other
    attributes as they are, and leaves every other segment untouched. *)
Theorem update_writes_truthy_fields
    (update : LineUpdate) (control seg : Node) :
  lu_action update = UPDATE ->
  get_child (lu_uid update) control = Some seg ->
  exists pre post seg' tr,
    children control = pre ++ seg :: post /\
    _slot_segment_changed update control
    = Some (with_children control (pre ++ seg' :: post), tr) /\
    uid seg' = uid seg /\
    children seg' = children seg /\
    observers seg' = observers seg /\
    attrs seg' !! "start"
    = (if truthy (start update) then Some (start update)
       else attrs seg !! "start") /\
    attrs seg' !! "stop"
    = (if truthy (stop update) then Some (stop update)
       else attrs seg !! "stop") /\
    attrs seg' !! "label"
    = (if truthy (label update) then Some (label update)
       else attrs seg !! "label") /\
    (forall key,
        key <> "start" -> key <> "stop" -> key <> "label" ->
        attrs seg' !! key = attrs seg !! key).
Proof.
  intros Ha Hc. unfold _slot_segment_changed. rewrite Ha, Hc.
  destruct (find_split _ _ _ Hc) as (pre & post & Hcs & Hu & Hpre).
  assert (with_children control (pre ++ seg :: post) = control) as Hctl.
  { destruct control. cbn in *. by subst. }
  destruct (when_child_set_attr (truthy (start update)) _ "start"
              (start update) control seg pre post [] Hu Hpre)
    as (s1 & t1 & E1 & Hu1 & Hc1 & Ho1 & Ha1).
  rewrite Hctl in E1. rewrite E1.
  destruct (when_child_set_attr (truthy (stop update)) _ "stop"
              (stop update) control s1 pre post t1 Hu1 Hpre)
    as (s2 & t2 & -> & Hu2 & Hc2 & Ho2 & Ha2).
  destruct (when_child_set_attr (truthy (label update)) _ "label"
              (label update) control s2 pre post t2 Hu2 Hpre)
    as (s3 & t3 & -> & Hu3 & Hc3 & Ho3 & Ha3).
  exists pre, post, s3, t3.
  split; [done|]. split; [done|].
  split; [congruence|]. split; [congruence|]. split; [congruence|].
  rewrite Ha3, Ha2, Ha1.
  repeat split; intros;
    destruct (truthy (start update)), (truthy (stop update)),
      (truthy (label update));
    by simplify_map_eq.
Qed.

Lemma update_writes_truthy_fields_witness :
  exists pre post seg' tr,
    children Samples.dataset = pre ++ Samples.line2 :: post /\
    _slot_segment_changed Samples.relabel Samples.dataset
    = Some (with_children Samples.dataset (pre ++ seg' :: post), tr) /\
    uid seg' = uid Samples.line2 /\
    children seg' = children Samples.line2 /\
    observers seg' = observers Samples.line2 /\
    attrs seg' !! "start"
    = (if truthy (start Samples.relabel) then Some (start Samples.relabel)
       else attrs Samples.line2 !! "start") /\
    attrs seg' !! "stop"
    = (if truthy (stop Samples.relabel) then Some (stop Samples.relabel)
       else attrs Samples.line2 !! "stop") /\
    attrs seg' !! "label"
    = (if truthy (label Samples.relabel) then Some (label Samples.relabel)
       else attrs Samples.line2 !! "label") /\
    (forall key,
        key <> "start" -> key <> "stop" -> key <> "label" ->
        attrs seg' !! key = attrs Samples.line2 !! key).
Proof.
  apply (update_writes_truthy_fields Samples.relabel Samples.dataset
           Samples.line2); reflexivity.
Defined.
End SegmentSelectTabFacts.

(** ** The workspace tab *)

Module DataSetTabFacts.
Import DataSetTab.

Lemma save_state_snoc tabs tab :
  save_state (tabs ++ [tab])
  = <[class_name tab := get_state tab]> (save_state tabs).
Proof. unfold save_state. by rewrite fold_left_app. Qed.

(** With one tab per class, the saved dictionary has each tab's state
    under the name of its class, and nothing under other names. *)
Lemma save_state_lookup tabs tab :
  NoDup (map class_name tabs) -> tab ∈ tabs ->
  save_state tabs !! class_name tab = Some (get_state tab).
Proof.
  induction tabs as [|t tabs IH] using rev_ind; intros Hnd Hin.
  - by apply elem_of_nil in Hin.
  - rewrite save_state_snoc.
    rewrite map_app in Hnd. apply NoDup_app in Hnd as (Hnd & Hdis & _).
    apply elem_of_app in Hin as [Hin | Hin].
    + rewrite lookup_insert_ne; [by apply IH|].
      intros E. apply (Hdis (class_name tab)).
      * apply list_elem_of_fmap. eauto.
      * rewrite <- E. cbn. apply list_elem_of_singleton. done.
    + apply list_elem_of_singleton in Hin as ->. apply lookup_insert_eq.
Qed.

Lemma save_state_absent tabs name :
  name ∉ map class_name tabs -> save_state tabs !! name = None.
Proof.
  induction tabs as [|t tabs IH] using rev_ind; intros Hn.
  - done.
  - rewrite save_state_snoc. rewrite map_app in Hn.
    apply not_elem_of_app in Hn as [Hn Ht].
    rewrite lookup_insert_ne; [by apply IH|].
    intros E. apply Ht. cbn. rewrite E. apply list_elem_of_singleton. done.
Qed.

(** C7. [save_state] stores what each sub-tab's [get_state] answers under
    the name of the sub-tab's class, and [_tab_loaded] hands a sub-tab the
    entry under the name of its class, an empty dictionary when there is
    none; so a sub-tab gets back what was saved for it. *)
Theorem state_round_trip (tabs : list SubTab) (tab : SubTab) :
  NoDup (map class_name tabs) ->
  tab ∈ tabs ->
  save_state tabs !! class_name tab = Some (get_state tab) /\
  _tab_loaded (save_state tabs) tab = get_state tab /\
  (forall (ws_settings : gmap string settings) (other : SubTab),
      _tab_loaded ws_settings other
      = match ws_settings !! class_name other with
        | Some state => state
        | None => SDict []
        end) /\
  (forall other : SubTab,
      class_name other ∉ map class_name tabs ->
      _tab_loaded (save_state tabs) other = SDict []).
Proof.
  intros Hnd Hin. pose proof (save_state_lookup tabs tab Hnd Hin) as E.
  split; [exact E|]. split; [|split].
  - unfold _tab_loaded. by rewrite E.
  - intros ws other. unfold _tab_loaded.
    by destruct (ws !! class_name other).
  - intros other Hn. unfold _tab_loaded.
    by rewrite save_state_absent.
Qed.

Lemma state_round_trip_witness :
  save_state (workspace Samples.channels)
    !! class_name (segment_tab Samples.channels)
  = Some (get_state (segment_tab Samples.channels)) /\
  _tab_loaded (save_state (workspace Samples.channels))
    (segment_tab Samples.channels)
  = get_state (segment_tab Samples.channels) /\
  (forall (ws_settings : gmap string settings) (other : SubTab),
      _tab_loaded ws_settings other
      = match ws_settings !! class_name other with
        | Some state => state
        | None => SDict []
        end) /\
  (forall other : SubTab,
      class_name other ∉ map class_name (workspace Samples.channels) ->
      _tab_loaded (save_state (workspace Samples.channels)) other = SDict []).
Proof.
  apply (state_round_trip (workspace Samples.channels)
           (segment_tab Samples.channels)).
  - apply (bool_decide_unpack _). vm_compute. reflexivity.
  - unfold workspace. constructor.
Defined.

(** The two tabs of a [DataSetTab] are of different classes. *)
Lemma workspace_classes state : NoDup (map class_name (workspace state)).
Proof. apply (bool_decide_unpack _). vm_compute. reflexivity. Qed.

(** C8, as the code has it. Each sub-tab emits [sigLoaded] once, but the
    workspace runs [_tab_loaded] for the segment tab only: the transform
    tab emits inside its constructor, before the workspace has connected
    the slot. *)
Theorem transform_tab_emits_before_connect :
  let w := deliver (__init__ empty_world) in
  count_event (emitted SegmentSelect) w = 1%nat /\
  count_event (emitted DataTransform) w = 1%nat /\
  count_event (tab_loaded SegmentSelect) w = 1%nat /\
  count_event (tab_loaded DataTransform) w = 0%nat /\
  connections w DataTransform = 1%nat.
Proof. vm_compute. auto. Qed.
End DataSetTabFacts.

(** ** Dictionaries *)

Section DictFacts.
Context {K V : Type} (eqb : K -> K -> bool).

Lemma dict_get_set_eq (d : list (K * V)) k v :
  eqb k k = true -> dict_get eqb (dict_set eqb d k v) k = Some v.
Proof.
  intros Hk. induction d as [|[k' v'] d IH]; cbn.
  - by rewrite Hk.
  - destruct (eqb k' k) eqn:E; cbn; rewrite E; [done | exact IH].
Qed.

(** Setting [k] does not show under a key [q] that is different from [k],
    provided the keys equal to [k] are as different from [q] as [k] is. *)
Lemma dict_get_set_ne (d : list (K * V)) k q v :
  (forall k', eqb k' k = true -> eqb k' q = false) ->
  eqb k q = false ->
  dict_get eqb (dict_set eqb d k v) q = dict_get eqb d q.
Proof.
  intros Hk Hq. induction d as [|[k' v'] d IH]; cbn.
  - by rewrite Hq.
  - destruct (eqb k' k) eqn:E; cbn.
    + by rewrite (Hk _ E).
    + by rewrite IH.
Qed.

Lemma dict_keys_set (d : list (K * V)) k v :
  dict_keys (dict_set eqb d k v)
  = if existsb (fun k' => eqb k' k) (dict_keys d)
    then dict_keys d else dict_keys d ++ [k].
Proof.
  induction d as [|[k' v'] d IH]; cbn; [done|].
  destruct (eqb k' k) eqn:E; cbn; [done|].
  unfold dict_keys in IH. rewrite IH.
  by destruct (existsb _ _).
Qed.

Lemma key_count_cons (ks : list K) k k' :
  key_count eqb (k' :: ks) k
  = ((if eqb k' k then 1 else 0) + key_count eqb ks k)%nat.
Proof.
  unfold key_count. destruct (eqb k' k) eqn:E.
  - by rewrite (filter_cons_True (fun k' => eqb k' k = true)).
  - rewrite (filter_cons_False (fun k' => eqb k' k = true)); [done|].
    by rewrite E.
Qed.

Lemma key_count_app (ks1 ks2 : list K) k :
  key_count eqb (ks1 ++ ks2) k
  = (key_count eqb ks1 k + key_count eqb ks2 k)%nat.
Proof. unfold key_count. by rewrite filter_app, length_app. Qed.

Lemma key_count_existsb (ks : list K) k :
  existsb (fun k' => eqb k' k) ks = true -> (1 <= key_count eqb ks k)%nat.
Proof.
  induction ks as [|k' ks IH]; [done|].
  rewrite key_count_cons. cbn [existsb].
  destruct (eqb k' k); cbn [orb]; [lia | auto].
Qed.

Lemma key_count_not_existsb (ks : list K) k :
  existsb (fun k' => eqb k' k) ks = false -> key_count eqb ks k = 0%nat.
Proof.
  induction ks as [|k' ks IH]; [done|].
  rewrite key_count_cons. cbn [existsb].
  destruct (eqb k' k); cbn [orb]; [done | auto].
Qed.

(** After [d[k] = v] a dictionary has the key [k] once. *)
Lemma key_count_set (d : list (K * V)) k v :
  eqb k k = true ->
  (key_count eqb (dict_keys d) k <= 1)%nat ->
  key_count eqb (dict_keys (dict_set eqb d k v)) k = 1%nat.
Proof.
  intros Hk Hd. rewrite dict_keys_set.
  destruct (existsb _ _) eqn:E.
  - apply key_count_existsb in E. lia.
  - apply key_count_not_existsb in E.
    rewrite key_count_app, E, key_count_cons, Hk. done.
Qed.
End DictFacts.

(** ** The registry of export profiles *)

Module ExportProfileFacts.
Import ExportProfile.

Lemma key_eqb_refl k : hashable k = true -> key_eqb k k = true.
Proof.
  destruct k as [| b | z | s | l | [] | i a]; cbn; try done; intros _.
  - by destruct b.
  - apply Z.eqb_refl.
  - apply String.eqb_refl.
  - apply Nat.eqb_refl.
Qed.

Lemma key_eqb_str k s : key_eqb k (PStr s) = true -> k = PStr s.
Proof.
  destruct k as [| b | z | s' | l | [] | i a]; cbn; try done.
  intros H. apply String.eqb_eq in H. by subst.
Qed.

Lemma key_eqb_str_ne s q : q <> PStr s -> key_eqb (PStr s) q = false.
Proof.
  intros Hq. destruct q as [| b | z | s' | l | [] | i a]; cbn; try done.
  apply String.eqb_neq. congruence.
Qed.

(** Registering under a string name changes the entry under that name and
    no other. *)
Lemma registry_set_str_lookup (d : list (pyval * pyval)) s v :
  dict_get key_eqb (dict_set key_eqb d (PStr s) v) (PStr s) = Some v.
Proof. apply dict_get_set_eq. cbn. apply String.eqb_refl. Qed.

Lemma registry_set_str_other (d : list (pyval * pyval)) s v q :
  q <> PStr s ->
  dict_get key_eqb (dict_set key_eqb d (PStr s) v) q = dict_get key_eqb d q.
Proof.
  intros Hq. apply dict_get_set_ne.
  - intros k' Hk'. apply key_eqb_str in Hk' as ->. by apply key_eqb_str_ne.
  - by apply key_eqb_str_ne.
Qed.

(** C4. When two profiles of the same name are registered one after the
    other, the registry has one entry under the name, the second profile,
    and [names()] yields the name once. *)
Theorem register_twice (p1 p2 n : pyval) (st : state) :
  getattr p1 "name" = Some n ->
  getattr p2 "name" = Some n ->
  hashable n = true ->
  (key_count key_eqb (names st) n <= 1)%nat ->
  exists st1 st2,
    register p1 st = (Return tt, st1) /\
    register p2 st1 = (Return tt, st2) /\
    dict_get key_eqb (__profiles st2) n = Some p2 /\
    key_count key_eqb (names st2) n = 1%nat.
Proof.
  intros H1 H2 Hn Hst. unfold register. rewrite H1, H2, Hn. cbn.
  eexists _, _. split; [reflexivity|]. split; [reflexivity|]. cbn.
  pose proof (key_eqb_refl n Hn) as Hr.
  split.
  - by apply dict_get_set_eq.
  - unfold names. cbn. apply key_count_set; [done|].
    rewrite key_count_set; [lia | done | exact Hst].
Qed.

Lemma register_twice_witness :
  exists st1 st2,
    register (instance 0 Samples.gravity) initial = (Return tt, st1) /\
    register (instance 1 Samples.gravity) st1 = (Return tt, st2) /\
    dict_get key_eqb (__profiles st2) (PStr "gravity")
    = Some (instance 1 Samples.gravity) /\
    key_count key_eqb (names st2) (PStr "gravity") = 1%nat.
Proof.
  apply (register_twice (instance 0 Samples.gravity)
           (instance 1 Samples.gravity) (PStr "gravity") initial).
  - reflexivity.
  - reflexivity.
  - reflexivity.
  - vm_compute. lia.
Defined.

(** The constructor on the attributes of a typed instance builds the same
    attributes again and registers the new instance. *)
Lemma new_instance_dict (f : fields) st :
  new [("name", PStr (name f));
       ("columns", PList (map PStr (columns f)));
       ("ext", PStr (ext f));
       ("precision", PInt (precision f));
       ("dateformat", PEnum (dateformat f));
       ("_userprofile", PBool (_userprofile f))] st
  = (Return (instance (next_oid st) f),
     {| next_oid := S (next_oid st);
        __profiles := dict_set key_eqb (__profiles st) (PStr (name f))
                        (instance (next_oid st) f) |}).
Proof.
  unfold new, __init__, register, instance. cbn.
  destruct (columns f) as [|c cs]; reflexivity.
Qed.

(** C9. [copy] of a registered profile answers with a new instance that
    has the attributes of the original, and registers it: the entry under
    the name is now the copy, the entries under other names are as they
    were. *)
Theorem copy_registers_the_copy (oid : nat) (f : fields) (st : state) :
  (oid < next_oid st)%nat ->
  dict_get key_eqb (__profiles st) (PStr (name f)) = Some (instance oid f) ->
  exists p st',
    copy (instance oid f) st = (Return p, st') /\
    p <> instance oid f /\
    (forall attr, getattr p attr = getattr (instance oid f) attr) /\
    readonly p = readonly (instance oid f) /\
    dict_get key_eqb (__profiles st') (PStr (name f)) = Some p /\
    (forall other,
        other <> PStr (name f) ->
        dict_get key_eqb (__profiles st') other
        = dict_get key_eqb (__profiles st) other).
Proof.
  intros Hoid Hreg. unfold copy. cbn [__dict__ instance].
  rewrite (new_instance_dict f st).
  eexists _, _. split; [reflexivity|]. cbn [__profiles].
  split; [|split; [|split; [|split]]].
  - unfold instance. intros [= E]. lia.
  - done.
  - done.
  - apply registry_set_str_lookup.
  - intros other Ho. by apply registry_set_str_other.
Qed.

Lemma copy_registers_the_copy_witness :
  exists p st',
    copy (instance 0 Samples.gravity) Samples.registered
    = (Return p, st') /\
    p <> instance 0 Samples.gravity /\
    (forall attr,
        getattr p attr = getattr (instance 0 Samples.gravity) attr) /\
    readonly p = readonly (instance 0 Samples.gravity) /\
    dict_get key_eqb (__profiles st') (PStr (name Samples.gravity)) = Some p /\
    (forall other,
        other <> PStr (name Samples.gravity) ->
        dict_get key_eqb (__profiles st') other
        = dict_get key_eqb (__profiles Samples.registered) other).
Proof.
  apply (copy_registers_the_copy 0 Samples.gravity Samples.registered).
  - vm_compute. lia.
  - reflexivity.
Defined.
End ExportProfileFacts.

(** ** The JSON encoder and decoder *)

Module JsonFacts.
Import Json.

(** *** Strings *)

Lemma app_cons x (a b : string) : String x a +:+ b = String x (a +:+ b).
Proof. reflexivity. Qed.

Lemma app_nil_l (a : string) : "" +:+ a = a.
Proof. reflexivity. Qed.

Lemma app_assoc (a b c : string) : (a +:+ b) +:+ c = a +:+ (b +:+ c).
Proof.
  induction a as [|x a IH]; [done|]. by rewrite !app_cons, IH.
Qed.

Lemma app_nil_r (a : string) : a +:+ "" = a.
Proof. induction a as [|x a IH]; [done|]. by rewrite app_cons, IH. Qed.

Lemma length_app (a b : string) :
  String.length (a +:+ b) = (String.length a + String.length b)%nat.
Proof.
  induction a as [|x a IH]; [done|]. rewrite app_cons. cbn. by rewrite IH.
Qed.

(** Brings a text to the form of one character after the other, as far as
    its characters are known. *)
Tactic Notation "flatten_text" :=
  repeat (rewrite app_assoc || rewrite app_cons || rewrite app_nil_l).
Tactic Notation "flatten_text" "in" hyp(H) :=
  repeat (rewrite app_assoc in H || rewrite app_cons in H
          || rewrite app_nil_l in H).

(** What the encoder writes for one character reads back as it. *)
Lemma scanstring_escape_char c r :
  scanstring (escape_char c +:+ r) = cons_char c (scanstring r).
Proof.
  destruct c as [[] [] [] [] [] [] [] []]; reflexivity.
Qed.

Lemma scanstring_escape s r :
  scanstring (escape s +:+ String dquote r) = Return (s, r).
Proof.
  induction s as [|c s IH]; cbn [escape].
  - reflexivity.
  - rewrite app_assoc, scanstring_escape_char, IH. reflexivity.
Qed.

(** A string literal reads back as the string. *)
Lemma scanstring_encode s r :
  exists t,
    encode_basestring_ascii s +:+ r = String dquote t /\
    scanstring t = Return (s, r).
Proof.
  exists (escape s +:+ String dquote r). split.
  - unfold encode_basestring_ascii. by rewrite app_cons, app_assoc.
  - apply scanstring_escape.
Qed.
(** *** Integers *)

Lemma nzhead_head d :
  match Decimal.nzhead d with Decimal.D0 _ => False | _ => True end.
Proof. induction d; cbn; auto. Qed.

(** The decimal digits of a positive number: at least one, the first not
    a zero. *)
Lemma to_uint_head p :
  match Pos.to_uint p with
  | Decimal.Nil | Decimal.D0 _ => False
  | _ => True
  end.
Proof.
  pose proof (DecimalPos.Unsigned.to_of (Pos.to_uint p)) as H.
  rewrite DecimalPos.Unsigned.of_to in H. cbn in H.
  pose proof (DecimalPos.Unsigned.to_uint_nonnil p) as Hn.
  pose proof (DecimalPos.Unsigned.to_uint_nonzero p) as Hz.
  destruct (Pos.to_uint p) as [|d| | | | | | | | |]; try done.
  unfold Decimal.unorm in H. cbn [Decimal.nzhead] in H.
  pose proof (nzhead_head d) as Hh.
  destruct (Decimal.nzhead d); try done; try discriminate.
Qed.

Lemma scan_digits_uint d r :
  starts_with_digit r = false ->
  scan_digits (NilEmpty.string_of_uint d +:+ r) = (d, r).
Proof.
  intros Hr. induction d; cbn [NilEmpty.string_of_uint];
    rewrite ?app_cons; cbn [scan_digits];
    try (change (digit _) with (Some Decimal.D0)
         || change (digit _) with (Some Decimal.D1)
         || change (digit _) with (Some Decimal.D2)
         || change (digit _) with (Some Decimal.D3)
         || change (digit _) with (Some Decimal.D4)
         || change (digit _) with (Some Decimal.D5)
         || change (digit _) with (Some Decimal.D6)
         || change (digit _) with (Some Decimal.D7)
         || change (digit _) with (Some Decimal.D8)
         || change (digit _) with (Some Decimal.D9));
    try (rewrite IHd; reflexivity).
  change ("" +:+ r) with r.
  destruct r as [|c r]; [reflexivity|]. cbn [scan_digits].
  unfold starts_with_digit, is_digit in Hr.
  by destruct (digit c).
Qed.

(** The digits of a positive number read back as the number. *)
Lemma scan_integer_pos p r :
  starts_with_digit r = false ->
  scan_integer (NilEmpty.string_of_uint (Pos.to_uint p) +:+ r)
  = Some (Pos.to_uint p, r).
Proof.
  intros Hr. pose proof (scan_digits_uint (Pos.to_uint p) r Hr) as H.
  pose proof (to_uint_head p) as Hh.
  destruct (Pos.to_uint p) as [|d|d|d|d|d|d|d|d|d|d]; try done;
    cbn [NilEmpty.string_of_uint] in *; rewrite app_cons in *;
    unfold scan_integer;
    match goal with
    | |- context [Ascii.eqb ?c "0"] =>
        change (Ascii.eqb c "0") with false;
        change (is_digit c) with true
    end; cbv iota; by rewrite H.
Qed.

Lemma of_uint_to_uint p : Z.of_uint (Pos.to_uint p) = Z.pos p.
Proof.
  unfold Z.of_uint. by rewrite DecimalPos.Unsigned.of_to.
Qed.

Lemma string_of_uint_pos p :
  NilZero.string_of_uint (Pos.to_uint p)
  = NilEmpty.string_of_uint (Pos.to_uint p).
Proof.
  pose proof (to_uint_head p). by destruct (Pos.to_uint p).
Qed.

(** The text of a positive number starts with a digit (so not with a
    minus sign). *)
Lemma string_of_uint_pos_head p :
  exists c t,
    NilEmpty.string_of_uint (Pos.to_uint p) = String c t /\
    is_digit c = true /\ Ascii.eqb c "-" = false.
Proof.
  pose proof (to_uint_head p).
  destruct (Pos.to_uint p); try done; cbn [NilEmpty.string_of_uint];
    eexists _, _; (split; [reflexivity|]); by vm_compute.
Qed.

Lemma match_number_intstr z r :
  delimited r ->
  match_number (intstr z +:+ r) = Some (Return (PInt z, r)).
Proof.
  intros (Hd & Hf & He). unfold intstr.
  destruct z as [|p|p]; cbn [Z.to_int NilZero.string_of_int].
  - change (match_number (String "0" r) = Some (Return (PInt 0, r))).
    unfold match_number.
    change (Ascii.eqb "0" "-") with false. cbv iota.
    change (scan_integer (String "0" r))
      with (Some (Decimal.D0 Decimal.Nil, r)).
    cbv iota beta. by rewrite Hf, He.
  - rewrite string_of_uint_pos.
    pose proof (scan_integer_pos p r Hd) as H.
    destruct (string_of_uint_pos_head p) as (c & t & E & _ & Hc).
    rewrite E in *. rewrite app_cons in *.
    unfold match_number. rewrite Hc, H. cbv iota beta.
    rewrite Hf, He. cbn [orb]. by rewrite of_uint_to_uint.
  - rewrite string_of_uint_pos. rewrite app_cons.
    unfold match_number. change (Ascii.eqb "-" "-") with true.
    cbv iota beta. rewrite (scan_integer_pos p r Hd). cbv iota beta.
    rewrite Hf, He. cbn [orb]. by rewrite of_uint_to_uint.
Qed.

(** The text of an integer starts with a digit or a minus sign. *)
Lemma intstr_head z :
  exists c t,
    intstr z = String c t /\ (is_digit c || Ascii.eqb c "-") = true.
Proof.
  unfold intstr.
  destruct z as [|p|p]; cbn [Z.to_int NilZero.string_of_int].
  - by exists "0"%char, "".
  - rewrite string_of_uint_pos.
    destruct (string_of_uint_pos_head p) as (c & t & E & Hc & _).
    exists c, t. by rewrite Hc.
  - eexists _, _. split; [reflexivity|]. done.
Qed.

(** *** White space and the first character of a value *)

Lemma skip_ws_head c t : is_ws c = false -> skip_ws (String c t) = String c t.
Proof. intros H. cbn [skip_ws]. by rewrite H. Qed.

Lemma skip_ws_spaces n s : skip_ws (spaces n +:+ s) = skip_ws s.
Proof. induction n as [|n IH]; [done|]. cbn [spaces]. by rewrite app_cons. Qed.

Lemma skip_ws_blank u s : blank u = true -> skip_ws (u +:+ s) = skip_ws s.
Proof.
  induction u as [|c u IH]; [by rewrite app_nil_l|]. cbn [blank].
  intros [Hc Hu]%andb_true_iff. rewrite app_cons. cbn [skip_ws].
  rewrite Hc. auto.
Qed.

Lemma skip_ws_repeat_string u n s :
  blank u = true -> skip_ws (repeat_string u n +:+ s) = skip_ws s.
Proof.
  intros Hu. induction n as [|n IH]; [by rewrite app_nil_l|].
  cbn [repeat_string]. rewrite app_assoc, skip_ws_blank by done. exact IH.
Qed.

Lemma blank_spaces n : blank (spaces n) = true.
Proof. induction n as [|n IH]; [done|]. exact IH. Qed.

Lemma skip_ws_newline_indent indent level s :
  blank_unit indent = true ->
  skip_ws (newline_indent indent level +:+ s) = skip_ws s.
Proof.
  destruct indent as [u|]; [|done]. unfold newline_indent, blank_unit.
  intros Hu. rewrite app_cons. cbn [skip_ws].
  change (is_ws newline) with true. cbv iota.
  by apply skip_ws_repeat_string.
Qed.

(** A blank [indent] argument becomes a blank indentation. *)
Lemma indent_string_blank indent :
  blank_indent indent = true ->
  exists u, indent_string indent = Return u /\ blank_unit u = true.
Proof.
  destruct indent as [| b | z | s | l | e | i a]; cbn; try done; intros H.
  - by exists None.
  - eexists. split; [reflexivity|]. apply blank_spaces.
  - eexists. split; [reflexivity|]. apply blank_spaces.
  - by exists (Some s).
Qed.

Lemma digit_or_minus_head c :
  (is_digit c || Ascii.eqb c "-") = true ->
  is_ws c = false /\ Ascii.eqb c "]" = false /\
  Ascii.eqb c dquote = false /\ Ascii.eqb c "{" = false /\
  Ascii.eqb c "[" = false /\
  Ascii.eqb "n" c = false /\ Ascii.eqb "t" c = false /\
  Ascii.eqb "f" c = false.
Proof.
  destruct c as [[] [] [] [] [] [] [] []]; vm_compute; intros H;
    try discriminate H; repeat split.
Qed.

(** *** Scalars *)

Lemma obind_Return {A B} (m : outcome A) (k : A -> outcome B) b :
  obind m k = Return b -> exists a, m = Return a /\ k a = Return b.
Proof. destruct m; cbn; [eauto | done | done]. Qed.

Lemma encode_scalar_starts_value v t :
  encode_scalar v = Some t -> starts_value t.
Proof.
  destruct v as [| [] | z | s | l | e | i a]; cbn; intros [= <-];
    try (by eexists _, _).
  destruct (intstr_head z) as (c & t & -> & Hc).
    apply digit_or_minus_head in Hc as (? & ? & _).
    by exists c, t.
Qed.

Section Scan.
Context {St : Type} (hook : pydict -> St -> outcome pyval * St).
Context (indent : option string) (default : pyval -> pyval).
Hypothesis indent_blank : blank_unit indent = true.

Lemma scan_once_S f s (st : St) :
  scan_once hook (S f) s st
  = scan_value (JSONObject_with hook (object_loop hook f))
      (JSONArray_with (array_loop hook f)) s st.
Proof. reflexivity. Qed.

Lemma array_loop_S f s (st : St) :
  array_loop hook (S f) s st
  = JSONArray_step (scan_once hook f) (array_loop hook f) s st.
Proof. reflexivity. Qed.

Lemma object_loop_S f s pairs (st : St) :
  object_loop hook (S f) s pairs st
  = JSONObject_step hook (scan_once hook f) (object_loop hook f) s pairs st.
Proof. reflexivity. Qed.

Lemma scan_value_scalar po pa v t r (st : St) :
  encode_scalar v = Some t ->
  delimited r ->
  scan_value po pa (t +:+ r) st = (Return (v, r), st).
Proof.
  intros Ht Hr.
  destruct v as [| [] | z | s | l | e | i a]; cbn in Ht;
    try discriminate Ht; injection Ht as <-; try reflexivity.
  - destruct (intstr_head z) as (c & t & E & Hc).
    pose proof (match_number_intstr z r Hr) as Hm.
    rewrite E in *. rewrite app_cons in *.
    apply digit_or_minus_head in Hc
      as (_ & _ & Hq & Hb & Hk & Hn & Ht & Hf).
    unfold scan_value. rewrite Hq, Hb, Hk.
    cbn [strip_prefix]. rewrite Hn, Ht, Hf. by rewrite Hm.
  - destruct (scanstring_encode s r) as (t & -> & Ht).
    unfold scan_value. change (Ascii.eqb dquote dquote) with true.
    cbv iota. by rewrite Ht.
Qed.

(** *** Lists *)

Lemma skip_ws_value t s : starts_value t -> skip_ws (t +:+ s) = t +:+ s.
Proof.
  intros (c & t' & -> & Hc & _). rewrite app_cons. by apply skip_ws_head.
Qed.

Lemma encode_scalar_Return v t :
  match encode_scalar v with
  | Some s => Return s
  | None => @OutOfModel string
  end = Return t ->
  encode_scalar v = Some t.
Proof. destruct (encode_scalar v); [|done]. by intros [= <-]. Qed.

Lemma iterencode_starts_value level v t :
  iterencode indent default level v = Return t -> starts_value t.
Proof.
  destruct v as [| b | z | s | [|x l] | e | i a]; cbn [iterencode].
  - intros [= <-]. by eexists _, _.
  - intros H. by apply encode_scalar_Return, encode_scalar_starts_value in H.
  - intros H. by apply encode_scalar_Return, encode_scalar_starts_value in H.
  - intros H. by apply encode_scalar_Return, encode_scalar_starts_value in H.
  - intros [= <-]. by eexists _, _.
  - intros H. apply obind_Return in H as (b & _ & H).
    apply obind_Return in H as (r & _ & [= <-]).
    by eexists _, _.
  - intros H. by apply encode_scalar_Return, encode_scalar_starts_value in H.
  - intros H. by apply encode_scalar_Return, encode_scalar_starts_value in H.
Qed.

Lemma delimited_nil : delimited "".
Proof. by repeat split. Qed.

Lemma delimited_comma r : delimited (String "," r).
Proof. by repeat split. Qed.

Lemma delimited_newline r : delimited (String newline r).
Proof. by repeat split. Qed.

Lemma delimited_bracket r : delimited (String "]" r).
Proof. by repeat split. Qed.

Lemma delimited_brace r : delimited (String "}" r).
Proof. by repeat split. Qed.

Lemma delimited_newline_indent level c r :
  delimited (String c r) ->
  delimited (newline_indent indent level +:+ String c r).
Proof.
  destruct indent; [|done]. intros _. unfold newline_indent.
  rewrite app_cons. apply delimited_newline.
Qed.

(** The separator of items is a comma and then white space only. *)
Lemma item_separator_comma :
  exists w,
    item_separator indent = String "," w /\
    forall s, skip_ws (w +:+ s) = skip_ws s.
Proof.
  unfold item_separator. destruct indent.
  - by exists "".
  - by exists " ".
Qed.

(** The statement for one value: its text, followed by something that
    does not continue a number, reads back as the decoded value, and the
    fuel of a call is enough when it exceeds the length of the text. *)
Local Abbreviation reads_back v :=
  (forall level t f r (st : St),
      iterencode indent default level v = Return t ->
      (String.length t < f)%nat ->
      delimited r ->
      scan_once hook f (t +:+ r) st = (Return (decoded default v, r), st)).

Lemma array_loop_items level l :
  Forall (fun v => reads_back v) l ->
  forall x bt rt f r (st : St),
    reads_back x ->
    iterencode indent default (S level) x = Return bt ->
    iterencode_rest (iterencode indent default (S level))
      (item_separator indent +:+ newline_indent indent (S level)) l
    = Return rt ->
    (String.length bt + String.length rt + 1 < f)%nat ->
    array_loop hook f
      (bt +:+ rt +:+ newline_indent indent level +:+ String "]" r) st
    = (Return (decoded default x :: map (decoded default) l, r), st).
Proof.
  induction 1 as [|y l Hy Hl IH]; intros x bt rt f r st Hx Hbt Hrt Hf.
  - injection Hrt as <-. destruct f as [|f]; [lia|].
    rewrite array_loop_S. unfold JSONArray_step.
    rewrite app_nil_l.
    rewrite (Hx _ _ f _ st Hbt);
      [| lia | apply delimited_newline_indent, delimited_bracket].
    rewrite skip_ws_newline_indent, skip_ws_head by done.
    reflexivity.
  - cbn [iterencode_rest] in Hrt.
    apply obind_Return in Hrt as (c & Hc & Hrt).
    apply obind_Return in Hrt as (rt' & Hrt' & [= <-]).
    destruct f as [|f]; [lia|].
    rewrite array_loop_S. unfold JSONArray_step.
    destruct item_separator_comma as (w & Ew & Hw).
    rewrite Ew in *. flatten_text.
    rewrite (Hx _ _ f _ st Hbt); [| lia | apply delimited_comma].
    rewrite skip_ws_head by done.
    change (Ascii.eqb "," "]") with false.
    change (Ascii.eqb "," ",") with true. cbv iota.
    rewrite Hw, skip_ws_newline_indent by done.
    rewrite skip_ws_value by (by eapply iterencode_starts_value).
    rewrite (IH y c rt' f r st Hy Hc Hrt').
    + reflexivity.
    + rewrite !length_app in Hf. cbn in Hf. lia.
Qed.

Lemma scan_once_scalar v t f r (st : St) :
  encode_scalar v = Some t ->
  (String.length t < f)%nat ->
  delimited r ->
  scan_once hook f (t +:+ r) st = (Return (v, r), st).
Proof.
  intros Ht Hf Hr. destruct f as [|f]; [lia|].
  rewrite scan_once_S. by apply scan_value_scalar.
Qed.

(** The text of a value reads back as the decoded value. *)
Lemma scan_once_iterencode v : reads_back v.
Proof.
  induction v as [| b | z | s | l IH | e | i a] using pyval_ind;
    intros level t f r st Ht Hf Hr; cbn [iterencode] in Ht.
  - apply encode_scalar_Return in Ht. by apply scan_once_scalar.
  - apply encode_scalar_Return in Ht. by apply scan_once_scalar.
  - apply encode_scalar_Return in Ht. by apply scan_once_scalar.
  - apply encode_scalar_Return in Ht. by apply scan_once_scalar.
  - destruct f as [|f]; [lia|]. rewrite scan_once_S.
    destruct l as [|x l].
    + injection Ht as <-. reflexivity.
    + apply obind_Return in Ht as (bt & Hbt & Ht).
      apply obind_Return in Ht as (rt & Hrt & [= <-]).
      apply Forall_cons in IH as [Hx Hl].
      flatten_text.
      unfold scan_value.
      change (Ascii.eqb "[" dquote) with false.
      change (Ascii.eqb "[" "{") with false.
      change (Ascii.eqb "[" "[") with true. cbv iota.
      unfold JSONArray_with.
      rewrite skip_ws_newline_indent by done.
      pose proof (iterencode_starts_value _ _ _ Hbt) as Hsv.
      rewrite skip_ws_value by done.
      destruct Hsv as (c & bt' & E & _ & Hc).
      rewrite E at 1. rewrite app_cons, Hc.
      rewrite (array_loop_items level l Hl x bt rt f r st Hx Hbt Hrt).
      * reflexivity.
      * rewrite !length_app in Hf. cbn in Hf. lia.
  - apply encode_scalar_Return in Ht. by apply scan_once_scalar.
  - apply encode_scalar_Return in Ht. by apply scan_once_scalar.
Qed.

(** *** Dictionaries *)

Lemma skip_ws_space s : skip_ws (String " " s) = skip_ws s.
Proof. reflexivity. Qed.

Lemma object_loop_items level (d : pydict) :
  forall k v ct rt pairs f r (st : St),
    iterencode indent default (S level) v = Return ct ->
    iterencode_items indent default (S level) d = Return rt ->
    (String.length ct + String.length rt + 1 < f)%nat ->
    object_loop hook f
      (escape k +:+
       String dquote (key_separator +:+ ct +:+ rt
                        +:+ newline_indent indent level +:+ String "}" r))
      pairs st
    = match hook (dict_of_pairs String.eqb
                    (rev pairs ++
                     (k, decoded default v) :: decoded_items default d)) st
      with
      | (Return o, st') => (Return (o, r), st')
      | (Raise e, st') => (Raise e, st')
      | (OutOfModel, st') => (OutOfModel, st')
      end.
Proof.
  induction d as [|[k2 v2] d IH]; intros k v ct rt pairs f r st Hct Hrt Hf;
    cbn [iterencode_items] in Hrt.
  - injection Hrt as <-. destruct f as [|f]; [lia|].
    rewrite object_loop_S. unfold JSONObject_step.
    rewrite scanstring_escape. unfold key_separator.
    flatten_text.
    rewrite skip_ws_head by done.
    change (Ascii.eqb ":" ":") with true. cbv iota.
    rewrite skip_ws_space.
    rewrite skip_ws_value by (by eapply iterencode_starts_value).
    rewrite (scan_once_iterencode v _ _ f _ st Hct);
      [| lia | apply delimited_newline_indent, delimited_brace].
    rewrite skip_ws_newline_indent, skip_ws_head by done.
    change (Ascii.eqb "}" "}") with true. cbv iota.
    cbn [rev]. reflexivity.
  - apply obind_Return in Hrt as (c2 & Hc2 & Hrt).
    apply obind_Return in Hrt as (rt' & Hrt' & [= <-]).
    destruct f as [|f]; [lia|].
    rewrite object_loop_S. unfold JSONObject_step.
    rewrite scanstring_escape. unfold key_separator.
    destruct item_separator_comma as (w & Ew & Hw).
    rewrite Ew in *. unfold encode_basestring_ascii in *.
    flatten_text.
    rewrite skip_ws_head by done.
    change (Ascii.eqb ":" ":") with true. cbv iota.
    rewrite skip_ws_space.
    rewrite skip_ws_value by (by eapply iterencode_starts_value).
    rewrite (scan_once_iterencode v _ _ f _ st Hct);
      [| lia | apply delimited_comma].
    rewrite skip_ws_head by done.
    change (Ascii.eqb "," "}") with false.
    change (Ascii.eqb "," ",") with true. cbv iota.
    rewrite Hw, skip_ws_newline_indent, skip_ws_head by done.
    change (Ascii.eqb dquote dquote) with true. cbv iota.
    assert (String.length c2 + String.length rt' + 1 < f)%nat as Hf'.
    { rewrite !length_app in Hf. cbn in Hf. lia. }
    pose proof (IH k2 v2 c2 rt' ((k, decoded default v) :: pairs) f r st
                  Hc2 Hrt' Hf') as HI.
    unfold key_separator in HI.
    flatten_text in HI.
    rewrite HI.
    cbn [rev decoded_items map fst snd]. by rewrite <- List.app_assoc.
Qed.

(** [loads] after [encode] with a blank indentation: the hook is called
    once, on the dictionary with every value decoded, and what the hook
    answers is what [loads] answers. *)
Theorem loads_dumps (d : pydict) text (st : St) :
  encode indent default d = Return text ->
  loads hook text st
  = hook (dict_of_pairs String.eqb (decoded_items default d)) st.
Proof.
  unfold encode, iterencode_dict. destruct d as [|[k v] d].
  - intros [= <-]. unfold loads.
    rewrite skip_ws_head by done. rewrite scan_once_S.
    change (scan_value
              (JSONObject_with hook
                 (object_loop hook (S (2 * String.length "{}"))))
              (JSONArray_with (array_loop hook (S (2 * String.length "{}"))))
              "{}" st)
      with (match hook [] st with
            | (Return v, st') => (Return (v, ""), st')
            | (Raise e, st') => (Raise e, st')
            | (OutOfModel, st') => (OutOfModel, st')
            end).
    change (dict_of_pairs String.eqb (decoded_items default [])) with
      (@nil (string * pyval)).
    by destruct (hook [] st) as [[o|e|] st'].
  - intros H. apply obind_Return in H as (ct & Hct & H).
    apply obind_Return in H as (rt & Hrt & [= <-]).
    unfold loads.
    set (n := S (2 * String.length _)).
    assert (String.length ct + String.length rt + 1 < n)%nat as Hn.
    { subst n. rewrite !length_app. cbn. lia. }
    clearbody n. unfold encode_basestring_ascii.
    flatten_text.
    rewrite skip_ws_head by done. rewrite scan_once_S.
    unfold scan_value.
    change (Ascii.eqb "{" dquote) with false.
    change (Ascii.eqb "{" "{") with true. cbv iota.
    unfold JSONObject_with.
    rewrite skip_ws_newline_indent, skip_ws_head by done.
    change (Ascii.eqb dquote "}") with false.
    change (Ascii.eqb dquote dquote) with true. cbv iota.
    pose proof (object_loop_items 0 d k v ct rt [] n "" st Hct Hrt Hn) as HI.
    flatten_text in HI.
    rewrite HI. cbn [rev app].
    change ((k, decoded default v) :: decoded_items default d)
      with (decoded_items default ((k, v) :: d)).
    by destruct (hook _ st) as [[o|e|] st'].
Qed.
End Scan.
End JsonFacts.

(** ** Documents of JSON values *)

Module JsonDocuments.
Import Json JsonFacts.

Lemma decoded_native default v :
  json_native v = true -> decoded default v = v.
Proof.
  induction v as [| b | z | s | l IH | e | i a] using pyval_ind;
    cbn [json_native decoded]; try done.
  intros Hl. f_equal. induction IH as [|x l Hx _ IHl]; [done|].
  cbn [forallb] in Hl. apply andb_true_iff in Hl as [H1 H2].
  cbn [map]. by rewrite Hx, IHl.
Qed.

Lemma decoded_items_native default (d : pydict) :
  Forall (fun kv => json_native (snd kv) = true) d ->
  decoded_items default d = d.
Proof.
  induction 1 as [|[k v] d Hv _ IH]; [done|].
  cbn [decoded_items map fst snd] in *.
  unfold decoded_items in IH. by rewrite IH, decoded_native.
Qed.

(** The encoder writes every value of the JSON types. *)
Lemma iterencode_native indent default v :
  json_native v = true ->
  forall level, exists t, iterencode indent default level v = Return t.
Proof.
  induction v as [| b | z | s | l IH | e | i a] using pyval_ind;
    cbn [json_native]; try done; intros Hn level;
    try (by eexists).
  - destruct b; by eexists.
  - destruct l as [|x l]; [by eexists|].
    apply Forall_cons in IH as [Hx Hl].
    cbn [forallb] in Hn. apply andb_true_iff in Hn as [Hnx Hnl].
    cbn [iterencode].
    destruct (Hx Hnx (S level)) as [bt ->]. cbn [obind].
    assert (exists rt,
               iterencode_rest (iterencode indent default (S level))
                 (item_separator indent +:+ newline_indent indent (S level)) l
               = Return rt) as [rt ->].
    { clear Hx Hnx bt. induction Hl as [|y l Hy _ IHl]; [by eexists|].
      cbn [forallb] in Hnl. apply andb_true_iff in Hnl as [Hny Hnl].
      cbn [iterencode_rest].
      destruct (Hy Hny (S level)) as [c ->].
      destruct (IHl Hnl) as [rt ->]. by eexists. }
    by eexists.
Qed.

Lemma iterencode_items_native indent default level (d : pydict) :
  Forall (fun kv => json_native (snd kv) = true) d ->
  exists t, iterencode_items indent default level d = Return t.
Proof.
  induction 1 as [|[k v] d Hv _ IH]; [by eexists|].
  cbn [iterencode_items].
  destruct (iterencode_native indent default v Hv level) as [c ->].
  destruct IH as [rt ->]. by eexists.
Qed.

Lemma dumps_native indent default (d : pydict) :
  Forall (fun kv => json_native (snd kv) = true) d ->
  exists text, encode indent default d = Return text.
Proof.
  intros Hd. unfold encode, iterencode_dict.
  destruct Hd as [|[k v] d Hv Hd]; [by eexists|].
  destruct (iterencode_native indent default v Hv 1) as [c ->].
  destruct (iterencode_items_native indent default 1 d Hd) as [rt ->].
  by eexists.
Qed.

(** [dict(pairs)] of pairs with different keys is the pairs. *)
Lemma dict_get_absent (d : pydict) k :
  k ∉ map fst d -> dict_get String.eqb d k = None.
Proof.
  induction d as [|[k' v] d IH]; [done|]. cbn [map fst dict_get].
  intros Hk. apply not_elem_of_cons in Hk as [Hne Hk].
  rewrite (proj2 (String.eqb_neq k' k)) by congruence. auto.
Qed.

Lemma dict_set_fresh (d : pydict) k v :
  k ∉ map fst d -> dict_set String.eqb d k v = d ++ [(k, v)].
Proof.
  induction d as [|[k' v'] d IH]; [done|]. cbn [map fst dict_set].
  intros Hk. apply not_elem_of_cons in Hk as [Hne Hk].
  rewrite (proj2 (String.eqb_neq k' k)) by congruence.
  cbn. by rewrite IH.
Qed.

Lemma dict_of_pairs_NoDup (d : pydict) :
  NoDup (map fst d) -> dict_of_pairs String.eqb d = d.
Proof.
  unfold dict_of_pairs. intros Hd.
  enough (forall acc : pydict,
             (forall k, k ∈ map fst d -> k ∉ map fst acc) ->
             fold_left (fun d kv => dict_set String.eqb d (fst kv) (snd kv))
               d acc = acc ++ d) as H.
  { apply (H []). intros k _. apply not_elem_of_nil. }
  induction d as [|[k v] d IH]; intros acc Hacc.
  - by rewrite List.app_nil_r.
  - cbn [fold_left fst snd]. cbn [map fst] in Hd, Hacc.
    apply NoDup_cons in Hd as [Hk Hd].
    rewrite dict_set_fresh by (apply Hacc; left).
    rewrite IH; [by rewrite <- List.app_assoc | done |].
    intros k' Hk'. rewrite map_app. cbn [map fst].
    apply not_elem_of_app. split.
    + apply Hacc. by right.
    + intros H1. apply list_elem_of_singleton in H1 as ->. done.
Qed.
End JsonDocuments.

(** ** Profiles as JSON *)

Module ExportProfileJson.
Import Json JsonFacts JsonDocuments ExportProfile.

Lemma attribute_is_parameter k : k ∈ attributes -> is_parameter k = true.
Proof.
  unfold attributes. rewrite !elem_of_cons, elem_of_nil.
  intros [->|[->|[->|[->|[->|[->|[]]]]]]]; reflexivity.
Qed.

Lemma document_has_no_register (d : pydict) :
  Forall (fun kv => fst kv ∈ attributes) d ->
  dict_get String.eqb d "register" = None.
Proof.
  intros Hd. apply dict_get_absent. intros Hr.
  apply list_elem_of_fmap in Hr as ([k v] & Ek & Hkv). cbn in Ek. subst k.
  rewrite Forall_forall in Hd. specialize (Hd _ Hkv). cbn in Hd.
  unfold attributes in Hd. rewrite !elem_of_cons, elem_of_nil in Hd.
  by destruct Hd as [|[|[|[|[|[|[]]]]]]].
Qed.

(** The constructor on a profile document: it answers with a new
    instance, the absent attributes at their defaults, and registers the
    instance under its name. *)
Lemma new_document (d : pydict) (n : string) (st : state) :
  profile_document d n ->
  let columns := arg d "columns" PNone in
  let p :=
    PObj (next_oid st)
      [("name", PStr n);
       ("columns", if truthy columns then columns else PList []);
       ("ext", arg d "ext" (PStr "dat"));
       ("precision", arg d "precision" (PInt 10));
       ("dateformat", PEnum ISO8601);
       ("_userprofile", arg d "_userprofile" (PBool true))] in
  new d st
  = (Return p,
     {| next_oid := S (next_oid st);
        __profiles := dict_set key_eqb (__profiles st) (PStr n) p |}).
Proof.
  intros (Hnd & Hd & Hname & Hdate). cbv zeta. unfold new.
  assert (forallb (fun kv : string * pyval => is_parameter (fst kv)) d = true)
    as ->.
  { apply forallb_forall. intros kv Hkv. apply attribute_is_parameter.
    rewrite Forall_forall in Hd. apply Hd. by apply list_elem_of_In. }
  rewrite Hname. unfold __init__.
  assert (arg d "register" (PBool true) = PBool true) as ->.
  { unfold arg. rewrite document_has_no_register; [done|].
    eapply Forall_impl; [exact Hd|]. by intros kv [? _]. }
  assert (arg d "dateformat" (PEnum ISO8601) = PEnum ISO8601 \/
          arg d "dateformat" (PEnum ISO8601)
          = PStr (TimeFormat_value ISO8601)) as [-> | ->].
  { unfold arg. destruct (dict_get String.eqb d "dateformat") as [v|] eqn:E.
    - right. by rewrite (Hdate v eq_refl).
    - by left. }
  - reflexivity.
  - reflexivity.
Qed.

(** A document with a [register] key is no profile document, and the
    constructor obeys the key: the instance stays out of the registry. *)
Example register_key_suppresses :
  from_json (quoted "{'name': 'gravity', 'register': false}") initial
  = (Return (PObj 0 [("name", PStr "gravity"); ("columns", PList []);
                     ("ext", PStr "dat"); ("precision", PInt 10);
                     ("dateformat", PEnum ISO8601);
                     ("_userprofile", PBool true)]),
     {| next_oid := 1; __profiles := [] |}).
Proof. vm_compute. reflexivity. Qed.

(** The document of a typed profile is a profile document. *)
Lemma document_of_profile_document (f : fields) :
  profile_document (document_of f) (name f).
Proof.
  split; [|split; [|split]].
  - apply (bool_decide_unpack _). vm_compute. reflexivity.
  - unfold document_of, attributes.
    repeat (apply Forall_cons; split;
            [split; [set_solver | try reflexivity]|]).
    + cbn [snd json_native]. induction (columns f); [done|]. done.
    + apply Forall_nil_2.
  - reflexivity.
  - intros v [= <-]. by destruct (dateformat f).
Qed.

(** The attributes of a typed instance are written as its document. *)
Lemma dumps_instance indent oid (f : fields) :
  to_json (instance oid f) indent = dumps indent _encode (document_of f).
Proof. reflexivity. Qed.

(** C3. The text that [to_json] writes for a profile reads back with
    [from_json] as a profile of the same name, columns, extension,
    precision, date format and read-only flag. This is so without an
    [indent], which is how [to_json] is called by default, and with
    every [indent] that is a number or a blank string. *)
Theorem to_json_from_json
    (oid : nat) (f : fields) (indent : pyval) (st : state) :
  blank_indent indent = true ->
  exists text p st',
    to_json (instance oid f) indent = Return text /\
    from_json text st = (Return p, st') /\
    p = instance (next_oid st) f /\
    getattr p "name" = getattr (instance oid f) "name" /\
    getattr p "columns" = getattr (instance oid f) "columns" /\
    getattr p "ext" = getattr (instance oid f) "ext" /\
    getattr p "precision" = getattr (instance oid f) "precision" /\
    getattr p "dateformat" = getattr (instance oid f) "dateformat" /\
    readonly p = readonly (instance oid f).
Proof.
  intros Hblank.
  destruct (indent_string_blank indent Hblank) as (u & Hu & Hbu).
  pose proof (document_of_profile_document f) as Hdoc.
  destruct (dumps_native u _encode (document_of f)) as [text Htext].
  { destruct Hdoc as (_ & Hd & _).
    eapply Forall_impl; [exact Hd|]. by intros kv [_ ?]. }
  exists text, (instance (next_oid st) f),
    {| next_oid := S (next_oid st);
       __profiles := dict_set key_eqb (__profiles st) (PStr (name f))
                       (instance (next_oid st) f) |}.
  split; [by rewrite dumps_instance; unfold dumps; rewrite Hu|].
  split; [|by repeat split].
  unfold from_json.
  rewrite (loads_dumps _decode u _encode Hbu _ text st Htext).
  destruct Hdoc as (Hnd & Hd & Hrest).
  rewrite decoded_items_native
    by (eapply Forall_impl; [exact Hd|]; by intros kv [_ ?]).
  rewrite dict_of_pairs_NoDup by done.
  unfold _decode. rewrite (new_document _ (name f) st) by done.
  unfold instance, document_of, arg. cbn [dict_get String.eqb].
  cbn. destruct (dateformat f), (columns f); reflexivity.
Qed.

Lemma to_json_from_json_witness :
  exists text p st',
    to_json (instance 0 Samples.gravity) PNone = Return text /\
    from_json text Samples.registered = (Return p, st') /\
    p = instance (next_oid Samples.registered) Samples.gravity /\
    getattr p "name" = getattr (instance 0 Samples.gravity) "name" /\
    getattr p "columns" = getattr (instance 0 Samples.gravity) "columns" /\
    getattr p "ext" = getattr (instance 0 Samples.gravity) "ext" /\
    getattr p "precision" = getattr (instance 0 Samples.gravity) "precision" /\
    getattr p "dateformat"
    = getattr (instance 0 Samples.gravity) "dateformat" /\
    readonly p = readonly (instance 0 Samples.gravity).
Proof.
  apply (to_json_from_json 0 Samples.gravity PNone Samples.registered).
  reflexivity.
Defined.
End ExportProfileJson.

(** ** What the decoder and the constructor raise *)

Module Failures.
Import Json JsonFacts ExportProfile.

Lemma cons_char_Raise c r e : cons_char c r = Raise e -> r = Raise e.
Proof. by destruct r as [[]| |]. Qed.

(** [scanstring] raises nothing but the decode error. *)
Lemma scanstring_Raise s e : scanstring s = Raise e -> e = JSONDecodeError.
Proof.
  remember (String.length s) as n eqn:Hn.
  revert s Hn. induction n as [n IH] using lt_wf_ind. intros s Hn.
  destruct s as [|c r]; cbn [scanstring]; [by intros [= <-]|].
  cbn [String.length] in Hn.
  repeat case_match; try (by intros [= <-]); try done;
    intros HR%cons_char_Raise;
    (eapply IH; [| reflexivity | exact HR]); subst; cbn [String.length]; lia.
Qed.

Lemma match_number_Raise s e : match_number s <> Some (Raise e).
Proof. unfold match_number. by repeat case_match. Qed.

Section Origin.
Context {St : Type} (hook : pydict -> St -> outcome pyval * St).

(** Where an exception of the decoder comes from: it is the decode
    error, or the hook has raised it. *)
Local Abbreviation origin e :=
  (e = JSONDecodeError \/ exists d (st0 : St), fst (hook d st0) = Raise e).

Lemma raise_origin f :
  (forall s (st : St) e, fst (scan_once hook f s st) = Raise e -> origin e) /\
  (forall s (st : St) e, fst (array_loop hook f s st) = Raise e -> origin e) /\
  (forall s pairs (st : St) e,
      fst (object_loop hook f s pairs st) = Raise e -> origin e).
Proof.
  induction f as [|f (IHs & IHa & IHo)]; [by repeat split|].
  assert (forall s st e st', scan_once hook f s st = (Raise e, st') ->
                             origin e) as IHs'.
  { intros s st e st' H. apply (IHs s st e). by rewrite H. }
  assert (forall s st e st', array_loop hook f s st = (Raise e, st') ->
                             origin e) as IHa'.
  { intros s st e st' H. apply (IHa s st e). by rewrite H. }
  assert (forall s pairs st e st',
             object_loop hook f s pairs st = (Raise e, st') -> origin e)
    as IHo'.
  { intros s pairs st e st' H. apply (IHo s pairs st e). by rewrite H. }
  assert (forall d st e st', hook d st = (Raise e, st') -> origin e) as Hh.
  { intros d st e st' H. right. exists d, st. by rewrite H. }
  assert (forall s e, scanstring s = Raise e -> origin e) as Hs.
  { intros s e H. left. by apply scanstring_Raise in H. }
  split; [|split].
  - intros s st e. rewrite scan_once_S.
    unfold scan_value, JSONObject_with, JSONArray_with.
    repeat case_match; cbn [fst]; intros HR; simplify_eq; eauto;
      try (by left);
      try (by match goal with
              | H : match_number _ = Some (Raise _) |- _ =>
                  apply match_number_Raise in H
              end).
    all: match goal with
         | H : olift _ (scanstring ?r) = Raise _ |- _ =>
             destruct (scanstring r) as [[]| |] eqn:E; cbn in H;
             simplify_eq; left; by eapply scanstring_Raise
         end.
  - intros s st e. rewrite array_loop_S. unfold JSONArray_step.
    repeat case_match; cbn [fst]; intros HR; simplify_eq; eauto;
      try (by left).
  - intros s pairs st e. rewrite object_loop_S. unfold JSONObject_step.
    repeat case_match; cbn [fst]; intros HR; simplify_eq; eauto;
      try (by left).
Qed.

(** [loads] raises the decode error or what the hook has raised. *)
Lemma loads_Raise text (st : St) e :
  fst (loads hook text st) = Raise e -> origin e.
Proof.
  unfold loads.
  destruct (scan_once hook _ _ st) as [[[obj r]|e'|] st'] eqn:E; cbn [fst].
  - case_match; cbn [fst]; [done|]. intros [= <-]. by left.
  - intros [= <-].
    apply (proj1 (raise_origin (S (S (2 * String.length text))))
             (skip_ws text) st e').
    by rewrite E.
  - done.
Qed.
End Origin.

(** What a call of the constructor does: it returns, or it raises
    [TypeError] (a keyword that is no parameter, no [name], a [name] that
    cannot be hashed), or it raises [ValueError] (a [dateformat] string
    that is no value of a [TimeFormat] member). *)
Lemma new_outcome (kwargs : pydict) (st : state) :
  (exists p, fst (new kwargs st) = Return p) \/
  (fst (new kwargs st) = Raise TypeError /\
   (forallb (fun kv => is_parameter (fst kv)) kwargs = false \/
    dict_get String.eqb kwargs "name" = None \/
    exists name, dict_get String.eqb kwargs "name" = Some name /\
                 hashable name = false)) \/
  (fst (new kwargs st) = Raise ValueError /\
   exists s, dict_get String.eqb kwargs "dateformat" = Some (PStr s) /\
             s <> TimeFormat_value ISO8601).
Proof.
  unfold new.
  destruct (forallb _ kwargs) eqn:Hk; [|right; left; by auto].
  destruct (dict_get String.eqb kwargs "name") as [name|] eqn:Hn;
    [|right; left; by auto].
  unfold __init__.
  assert (forall attrs_rest,
             let obj := PObj (next_oid st) (("name", name) :: attrs_rest) in
             (exists p,
                 fst (if truthy (arg kwargs "register" (PBool true))
                      then match register obj
                                   {| next_oid := S (next_oid st);
                                      __profiles := __profiles st |} with
                           | (Return _, st') => (Return obj, st')
                           | (Raise e, st') => (Raise e, st')
                           | (OutOfModel, st') => (OutOfModel, st')
                           end
                      else (Return obj,
                            {| next_oid := S (next_oid st);
                               __profiles := __profiles st |}))
                 = Return p) \/
             fst (if truthy (arg kwargs "register" (PBool true))
                  then match register obj
                               {| next_oid := S (next_oid st);
                                  __profiles := __profiles st |} with
                       | (Return _, st') => (Return obj, st')
                       | (Raise e, st') => (Raise e, st')
                       | (OutOfModel, st') => (OutOfModel, st')
                       end
                  else (Return obj,
                        {| next_oid := S (next_oid st);
                           __profiles := __profiles st |}))
             = Raise TypeError /\ hashable name = false) as Hreg.
  { intros attrs_rest obj.
    destruct (truthy _); [|left; by eexists].
    unfold register, obj. cbn [getattr dict_get].
    rewrite String.eqb_refl.
    destruct (hashable name) eqn:Hh; [left; by eexists | by right]. }
  cbv zeta in Hreg.
  destruct (arg kwargs "dateformat" (PEnum ISO8601)) as [|b|z|s|l|t|i a] eqn:Hd;
    cbv beta zeta iota;
    try (match goal with
         | |- context [PObj _ (("name", name) :: ?rest)] =>
             destruct (Hreg rest) as [Hp|[Hp Hh]]
         end;
         [left; exact Hp | right; left; split; [exact Hp | eauto]]).
  unfold TimeFormat_of_value.
  destruct (String.eqb s (TimeFormat_value ISO8601)) eqn:Hs.
  - cbn [olift obind]. cbv beta zeta iota.
    match goal with
    | |- context [PObj _ (("name", name) :: ?rest)] =>
        destruct (Hreg rest) as [Hp|[Hp Hh]]
    end;
      [left; exact Hp | right; left; split; [exact Hp | eauto]].
  - right; right. split; [done|]. exists s. split.
    + unfold arg in Hd.
      by destruct (dict_get String.eqb kwargs "dateformat") as [v|];
        simplify_eq.
    + by apply String.eqb_neq.
Qed.

Lemma new_Raise (kwargs : pydict) (st : state) e :
  fst (new kwargs st) = Raise e -> e = TypeError \/ e = ValueError.
Proof.
  destruct (new_outcome kwargs st) as [[p Hp]|[[H _]|[H _]]];
    rewrite ?Hp, ?H; [done | |]; intros [= <-]; auto.
Qed.

(** *** The calls of the hook *)

Section Trace.
Context {St : Type} (hook : pydict -> St -> outcome pyval * St).

(** A run with the record is the run without it, and the record grows
    at its end. *)
Local Abbreviation recorded A run_traced run :=
  (forall (st : St) (log : list (pydict * St)),
      exists calls,
        run_traced (st, log)
        = (fst (run st) : outcome A, (snd (run st), log ++ calls))).

Local Ltac use IH x :=
  let calls := fresh "calls" in
  let E := fresh "E" in
  destruct (IH x) as [calls E]; rewrite E; clear E.

Lemma traced_runs f :
  (forall s, recorded (pyval * string)
               (scan_once (traced hook) f s) (scan_once hook f s)) /\
  (forall s, recorded (list pyval * string)
               (array_loop (traced hook) f s) (array_loop hook f s)) /\
  (forall s pairs, recorded (pyval * string)
                     (object_loop (traced hook) f s pairs)
                     (object_loop hook f s pairs)).
Proof.
  induction f as [|f (IHs & IHa & IHo)].
  { repeat split; intros; exists []; cbn; by rewrite List.app_nil_r. }
  assert (forall d (st : St) (log : list (pydict * St)),
             traced hook d (st, log)
             = (fst (hook d st), (snd (hook d st), log ++ [(d, st)]))) as Hh.
  { intros d st log. unfold traced. cbn [fst snd]. by destruct (hook d st). }
  split; [|split].
  - intros s st log. rewrite !scan_once_S.
    unfold scan_value, JSONObject_with, JSONArray_with.
    destruct s as [|c s]; [exists []; by rewrite List.app_nil_r|].
    destruct (Ascii.eqb c dquote); [exists []; by rewrite List.app_nil_r|].
    destruct (Ascii.eqb c "{").
    { destruct (skip_ws s) as [|c1 s1]; [exists []; by rewrite List.app_nil_r|].
      destruct (Ascii.eqb c1 "}").
      - rewrite Hh. exists [([], st)].
        by destruct (hook [] st) as [[o|e|] st'].
      - destruct (Ascii.eqb c1 dquote); [apply IHo|].
        exists []; by rewrite List.app_nil_r. }
    destruct (Ascii.eqb c "[").
    { destruct (skip_ws s) as [|c1 s1]; [exists []; by rewrite List.app_nil_r|].
      destruct (Ascii.eqb c1 "]"); [exists []; by rewrite List.app_nil_r|].
      destruct (IHa (String c1 s1) st log) as [calls ->]. exists calls.
      by destruct (array_loop hook f (String c1 s1) st) as [[[vs r]|e|] st']. }
    exists []. rewrite List.app_nil_r. by repeat case_match.
  - intros s st log. rewrite !array_loop_S. unfold JSONArray_step.
    destruct (IHs s st log) as [calls ->].
    destruct (scan_once hook f s st) as [[[v r]|e|] st1]; cbn [fst snd];
      try by exists calls.
    destruct (skip_ws r) as [|c r']; [by exists calls|].
    destruct (Ascii.eqb c "]"); [by exists calls|].
    destruct (Ascii.eqb c ","); [|by exists calls].
    destruct (IHa (skip_ws r') st1 (log ++ calls)) as [calls2 ->].
    exists (calls ++ calls2). rewrite List.app_assoc.
    by destruct (array_loop hook f (skip_ws r') st1) as [[[vs r2]|e|] st2].
  - intros s pairs st log. rewrite !object_loop_S. unfold JSONObject_step.
    destruct (scanstring s) as [[key r]| |];
      try (exists []; by rewrite List.app_nil_r).
    destruct (skip_ws r) as [|c r1]; [exists []; by rewrite List.app_nil_r|].
    destruct (Ascii.eqb c ":"); [|exists []; by rewrite List.app_nil_r].
    destruct (IHs (skip_ws r1) st log) as [calls ->].
    destruct (scan_once hook f (skip_ws r1) st) as [[[value r2]|e|] st1];
      cbn [fst snd]; try by exists calls.
    destruct (skip_ws r2) as [|c2 r3]; [by exists calls|].
    destruct (Ascii.eqb c2 "}").
    { rewrite Hh. eexists (calls ++ [(_, st1)]). rewrite List.app_assoc.
      by destruct (hook _ st1) as [[o|e|] st2]. }
    destruct (Ascii.eqb c2 ","); [|by exists calls].
    destruct (skip_ws r3) as [|c3 r4]; [by exists calls|].
    destruct (Ascii.eqb c3 dquote); [|by exists calls].
    destruct (IHo r4 ((key, value) :: pairs) st1 (log ++ calls))
      as [calls2 ->].
    exists (calls ++ calls2). by rewrite List.app_assoc.
Qed.

(** The record does not change what [loads] does. *)
Lemma traced_loads text (st : St) :
  fst (loads (traced hook) text (st, [])) = fst (loads hook text st) /\
  fst (snd (loads (traced hook) text (st, []))) = snd (loads hook text st).
Proof.
  unfold loads.
  destruct (proj1 (traced_runs (S (S (2 * String.length text))))
              (skip_ws text) st []) as [calls ->].
  destruct (scan_once hook _ _ st) as [[[obj r]|e|] st']; cbn [fst snd];
    try done.
  by destruct (skip_ws r).
Qed.

(** An exception of the decoder that is no decode error has been raised
    by the last call of the hook. *)
Local Abbreviation last_raised res :=
  (forall e, fst res = Raise e ->
             e = JSONDecodeError \/
             exists d st0, last (snd (snd res)) = Some (d, st0) /\
                           fst (hook d st0) = Raise e).

Lemma traced_hook_raised d (st : St) log :
  last_raised (traced hook d (st, log)).
Proof.
  intros e. unfold traced. cbn [fst snd].
  destruct (hook d st) as [o st'] eqn:E. cbn [fst snd]. intros ->.
  right. exists d, st. rewrite last_snoc. by rewrite E.
Qed.

Lemma traced_raise f :
  (forall s sl, last_raised
                  (scan_once (traced hook) f s sl)) /\
  (forall s sl, last_raised
                  (array_loop (traced hook) f s sl)) /\
  (forall s pairs sl, last_raised
                        (object_loop (traced hook) f s pairs sl)).
Proof.
  induction f as [|f (IHs & IHa & IHo)]; [by repeat split|].
  assert (forall s e, scanstring s = Raise e -> e = JSONDecodeError) as Hs.
  { intros s e. apply scanstring_Raise. }
  split; [|split].
  - intros s [st log] e. rewrite scan_once_S.
    unfold scan_value, JSONObject_with, JSONArray_with.
    destruct s as [|c s]; [cbn; intros [= <-]; by left|].
    destruct (Ascii.eqb c dquote).
    { cbn [fst]. destruct (scanstring s) as [[]| |] eqn:E; cbn; try done.
      intros [= <-]. left. by eapply Hs. }
    destruct (Ascii.eqb c "{").
    { destruct (skip_ws s) as [|c1 s1]; [cbn; intros [= <-]; by left|].
      destruct (Ascii.eqb c1 "}").
      - pose proof (traced_hook_raised [] st log e) as Hh.
        destruct (traced hook [] (st, log)) as [[o|e'|] sl']; cbn in *;
          try done. intros [= <-]. by apply Hh.
      - destruct (Ascii.eqb c1 dquote); [apply IHo|].
        cbn; intros [= <-]; by left. }
    destruct (Ascii.eqb c "[").
    { destruct (skip_ws s) as [|c1 s1]; [cbn; intros [= <-]; by left|].
      destruct (Ascii.eqb c1 "]"); [done|].
      pose proof (IHa (String c1 s1) (st, log) e) as Ha.
      destruct (array_loop _ f (String c1 s1) (st, log))
        as [[[vs r]|e'|] sl']; cbn in *; try done.
      intros [= <-]. by apply Ha. }
    repeat case_match; cbn [fst]; intros HR; simplify_eq; try (by left).
    by match goal with
       | H : match_number _ = Some (Raise _) |- _ =>
           apply match_number_Raise in H
       end.
  - intros s sl e. rewrite array_loop_S. unfold JSONArray_step.
    pose proof (IHs s sl e) as H1.
    destruct (scan_once _ f s sl) as [[[v r]|e1|] sl1]; cbn [fst snd] in *;
      try done; [|intros [= <-]; by apply H1].
    destruct (skip_ws r) as [|c r']; [cbn; intros [= <-]; by left|].
    destruct (Ascii.eqb c "]"); [done|].
    destruct (Ascii.eqb c ","); [|cbn; intros [= <-]; by left].
    pose proof (IHa (skip_ws r') sl1 e) as H2.
    destruct (array_loop _ f (skip_ws r') sl1) as [[[vs r2]|e2|] sl2];
      cbn [fst snd] in *; try done.
  - intros s pairs [st log] e. rewrite object_loop_S. unfold JSONObject_step.
    destruct (scanstring s) as [[key r]| |] eqn:Ek; cbn [fst]; try done.
    2: { intros [= <-]. left. by eapply Hs. }
    destruct (skip_ws r) as [|c r1]; [cbn; intros [= <-]; by left|].
    destruct (Ascii.eqb c ":"); [|cbn; intros [= <-]; by left].
    pose proof (IHs (skip_ws r1) (st, log) e) as H1.
    destruct (scan_once _ f (skip_ws r1) (st, log))
      as [[[value r2]|e1|] [st1 log1]]; cbn [fst snd] in *; try done.
    destruct (skip_ws r2) as [|c2 r3]; [cbn; intros [= <-]; by left|].
    destruct (Ascii.eqb c2 "}").
    { match goal with
      | |- context [traced hook ?d (st1, log1)] =>
          pose proof (traced_hook_raised d st1 log1 e) as Hh;
          destruct (traced hook d (st1, log1)) as [[o|e'|] sl']
      end; cbn in *; try done. intros [= <-]. by apply Hh. }
    destruct (Ascii.eqb c2 ","); [|cbn; intros [= <-]; by left].
    destruct (skip_ws r3) as [|c3 r4]; [cbn; intros [= <-]; by left|].
    destruct (Ascii.eqb c3 dquote); [|cbn; intros [= <-]; by left].
    apply IHo.
Qed.

(** What [loads] raises, if it is no decode error, the last call of the
    hook has raised, on an object of the text. *)
Lemma loads_raise text (st : St) e :
  fst (loads hook text st) = Raise e ->
  e = JSONDecodeError \/
  exists d st0,
    last (hook_calls hook text st) = Some (d, st0) /\
    fst (hook d st0) = Raise e.
Proof.
  rewrite <- (proj1 (traced_loads text st)). unfold hook_calls, loads.
  pose proof (proj1 (traced_raise (S (S (2 * String.length text))))
                (skip_ws text) (st, []) e) as H.
  destruct (scan_once (traced hook) _ _ (st, [])) as [[[obj r]|e'|] sl'];
    cbn [fst snd] in *; try done.
  - destruct (skip_ws r); cbn [fst]; [done|]. intros [= <-]. by left.
  - intros [= <-]. by apply H.
Qed.
End Trace.

Section Plain.
Context {St : Type} (hook : pydict -> St -> outcome pyval * St).
Hypothesis hook_raises_no_decode_error :
  forall d st, fst (hook d st) <> Raise JSONDecodeError.

(** The decoder takes the same way through a text whatever the hook
    returns: where a run with the hook has come to the end of a value
    or to a decode error, a run with the counting hook comes as well. *)
Local Abbreviation follows o o' :=
  (match o with
   | Return (_, r) => exists v', o' = Return (v', r)
   | Raise JSONDecodeError => o' = Raise JSONDecodeError
   | _ => True
   end).

Local Ltac same :=
  match goal with
  | |- match ?o with _ => _ end =>
      destruct o as [[? ?]|[]|]; try done; by eexists
  end.

Lemma plain_follows f :
  (forall s (st : St) n,
      follows (fst (scan_once hook f s st)) (fst (scan_once record f s n))) /\
  (forall s (st : St) n,
      follows (fst (array_loop hook f s st))
              (fst (array_loop record f s n))) /\
  (forall s pairs pairs' (st : St) n,
      follows (fst (object_loop hook f s pairs st))
              (fst (object_loop record f s pairs' n))).
Proof.
  induction f as [|f (IHs & IHa & IHo)]; [by repeat split|].
  split; [|split].
  - intros s st n. rewrite !scan_once_S.
    unfold scan_value, JSONObject_with, JSONArray_with.
    destruct s as [|c s]; [done|].
    destruct (Ascii.eqb c dquote); [cbn [fst]; same|].
    destruct (Ascii.eqb c "{").
    { destruct (skip_ws s) as [|c1 s1]; [done|].
      destruct (Ascii.eqb c1 "}").
      - pose proof (hook_raises_no_decode_error [] st) as Hh.
        destruct (hook [] st) as [[o|[]|] st']; cbn in *; try done.
        by eexists.
      - destruct (Ascii.eqb c1 dquote); [apply IHo | done]. }
    destruct (Ascii.eqb c "[").
    { destruct (skip_ws s) as [|c1 s1]; [done|].
      destruct (Ascii.eqb c1 "]"); [cbn; by eexists|].
      pose proof (IHa (String c1 s1) st n) as Ha.
      destruct (array_loop hook f (String c1 s1) st) as [[[vs r]|[]|] st'];
        cbn [fst] in *; try done.
      - destruct Ha as [vs' Ha].
        destruct (array_loop record f (String c1 s1) n) as [o' n'].
        cbn [fst] in Ha. subst o'. cbn. by eexists.
      - destruct (array_loop record f (String c1 s1) n) as [o' n'].
        cbn [fst] in Ha. by subst o'. }
    repeat case_match; cbn [fst]; try done; try (by eexists).
    all: same.
  - intros s st n. rewrite !array_loop_S. unfold JSONArray_step.
    pose proof (IHs s st n) as H1.
    destruct (scan_once hook f s st) as [[[v r]|[]|] st1]; cbn [fst] in *;
      try done.
    + destruct H1 as [v' H1].
      destruct (scan_once record f s n) as [o1 n1]. cbn [fst] in H1.
      subst o1.
      destruct (skip_ws r) as [|c r']; [done|].
      destruct (Ascii.eqb c "]"); [cbn; by eexists|].
      destruct (Ascii.eqb c ","); [|done].
      pose proof (IHa (skip_ws r') st1 n1) as H2.
      destruct (array_loop hook f (skip_ws r') st1) as [[[vs r2]|[]|] st2];
        cbn [fst] in *; try done.
      * destruct H2 as [vs' H2].
        destruct (array_loop record f (skip_ws r') n1) as [o2 n2].
        cbn [fst] in H2. subst o2. cbn. by eexists.
      * destruct (array_loop record f (skip_ws r') n1) as [o2 n2].
        cbn [fst] in H2. by subst o2.
    + destruct (scan_once record f s n) as [o1 n1]. cbn [fst] in H1.
      by subst o1.
  - intros s pairs pairs' st n. rewrite !object_loop_S.
    unfold JSONObject_step.
    destruct (scanstring s) as [[key r]|[]|]; try done.
    destruct (skip_ws r) as [|c r1]; [done|].
    destruct (Ascii.eqb c ":"); [|done].
    pose proof (IHs (skip_ws r1) st n) as H1.
    destruct (scan_once hook f (skip_ws r1) st) as [[[value r2]|[]|] st1];
      cbn [fst] in *; try done.
    + destruct H1 as [v' H1].
      destruct (scan_once record f (skip_ws r1) n) as [o1 n1].
      cbn [fst] in H1. subst o1.
      destruct (skip_ws r2) as [|c2 r3]; [done|].
      destruct (Ascii.eqb c2 "}").
      { match goal with
        | |- context [hook ?d st1] =>
            pose proof (hook_raises_no_decode_error d st1) as Hh;
            destruct (hook d st1) as [[o|[]|] st2]
        end; cbn in *; try done. by eexists. }
      destruct (Ascii.eqb c2 ","); [|done].
      destruct (skip_ws r3) as [|c3 r4]; [done|].
      destruct (Ascii.eqb c3 dquote); [|done].
      apply IHo.
    + destruct (scan_once record f (skip_ws r1) n) as [o1 n1].
      cbn [fst] in H1. by subst o1.
Qed.

(** A decode error of [loads] with the hook is a decode error of
    [loads] without it. *)
Lemma loads_decode_error text (st : St) :
  fst (loads hook text st) = Raise JSONDecodeError ->
  fst (loads record text 0%nat) = Raise JSONDecodeError.
Proof.
  unfold loads.
  pose proof (proj1 (plain_follows (S (S (2 * String.length text))))
                (skip_ws text) st 0%nat) as H.
  destruct (scan_once hook _ _ st) as [[[obj r]|[]|] st']; cbn [fst] in *;
    try done.
  - destruct H as [v' H].
    destruct (scan_once record _ _ 0%nat) as [o1 n1]. cbn [fst] in H.
    subst o1. by destruct (skip_ws r).
  - intros _. destruct (scan_once record _ _ 0%nat) as [o1 n1].
    cbn [fst] in H. by subst o1.
Qed.
End Plain.

(** The constructor, case by case. *)
Lemma new_unbound (kwargs : pydict) (st : state) :
  forallb (fun kv => is_parameter (fst kv)) kwargs = false \/
  dict_get String.eqb kwargs "name" = None ->
  fst (new kwargs st) = Raise TypeError.
Proof.
  unfold new. intros [-> | Hn]; [done|].
  destruct (forallb _ kwargs); [|done]. by rewrite Hn.
Qed.

Lemma new_bad_dateformat (kwargs : pydict) (st : state) name s :
  forallb (fun kv => is_parameter (fst kv)) kwargs = true ->
  dict_get String.eqb kwargs "name" = Some name ->
  dict_get String.eqb kwargs "dateformat" = Some (PStr s) ->
  s <> TimeFormat_value ISO8601 ->
  fst (new kwargs st) = Raise ValueError.
Proof.
  intros Hk Hn Hd Hs. unfold new, __init__, arg. rewrite Hk, Hn, Hd.
  unfold TimeFormat_of_value.
  by rewrite (proj2 (String.eqb_neq s (TimeFormat_value ISO8601)) Hs).
Qed.

(** With the keywords bound and the date format taken, what is left to
    fail is the registration. *)
Lemma new_registers (kwargs : pydict) (st : state) name :
  forallb (fun kv => is_parameter (fst kv)) kwargs = true ->
  dict_get String.eqb kwargs "name" = Some name ->
  (forall s, dict_get String.eqb kwargs "dateformat" = Some (PStr s) ->
             s = TimeFormat_value ISO8601) ->
  fst (new kwargs st)
  = if truthy (arg kwargs "register" (PBool true)) && negb (hashable name)
    then Raise TypeError
    else Return
           (PObj (next_oid st)
              [("name", name);
               ("columns",
                if truthy (arg kwargs "columns" PNone)
                then arg kwargs "columns" PNone else PList []);
               ("ext", arg kwargs "ext" (PStr "dat"));
               ("precision", arg kwargs "precision" (PInt 10));
               ("dateformat",
                match arg kwargs "dateformat" (PEnum ISO8601) with
                | PStr _ => PEnum ISO8601
                | df => df
                end);
               ("_userprofile", arg kwargs "_userprofile" (PBool true))]).
Proof.
  intros Hk Hn Hd. unfold new, __init__. rewrite Hk, Hn.
  assert (match arg kwargs "dateformat" (PEnum ISO8601) with
          | PStr s => olift PEnum (TimeFormat_of_value s)
          | _ => Return (arg kwargs "dateformat" (PEnum ISO8601))
          end
          = Return match arg kwargs "dateformat" (PEnum ISO8601) with
                   | PStr _ => PEnum ISO8601
                   | df => df
                   end) as ->.
  { unfold arg in *.
    destruct (dict_get String.eqb kwargs "dateformat") as [[| | |s| | |]|];
      try done.
    rewrite (Hd s eq_refl). reflexivity. }
  destruct (truthy (arg kwargs "register" (PBool true))); [|done].
  unfold register. cbn [getattr dict_get]. rewrite String.eqb_refl.
  by destruct (hashable name).
Qed.

Lemma _decode_raises_no_decode_error d (st : state) :
  fst (_decode d st) <> Raise JSONDecodeError.
Proof. intros H. by apply new_Raise in H as [|]. Qed.

(** C5, as the code has it. Registering a profile under a string name
    never raises. The constructor raises [TypeError] for a keyword that
    is no parameter and for a missing [name]; else [ValueError] for a
    [dateformat] string that is no value of a [TimeFormat] member; else
    [TypeError] when it is to register under a [name] that cannot be
    hashed; else it returns. [from_json] raises the decode error only
    on a text that [json.loads] without a hook rejects as well, and
    otherwise nothing but the [TypeError] or [ValueError] that the
    constructor has raised on the last object that the decoder has read
    from the text; the record of the calls that says which object that
    is does not change the run. *)
Theorem registry_failure_modes :
  (forall p n st,
      getattr p "name" = Some (PStr n) -> fst (register p st) = Return tt) /\
  (forall kwargs st,
      forallb (fun kv => is_parameter (fst kv)) kwargs = false \/
      dict_get String.eqb kwargs "name" = None ->
      fst (new kwargs st) = Raise TypeError) /\
  (forall kwargs st name s,
      forallb (fun kv => is_parameter (fst kv)) kwargs = true ->
      dict_get String.eqb kwargs "name" = Some name ->
      dict_get String.eqb kwargs "dateformat" = Some (PStr s) ->
      s <> TimeFormat_value ISO8601 ->
      fst (new kwargs st) = Raise ValueError) /\
  (forall kwargs st name,
      forallb (fun kv => is_parameter (fst kv)) kwargs = true ->
      dict_get String.eqb kwargs "name" = Some name ->
      (forall s, dict_get String.eqb kwargs "dateformat" = Some (PStr s) ->
                 s = TimeFormat_value ISO8601) ->
      if truthy (arg kwargs "register" (PBool true)) && negb (hashable name)
      then fst (new kwargs st) = Raise TypeError
      else exists p, fst (new kwargs st) = Return p) /\
  (forall text st e,
      fst (from_json text st) = Raise e ->
      e = JSONDecodeError /\
      fst (loads record text 0%nat) = Raise JSONDecodeError \/
      (e = TypeError \/ e = ValueError) /\
      exists obj st0,
        last (hook_calls _decode text st) = Some (obj, st0) /\
        fst (new obj st0) = Raise e) /\
  (forall text st,
      fst (loads (traced _decode) text (st, [])) = fst (from_json text st) /\
      fst (snd (loads (traced _decode) text (st, [])))
      = snd (from_json text st)).
Proof.
  split; [|split; [|split; [|split; [|split]]]].
  - intros p n st Hn. unfold register. by rewrite Hn.
  - apply new_unbound.
  - apply new_bad_dateformat.
  - intros kwargs st name Hk Hn Hd.
    rewrite (new_registers kwargs st name Hk Hn Hd).
    destruct (_ && _); [done | by eexists].
  - intros text st e H. unfold from_json in *.
    destruct (loads_raise _decode text st e H) as [->|(obj & st0 & Hl & Hr)].
    + left. split; [done|].
      apply (loads_decode_error _decode _decode_raises_no_decode_error
               text st H).
    + right. split; [|by eauto]. unfold _decode in Hr.
      by apply new_Raise in Hr.
  - intros text st. apply traced_loads.
Qed.

Lemma registry_failure_modes_witness :
  fst (register (instance 0 Samples.gravity) initial) = Return tt /\
  fst (new [("name", PStr "gravity"); ("dateformat", PStr "%Y-%m-%d")]
         initial)
  = Raise ValueError /\
  (if truthy (arg [("name", PList [PStr "gravity"])] "register" (PBool true))
      && negb (hashable (PList [PStr "gravity"]))
   then fst (new [("name", PList [PStr "gravity"])] initial) = Raise TypeError
   else exists p,
       fst (new [("name", PList [PStr "gravity"])] initial) = Return p) /\
  (TypeError = JSONDecodeError /\
   fst (loads record (quoted "[{'name': 'gravity'}, {'units': 'mGal'}]")
          0%nat)
   = Raise JSONDecodeError \/
   (TypeError = TypeError \/ TypeError = ValueError) /\
   exists obj st0,
     last (hook_calls _decode
             (quoted "[{'name': 'gravity'}, {'units': 'mGal'}]") initial)
     = Some (obj, st0) /\
     fst (new obj st0) = Raise TypeError).
Proof.
  destruct registry_failure_modes
    as (Hregister & _ & Hdateformat & Hname & Hfrom_json & _).
  split; [|split; [|split]].
  - apply (Hregister (instance 0 Samples.gravity) "gravity" initial).
    reflexivity.
  - apply (Hdateformat
             [("name", PStr "gravity"); ("dateformat", PStr "%Y-%m-%d")]
             initial (PStr "gravity") "%Y-%m-%d"); try reflexivity.
    discriminate.
  - apply (Hname [("name", PList [PStr "gravity"])] initial
             (PList [PStr "gravity"])); try reflexivity.
    intros s. discriminate.
  - apply (Hfrom_json (quoted "[{'name': 'gravity'}, {'units': 'mGal'}]")
             initial TypeError).
    vm_compute. reflexivity.
Defined.

(** C5, as the specification has it, fails: the constructor raises on a
    date format that it does not know, and [from_json] raises on
    well-formed JSON, with exceptions that are no decode errors. *)
Lemma constructor_and_from_json_raise :
  fst (new [("name", PStr "gravity"); ("dateformat", PStr "iso")] initial)
  = Raise ValueError /\
  fst (from_json "{}" initial) = Raise TypeError /\
  fst (from_json (quoted "{'name': 'gravity', 'dateformat': 'iso'}") initial)
  = Raise ValueError /\
  fst (from_json (quoted "{'name': 'gravity', 'units': 'mGal'}") initial)
  = Raise TypeError.
Proof. vm_compute. auto. Qed.
End Failures.

(** ** Fuel *)

Module Fuel.
Import Json JsonFacts.

Lemma skip_ws_length s : (String.length (skip_ws s) <= String.length s)%nat.
Proof.
  induction s as [|c s IH]; [done|]. cbn [skip_ws].
  destruct (is_ws c); cbn [String.length]; lia.
Qed.

Lemma cons_char_Return c x k r :
  cons_char c x = Return (k, r) -> exists k', x = Return (k', r).
Proof. destruct x as [[k' r']| |]; cbn; [|done|done]. intros [= _ <-]. eauto. Qed.

(** Every scanner gives back less text than it was given. *)
Lemma scanstring_length s k r :
  scanstring s = Return (k, r) -> (String.length r < String.length s)%nat.
Proof.
  remember (String.length s) as n eqn:Hn.
  revert s k Hn. induction n as [n IH] using lt_wf_ind. intros s k Hn.
  destruct s as [|c s]; cbn [scanstring]; [done|].
  cbn [String.length] in Hn.
  repeat case_match; try done.
  - intros [= _ <-]. lia.
  - intros (k' & HR)%cons_char_Return.
    eapply IH in HR; [| | reflexivity]; subst; cbn [String.length] in *; lia.
  - intros (k' & HR)%cons_char_Return.
    eapply IH in HR; [| | reflexivity]; subst; cbn [String.length] in *; lia.
  - intros (k' & HR)%cons_char_Return.
    eapply IH in HR; [| | reflexivity]; subst; cbn [String.length] in *; lia.
Qed.

Lemma strip_prefix_length p s r :
  strip_prefix p s = Some r ->
  (String.length r + String.length p = String.length s)%nat.
Proof.
  revert s. induction p as [|a p IH]; intros s; cbn [strip_prefix].
  - intros [= ->]. cbn. lia.
  - destruct s as [|b s]; [done|]. case_match; [|done].
    intros HR%IH. cbn [String.length]. lia.
Qed.

Lemma scan_digits_length s d r :
  scan_digits s = (d, r) -> (String.length r <= String.length s)%nat.
Proof.
  revert d r. induction s as [|c s IH]; intros d r; cbn [scan_digits].
  - by intros [= _ <-].
  - destruct (digit c).
    + destruct (scan_digits s) as [d' r'] eqn:E. intros [= _ <-].
      specialize (IH _ _ eq_refl). cbn [String.length]. lia.
    + by intros [= _ <-].
Qed.

Lemma scan_integer_length s d r :
  scan_integer s = Some (d, r) -> (String.length r < String.length s)%nat.
Proof.
  unfold scan_integer. destruct s as [|c s]; [done|].
  case_match.
  - intros [= _ <-]. cbn. lia.
  - case_match; [|done]. intros [= HR].
    cbn [scan_digits] in HR. unfold is_digit in *.
    destruct (digit c); [|done].
    destruct (scan_digits s) as [d' r'] eqn:E.
    apply scan_digits_length in E. simplify_eq. cbn [String.length]. lia.
Qed.

Lemma match_number_length s v r :
  match_number s = Some (Return (v, r)) ->
  (String.length r < String.length s)%nat.
Proof.
  unfold match_number.
  repeat case_match; try done; intros [= _ <-]; simplify_eq;
    match goal with
    | H : scan_integer _ = Some _ |- _ => apply scan_integer_length in H
    end; cbn [String.length] in *; lia.
Qed.

Section Enough.
Context {St : Type} (hook : pydict -> St -> outcome pyval * St).

(** The facts on lengths that the equations at hand give. *)
Ltac lengths :=
  repeat match goal with
    | H : skip_ws ?x = String _ _ |- _ =>
        apply (f_equal String.length) in H;
        pose proof (skip_ws_length x); cbn [String.length] in H
    | H : scanstring _ = Return _ |- _ => apply scanstring_length in H
    | H : match_number _ = Some (Return _) |- _ =>
        apply match_number_length in H
    | H : strip_prefix _ _ = Some _ |- _ =>
        apply strip_prefix_length in H
    end;
  repeat match goal with
    | H : context [String.length (skip_ws ?x)] |- _ =>
        lazymatch goal with
        | _ : (String.length (skip_ws x) <= String.length x)%nat |- _ => fail
        | _ => pose proof (skip_ws_length x)
        end
    | |- context [String.length (skip_ws ?x)] =>
        lazymatch goal with
        | _ : (String.length (skip_ws x) <= String.length x)%nat |- _ => fail
        | _ => pose proof (skip_ws_length x)
        end
    end;
  cbn [String.length] in *.

(** A value, the items of an array and the pairs of an object all take
    some of the text. *)
Lemma consumed f :
  (forall s (st : St) v r st',
      scan_once hook f s st = (Return (v, r), st') ->
      (String.length r < String.length s)%nat) /\
  (forall s (st : St) vs r st',
      array_loop hook f s st = (Return (vs, r), st') ->
      (String.length r < String.length s)%nat) /\
  (forall s pairs (st : St) v r st',
      object_loop hook f s pairs st = (Return (v, r), st') ->
      (String.length r < String.length s)%nat).
Proof.
  induction f as [|f (IHs & IHa & IHo)]; [by repeat split|].
  split; [|split].
  - intros s st v r st'. rewrite scan_once_S.
    unfold scan_value, JSONObject_with, JSONArray_with.
    repeat case_match; intros HR; simplify_eq;
      repeat match goal with
        | H : array_loop _ _ _ _ = (Return _, _) |- _ => apply IHa in H
        | H : object_loop _ _ _ _ _ = (Return _, _) |- _ => apply IHo in H
        | H : olift _ (scanstring ?x) = Return _ |- _ =>
            destruct (scanstring x) as [[]| |] eqn:?; cbn in H; simplify_eq
        end;
      lengths; lia.
  - intros s st vs r st'. rewrite array_loop_S. unfold JSONArray_step.
    repeat case_match; intros HR; simplify_eq;
      repeat match goal with
        | H : scan_once _ _ _ _ = (Return _, _) |- _ => apply IHs in H
        | H : array_loop _ _ _ _ = (Return _, _) |- _ => apply IHa in H
        end;
      lengths; lia.
  - intros s pairs st v r st'. rewrite object_loop_S. unfold JSONObject_step.
    repeat case_match; intros HR; simplify_eq;
      repeat match goal with
        | H : scan_once _ _ _ _ = (Return _, _) |- _ => apply IHs in H
        | H : object_loop _ _ _ _ _ = (Return _, _) |- _ => apply IHo in H
        end;
      lengths; lia.
Qed.

(** The parsers apply what they are given to shorter texts only, so two
    scanners or loops that agree on shorter texts give the same result. *)
Lemma JSONArray_with_ext
    (loop1 loop2 : string -> St -> outcome (list pyval * string) * St)
    s (st : St) :
  (forall x st', (String.length x <= String.length s)%nat ->
                 loop1 x st' = loop2 x st') ->
  JSONArray_with loop1 s st = JSONArray_with loop2 s st.
Proof.
  intros Hl. unfold JSONArray_with.
  rewrite Hl by apply skip_ws_length. done.
Qed.

Lemma JSONObject_with_ext
    (loop1 loop2 : string -> list (string * pyval) -> St
                   -> outcome (pyval * string) * St)
    s (st : St) :
  (forall x pairs st', (String.length x < String.length s)%nat ->
                       loop1 x pairs st' = loop2 x pairs st') ->
  JSONObject_with hook loop1 s st = JSONObject_with hook loop2 s st.
Proof.
  intros Hl. unfold JSONObject_with.
  repeat case_match; try done. apply Hl. lengths. lia.
Qed.

Lemma scan_value_ext
    (po1 po2 pa1 pa2 : string -> St -> outcome (pyval * string) * St)
    s (st : St) :
  (forall r st', (String.length r < String.length s)%nat ->
                 po1 r st' = po2 r st') ->
  (forall r st', (String.length r < String.length s)%nat ->
                 pa1 r st' = pa2 r st') ->
  scan_value po1 pa1 s st = scan_value po2 pa2 s st.
Proof.
  intros Ho Ha. unfold scan_value. destruct s as [|c r]; [done|].
  repeat case_match; try done.
  - apply Ho. cbn. lia.
  - apply Ha. cbn. lia.
Qed.

Lemma JSONArray_step_ext
    (so1 so2 : string -> St -> outcome (pyval * string) * St)
    (al1 al2 : string -> St -> outcome (list pyval * string) * St)
    s (st : St) :
  so1 s st = so2 s st ->
  (forall v r st', so2 s st = (Return (v, r), st') ->
                   (String.length r < String.length s)%nat) ->
  (forall x st', (String.length x + 2 <= String.length s)%nat ->
                 al1 x st' = al2 x st') ->
  JSONArray_step so1 al1 s st = JSONArray_step so2 al2 s st.
Proof.
  intros Hs Hc Ha. unfold JSONArray_step. rewrite Hs.
  destruct (so2 s st) as [[[v r]|e|] st1] eqn:E; try done.
  specialize (Hc v r st1 eq_refl).
  destruct (skip_ws r) as [|c r'] eqn:Er; [done|].
  destruct (Ascii.eqb c "]"); [done|].
  destruct (Ascii.eqb c ","); [|done].
  rewrite Ha; [done|]. lengths. lia.
Qed.

Lemma JSONObject_step_ext
    (so1 so2 : string -> St -> outcome (pyval * string) * St)
    (ol1 ol2 : string -> list (string * pyval) -> St
               -> outcome (pyval * string) * St)
    s pairs (st : St) :
  (forall x st', (String.length x + 2 <= String.length s)%nat ->
                 so1 x st' = so2 x st') ->
  (forall x st0 v r st', so2 x st0 = (Return (v, r), st') ->
                         (String.length r < String.length x)%nat) ->
  (forall x p st', (String.length x + 3 <= String.length s)%nat ->
                   ol1 x p st' = ol2 x p st') ->
  JSONObject_step hook so1 ol1 s pairs st
  = JSONObject_step hook so2 ol2 s pairs st.
Proof.
  intros Hs Hc Ho. unfold JSONObject_step.
  destruct (scanstring s) as [[key r]| |] eqn:Ek; try done.
  destruct (skip_ws r) as [|c r1] eqn:Er; [done|].
  destruct (Ascii.eqb c ":"); [|done].
  assert (String.length (skip_ws r1) + 2 <= String.length s)%nat as Hr1.
  { lengths. pose proof (skip_ws_length r1). lia. }
  rewrite Hs by done.
  destruct (so2 (skip_ws r1) st) as [[[v r2]|e|] st1] eqn:E; try done.
  apply Hc in E.
  destruct (skip_ws r2) as [|c2 r3] eqn:Er2; [done|].
  destruct (Ascii.eqb c2 "}"); [done|].
  destruct (Ascii.eqb c2 ","); [|done].
  destruct (skip_ws r3) as [|c3 r4] eqn:Er3; [done|].
  destruct (Ascii.eqb c3 dquote); [|done].
  apply Ho. lengths. lia.
Qed.

(** One more unit changes nothing once there are two for each character
    of the text. *)
Lemma fuel_step f :
  (forall s (st : St),
      (2 * String.length s + 1 <= f)%nat ->
      scan_once hook (S f) s st = scan_once hook f s st) /\
  (forall s (st : St),
      (2 * String.length s + 2 <= f)%nat ->
      array_loop hook (S f) s st = array_loop hook f s st) /\
  (forall s pairs (st : St),
      (2 * String.length s + 2 <= f)%nat ->
      object_loop hook (S f) s pairs st = object_loop hook f s pairs st).
Proof.
  induction f as [|f (IHs & IHa & IHo)].
  - repeat split; intros; lia.
  - split; [|split].
    + intros s st Hf. rewrite !scan_once_S. apply scan_value_ext.
      * intros r st' Hr. apply JSONObject_with_ext.
        intros x pairs st'' Hx. apply IHo. lia.
      * intros r st' Hr. apply JSONArray_with_ext.
        intros x st'' Hx. apply IHa. lia.
    + intros s st Hf. rewrite !array_loop_S. apply JSONArray_step_ext.
      * apply IHs. lia.
      * apply (consumed f).
      * intros x st' Hx. apply IHa. lia.
    + intros s pairs st Hf. rewrite !object_loop_S.
      apply JSONObject_step_ext.
      * intros x st' Hx. apply IHs. lia.
      * intros x st0. apply (consumed f).
      * intros x p st' Hx. apply IHo. lia.
Qed.

(** The fuel that [loads] gives the scanner is enough: with any more of
    it the scanner answers the same. *)
Theorem loads_fuel_enough text (st : St) n :
  scan_once hook (n + S (S (2 * String.length text))) (skip_ws text) st
  = scan_once hook (S (S (2 * String.length text))) (skip_ws text) st.
Proof.
  induction n as [|n IH]; [done|].
  cbn [Nat.add]. rewrite (proj1 (fuel_step _)); [exact IH|].
  pose proof (skip_ws_length text). lia.
Qed.
End Enough.
End Fuel.

(** ** Texts with no object, and with one *)

Module Objects.
Import Json JsonFacts.

(** The count of calls never goes down, and an object that is read to
    its end adds to it. *)
Lemma calls_grow f :
  (forall s n o n', scan_once record f s n = (o, n') -> (n <= n')%nat) /\
  (forall s n o n', array_loop record f s n = (o, n') -> (n <= n')%nat) /\
  (forall s pairs n o n',
      object_loop record f s pairs n = (o, n') ->
      (n <= n')%nat /\ (forall vr, o = Return vr -> (n < n')%nat)).
Proof.
  induction f as [|f (IHs & IHa & IHo)].
  { repeat split; intros; cbn in *; simplify_eq; lia. }
  split; [|split].
  - intros s n o n'. rewrite scan_once_S.
    unfold scan_value, JSONObject_with, JSONArray_with, record.
    repeat case_match; intros HR; simplify_eq; try lia;
      repeat match goal with
        | H : array_loop _ _ _ _ = _ |- _ => apply IHa in H
        | H : object_loop _ _ _ _ _ = _ |- _ => apply IHo in H as [H _]
        end; lia.
  - intros s n o n'. rewrite array_loop_S. unfold JSONArray_step.
    repeat case_match; intros HR; simplify_eq;
      repeat match goal with
        | H : scan_once _ _ _ _ = _ |- _ => apply IHs in H
        | H : array_loop _ _ _ _ = _ |- _ => apply IHa in H
        end; lia.
  - intros s pairs n o n'. rewrite object_loop_S.
    unfold JSONObject_step, record.
    repeat case_match; intros HR; simplify_eq;
      repeat match goal with
        | H : scan_once _ _ _ _ = _ |- _ => apply IHs in H
        | H : object_loop _ _ _ _ _ = _ |- _ => apply IHo in H as [H ?]
        end;
      (split; [lia|]); intros vr Hvr; simplify_eq;
      repeat match goal with
        | H : forall vr, Return ?x = Return vr -> _ |- _ =>
            specialize (H _ eq_refl)
        end; lia.
Qed.

Section Replay.
Context {St : Type} (hook : pydict -> St -> outcome pyval * St).

(** What the decoder answers when the hook is called on [d] at the end. *)
Local Abbreviation hooked d r st :=
  (match hook d st with
   | (Return o, st') => (Return (o, r), st')
   | (Raise e, st') => (Raise e, st')
   | (OutOfModel, st') => (@OutOfModel (pyval * string), st')
   end).

(** *** A text that is read without a call of the hook

    reads the same whatever the hook. *)

Lemma scan_value_without
    (po_r pa_r : string -> nat -> outcome (pyval * string) * nat)
    (po_h pa_h : string -> St -> outcome (pyval * string) * St)
    s n o (st : St) :
  scan_value po_r pa_r s n = (o, n) ->
  (forall x o', po_r x n = (o', n) -> po_h x st = (o', st)) ->
  (forall x o', pa_r x n = (o', n) -> pa_h x st = (o', st)) ->
  scan_value po_h pa_h s st = (o, st).
Proof.
  unfold scan_value. intros HR Ho Ha. destruct s as [|c s]; [by simplify_eq|].
  destruct (Ascii.eqb c dquote); [by injection HR as ->|].
  destruct (Ascii.eqb c "{"); [by apply Ho|].
  destruct (Ascii.eqb c "["); [by apply Ha|].
  repeat case_match; by simplify_eq.
Qed.

Lemma JSONArray_with_without
    (loop_r : string -> nat -> outcome (list pyval * string) * nat)
    (loop_h : string -> St -> outcome (list pyval * string) * St)
    s n o (st : St) :
  JSONArray_with loop_r s n = (o, n) ->
  (forall x o', loop_r x n = (o', n) -> loop_h x st = (o', st)) ->
  JSONArray_with loop_h s st = (o, st).
Proof.
  unfold JSONArray_with. intros HR Hl.
  destruct (skip_ws s) as [|c s'] eqn:Es; [by simplify_eq|].
  destruct (Ascii.eqb c "]"); [by simplify_eq|].
  destruct (loop_r (String c s') n) as [[[vs r']|e|] n1] eqn:E;
    simplify_eq; by rewrite (Hl _ _ E).
Qed.

Lemma JSONObject_with_without
    (loop_r : string -> list (string * pyval) -> nat
              -> outcome (pyval * string) * nat)
    (loop_h : string -> list (string * pyval) -> St
              -> outcome (pyval * string) * St)
    s n o (st : St) :
  JSONObject_with record loop_r s n = (o, n) ->
  (forall x p o', loop_r x p n = (o', n) -> loop_h x p st = (o', st)) ->
  JSONObject_with hook loop_h s st = (o, st).
Proof.
  unfold JSONObject_with, record. intros HR Hl.
  destruct (skip_ws s) as [|c s'] eqn:Es; [by simplify_eq|].
  destruct (Ascii.eqb c "}"); [simplify_eq; lia|].
  destruct (Ascii.eqb c dquote); [by apply Hl | by simplify_eq].
Qed.

Lemma JSONArray_step_without
    (so_r : string -> nat -> outcome (pyval * string) * nat)
    (al_r : string -> nat -> outcome (list pyval * string) * nat)
    (so_h : string -> St -> outcome (pyval * string) * St)
    (al_h : string -> St -> outcome (list pyval * string) * St)
    s n o (st : St) :
  JSONArray_step so_r al_r s n = (o, n) ->
  (forall x m o' m', so_r x m = (o', m') -> (m <= m')%nat) ->
  (forall x m o' m', al_r x m = (o', m') -> (m <= m')%nat) ->
  (forall x o', so_r x n = (o', n) -> so_h x st = (o', st)) ->
  (forall x o', al_r x n = (o', n) -> al_h x st = (o', st)) ->
  JSONArray_step so_h al_h s st = (o, st).
Proof.
  unfold JSONArray_step. intros HR Ms Ma Hs Ha.
  destruct (so_r s n) as [[[v r0]|e|] n1] eqn:E;
    try (simplify_eq; by rewrite (Hs _ _ E)).
  pose proof (Ms _ _ _ _ E) as Hn1.
  destruct (skip_ws r0) as [|c r1] eqn:Er;
    [simplify_eq; by rewrite (Hs _ _ E), Er|].
  destruct (Ascii.eqb c "]") eqn:Eb;
    [simplify_eq; by rewrite (Hs _ _ E), Er, Eb|].
  destruct (Ascii.eqb c ",") eqn:Ec;
    [|simplify_eq; by rewrite (Hs _ _ E), Er, Eb, Ec].
  destruct (al_r (skip_ws r1) n1) as [o2 n2] eqn:E2.
  pose proof (Ma _ _ _ _ E2) as Hn2.
  assert (n2 = n) as -> by (destruct o2 as [[]| |]; simplify_eq; lia).
  assert (n1 = n) as -> by lia.
  rewrite (Hs _ _ E), Er, Eb, Ec, (Ha _ _ E2).
  destruct o2 as [[]| |]; by simplify_eq.
Qed.

Lemma JSONObject_step_without
    (so_r : string -> nat -> outcome (pyval * string) * nat)
    (ol_r : string -> list (string * pyval) -> nat
            -> outcome (pyval * string) * nat)
    (so_h : string -> St -> outcome (pyval * string) * St)
    (ol_h : string -> list (string * pyval) -> St
            -> outcome (pyval * string) * St)
    s pairs n o (st : St) :
  JSONObject_step record so_r ol_r s pairs n = (o, n) ->
  (forall x m o' m', so_r x m = (o', m') -> (m <= m')%nat) ->
  (forall x p m o' m', ol_r x p m = (o', m') -> (m <= m')%nat) ->
  (forall x o', so_r x n = (o', n) -> so_h x st = (o', st)) ->
  (forall x p o', ol_r x p n = (o', n) -> ol_h x p st = (o', st)) ->
  JSONObject_step hook so_h ol_h s pairs st = (o, st).
Proof.
  unfold JSONObject_step, record. intros HR Ms Mo Hs Ho.
  destruct (scanstring s) as [[key r0]| |] eqn:Ek; try by simplify_eq.
  destruct (skip_ws r0) as [|c r1] eqn:Er; [by simplify_eq|].
  destruct (Ascii.eqb c ":"); [|by simplify_eq].
  destruct (so_r (skip_ws r1) n) as [[[value r2]|e|] n1] eqn:E;
    try (simplify_eq; by rewrite (Hs _ _ E)).
  pose proof (Ms _ _ _ _ E) as Hn1.
  destruct (skip_ws r2) as [|c2 r3] eqn:Er2;
    [simplify_eq; by rewrite (Hs _ _ E), Er2|].
  destruct (Ascii.eqb c2 "}") eqn:Eb; [simplify_eq; lia|].
  destruct (Ascii.eqb c2 ",") eqn:Ec;
    [|simplify_eq; by rewrite (Hs _ _ E), Er2, Eb, Ec].
  destruct (skip_ws r3) as [|c3 r4] eqn:Er3;
    [simplify_eq; by rewrite (Hs _ _ E), Er2, Eb, Ec, Er3|].
  destruct (Ascii.eqb c3 dquote) eqn:Eq;
    [|simplify_eq; by rewrite (Hs _ _ E), Er2, Eb, Ec, Er3, Eq].
  pose proof (Mo _ _ _ _ _ HR) as Hn2.
  assert (n1 = n) as -> by lia.
  by rewrite (Hs _ _ E), Er2, Eb, Ec, Er3, Eq, (Ho _ _ _ HR).
Qed.

Lemma without_calls f :
  (forall s n o (st : St),
      scan_once record f s n = (o, n) -> scan_once hook f s st = (o, st)) /\
  (forall s n o (st : St),
      array_loop record f s n = (o, n) -> array_loop hook f s st = (o, st)) /\
  (forall s pairs n o (st : St),
      object_loop record f s pairs n = (o, n) ->
      object_loop hook f s pairs st = (o, st)).
Proof.
  induction f as [|f (IHs & IHa & IHo)].
  { repeat split; intros; cbn in *; by simplify_eq. }
  destruct (calls_grow f) as (Ms & Ma & Mo).
  split; [|split].
  - intros s n o st. rewrite !scan_once_S. intros HR.
    eapply scan_value_without; [exact HR| |].
    + intros x o' Hx. eapply JSONObject_with_without; [exact Hx|].
      intros; by eapply IHo.
    + intros x o' Hx. eapply JSONArray_with_without; [exact Hx|].
      intros; by eapply IHa.
  - intros s n o st. rewrite !array_loop_S. intros HR.
    eapply JSONArray_step_without; [exact HR| | | |]; eauto.
  - intros s pairs n o st. rewrite !object_loop_S. intros HR.
    eapply JSONObject_step_without; [exact HR| | | |]; eauto.
    intros x p m o' m' Hx. by apply Mo in Hx as [? _].
Qed.

(** *** A text of one object

    is read with one call of the hook, at its end. *)

Lemma JSONObject_step_one
    (so_r : string -> nat -> outcome (pyval * string) * nat)
    (ol_r : string -> list (string * pyval) -> nat
            -> outcome (pyval * string) * nat)
    (so_h : string -> St -> outcome (pyval * string) * St)
    (ol_h : string -> list (string * pyval) -> St
            -> outcome (pyval * string) * St)
    s pairs n v r :
  JSONObject_step record so_r ol_r s pairs n = (Return (v, r), S n) ->
  (forall x m o' m', so_r x m = (o', m') -> (m <= m')%nat) ->
  (forall x p m v' r' m',
      ol_r x p m = (Return (v', r'), m') -> (m < m')%nat) ->
  (forall x o' (st : St), so_r x n = (o', n) -> so_h x st = (o', st)) ->
  (forall x p v' r',
      ol_r x p n = (Return (v', r'), S n) ->
      exists d, v' = PObj 0 d /\
                forall st : St, ol_h x p st = hooked d r' st) ->
  exists d, v = PObj 0 d /\
            forall st : St,
              JSONObject_step hook so_h ol_h s pairs st = hooked d r st.
Proof.
  unfold JSONObject_step. intros HR Ms Mo Hs Ho.
  destruct (scanstring s) as [[key r0]| |] eqn:Ek; try done.
  destruct (skip_ws r0) as [|c r1] eqn:Er; [done|].
  destruct (Ascii.eqb c ":"); [|done].
  destruct (so_r (skip_ws r1) n) as [[[value r2]|e|] n1] eqn:E; try done.
  pose proof (Ms _ _ _ _ E) as Hn1.
  destruct (skip_ws r2) as [|c2 r3] eqn:Er2; [done|].
  destruct (Ascii.eqb c2 "}") eqn:Eb.
  - unfold record in HR. simplify_eq. eexists. split; [done|].
    intros st. by rewrite (Hs _ _ st E), Er2, Eb.
  - destruct (Ascii.eqb c2 ",") eqn:Ec; [|done].
    destruct (skip_ws r3) as [|c3 r4] eqn:Er3; [done|].
    destruct (Ascii.eqb c3 dquote) eqn:Eq; [|done].
    pose proof (Mo _ _ _ _ _ _ HR) as Hn2.
    assert (n1 = n) as -> by lia.
    destruct (Ho _ _ _ _ HR) as (d & -> & Hd).
    exists d. split; [done|].
    intros st. by rewrite (Hs _ _ st E), Er2, Eb, Ec, Er3, Eq.
Qed.

Lemma object_loop_one f s pairs n v r :
  object_loop record f s pairs n = (Return (v, r), S n) ->
  exists d, v = PObj 0 d /\
            forall st : St, object_loop hook f s pairs st = hooked d r st.
Proof.
  revert s pairs n v r. induction f as [|f IH]; intros s pairs n v r; [done|].
  rewrite object_loop_S. intros HR.
  destruct (calls_grow f) as (Ms & _ & Mo).
  destruct (JSONObject_step_one _ _ (scan_once hook f) (object_loop hook f)
              _ _ _ _ _ HR Ms) as (d & -> & Hd).
  - intros x p m v' r' m' Hx. apply Mo in Hx as [_ Hx]. by eapply Hx.
  - intros x o' st. apply (without_calls f).
  - intros x p v' r'. apply IH.
  - exists d. split; [done|]. intros st. rewrite object_loop_S. apply Hd.
Qed.

Lemma scan_once_one f s n d r :
  scan_once record f s n = (Return (PObj 0 d, r), S n) ->
  forall st : St, scan_once hook f s st = hooked d r st.
Proof.
  destruct f as [|f]; [done|]. rewrite scan_once_S. intros HR st.
  rewrite scan_once_S. unfold scan_value in *.
  destruct s as [|c s]; [done|].
  destruct (Ascii.eqb c dquote).
  { destruct (scanstring s) as [[]| |]; cbn in HR; simplify_eq; lia. }
  destruct (Ascii.eqb c "{").
  { unfold JSONObject_with, record in *.
    destruct (skip_ws s) as [|c1 s1]; [done|].
    destruct (Ascii.eqb c1 "}"); [by simplify_eq|].
    destruct (Ascii.eqb c1 dquote); [|done].
    apply object_loop_one in HR as (d' & [= <-] & Hd). apply Hd. }
  destruct (Ascii.eqb c "[").
  { unfold JSONArray_with in HR. repeat case_match; simplify_eq. }
  repeat case_match; simplify_eq; lia.
Qed.

(** [loads] on a text of one object calls the hook on the object, and
    what the hook answers is what [loads] answers. *)
Lemma loads_object text d (st : St) :
  object_of text d ->
  loads hook text st = hook d st.
Proof.
  unfold object_of, loads.
  destruct (scan_once record _ _ 0%nat) as [[[obj r]|e|] n'] eqn:E; try done.
  destruct (skip_ws r) eqn:Er; [|done]. intros [= -> ->].
  rewrite (scan_once_one _ _ _ _ _ E st).
  destruct (hook d st) as [[o|e|] st']; by rewrite ?Er.
Qed.

(** When more follows the object, [loads] has called the hook before it
    finds that out: the decode error comes with the state that the hook
    has left, unless the hook has failed itself. *)
Lemma loads_object_then text d rest (st : St) :
  raw_decode record text 0%nat = (Return (PObj 0%nat d, rest), 1%nat) ->
  skip_ws rest <> EmptyString ->
  loads hook text st
  = match hook d st with
    | (Return _, st') => (Raise JSONDecodeError, st')
    | other => other
    end.
Proof.
  unfold raw_decode, loads. intros E Hrest.
  rewrite (scan_once_one _ _ _ _ _ E st).
  destruct (hook d st) as [[o|e|] st']; try done.
  by destruct (skip_ws rest).
Qed.

(** [loads] on a text in which no object is closed answers the same
    whatever the hook, and leaves the state of the hook as it is. *)
Lemma loads_without text o (st : St) :
  loads record text 0%nat = (o, 0%nat) ->
  loads hook text st = (o, st).
Proof.
  unfold loads.
  destruct (scan_once record _ _ 0%nat) as [o1 n1] eqn:E.
  pose proof (proj1 (calls_grow _) _ _ _ _ E) as Hn.
  intros HR. assert (n1 = 0%nat) as ->.
  { destruct o1 as [[obj r]|e|]; [destruct (skip_ws r)| |]; by simplify_eq. }
  rewrite (proj1 (without_calls _) _ _ _ st E).
  destruct o1 as [[obj r]|e|]; [destruct (skip_ws r)| |]; by simplify_eq.
Qed.
End Replay.

(** What is read without a call of the hook has no instance in it. *)
Lemma without_calls_native f :
  (forall s n v r,
      scan_once record f s n = (Return (v, r), n) -> json_native v = true) /\
  (forall s n vs r,
      array_loop record f s n = (Return (vs, r), n) ->
      forallb json_native vs = true).
Proof.
  induction f as [|f (IHs & IHa)]; [by split|].
  destruct (calls_grow f) as (Ms & Ma & Mo).
  split.
  - intros s n v r. rewrite scan_once_S.
    unfold scan_value, JSONObject_with, JSONArray_with, record.
    repeat case_match; intros HR; simplify_eq; try done; try lia.
    + destruct (scanstring _) as [[]| |]; cbn in *; by simplify_eq.
    + match goal with
      | H : object_loop _ _ _ _ _ = _ |- _ =>
          apply Mo in H as [_ H]; specialize (H _ eq_refl); lia
      end.
    + cbn. eauto.
    + unfold match_number in *. repeat case_match; by simplify_eq.
  - intros s n vs r. rewrite array_loop_S. unfold JSONArray_step.
    repeat case_match; intros HR; simplify_eq.
    + cbn. rewrite andb_true_r. eauto.
    + match goal with
      | H1 : scan_once _ _ _ _ = _, H2 : array_loop _ _ _ _ = _ |- _ =>
          pose proof (Ms _ _ _ _ H1); pose proof (Ma _ _ _ _ H2)
      end.
      match goal with
      | H : (n <= ?m)%nat |- _ => assert (m = n) as -> by lia
      end.
      cbn. apply andb_true_iff. eauto.
Qed.

(** What the encoder writes with a blank indentation for a dictionary
    of JSON values is a text of one object, and reads as the
    dictionary. *)
Lemma dumps_object_of indent default (d : pydict) text :
  blank_unit indent = true ->
  NoDup (map fst d) ->
  Forall (fun kv => json_native (snd kv) = true) d ->
  encode indent default d = Return text ->
  object_of text d.
Proof.
  intros Hb Hnd Hd Ht. unfold object_of.
  rewrite (loads_dumps record indent default Hb d text 0%nat Ht).
  rewrite JsonDocuments.decoded_items_native by done.
  by rewrite JsonDocuments.dict_of_pairs_NoDup.
Qed.
End Objects.

(** ** [from_json] on texts of every kind *)

Module FromJson.
Import Json ExportProfile.

(** X1. [from_json] on a text that is one JSON object is the call of the
    class on the keys of the object: the same answer or exception, and
    the same registry afterwards. *)
Theorem from_json_is_the_constructor_call
    (text : string) (d : pydict) (st : state) :
  object_of text d ->
  from_json text st = new d st.
Proof. intros Hd. unfold from_json, _decode. by apply Objects.loads_object. Qed.

Lemma from_json_is_the_constructor_call_witness :
  from_json Samples.document_text initial = new Samples.document initial.
Proof.
  apply (from_json_is_the_constructor_call
           Samples.document_text Samples.document initial).
  vm_compute. reflexivity.
Defined.

(** X2. A text in which no object is closed never reaches the
    constructor: [from_json] answers as plain [json.loads] does, with a
    value of the JSON types when it returns, and the registry and the
    identities are as they were. *)
Theorem from_json_without_object
    (text : string) (o : outcome pyval) (st : state) :
  loads record text 0%nat = (o, 0%nat) ->
  from_json text st = (o, st) /\
  (forall v, o = Return v -> json_native v = true).
Proof.
  intros HR. split; [by apply Objects.loads_without|].
  intros v ->. unfold loads in HR.
  destruct (scan_once record _ _ 0%nat) as [[[obj r]|e|] n1] eqn:E;
    try done.
  destruct (skip_ws r); simplify_eq.
  by apply (proj1 (Objects.without_calls_native _) _ _ _ _ E).
Qed.

Lemma from_json_without_object_witness :
  from_json (quoted "['gravity', 6, null]") Samples.registered
  = (Return (PList [PStr "gravity"; PInt 6; PNone]), Samples.registered) /\
  (forall v, Return (PList [PStr "gravity"; PInt 6; PNone]) = Return v ->
             json_native v = true).
Proof.
  apply (from_json_without_object (quoted "['gravity', 6, null]")
           (Return (PList [PStr "gravity"; PInt 6; PNone]))
           Samples.registered).
  vm_compute. reflexivity.
Defined.

(** X3. When the text goes on after a profile document, [from_json]
    raises the decode error, and the profile of the document is in the
    registry all the same: the constructor has run before the decoder
    sees what follows. *)
Theorem from_json_extra_data
    (text rest : string) (d : pydict) (n : string) (st : state) :
  raw_decode record text 0%nat = (Return (PObj 0%nat d, rest), 1%nat) ->
  skip_ws rest <> EmptyString ->
  profile_document d n ->
  exists p st',
    from_json text st = (Raise JSONDecodeError, st') /\
    getattr p "name" = Some (PStr n) /\
    dict_get key_eqb (__profiles st') (PStr n) = Some p.
Proof.
  intros Hraw Hrest Hdoc. unfold from_json.
  rewrite (Objects.loads_object_then _decode text d rest st Hraw Hrest).
  unfold _decode. rewrite (ExportProfileJson.new_document d n st Hdoc).
  eexists _, _. split; [reflexivity|]. split; [|].
  2: { cbn [__profiles]. apply ExportProfileFacts.registry_set_str_lookup. }
  reflexivity.
Qed.

Lemma from_json_extra_data_witness :
  exists p st',
    from_json (Samples.document_text +:+ " ]") initial
    = (Raise JSONDecodeError, st') /\
    getattr p "name" = Some (PStr "gravity") /\
    dict_get key_eqb (__profiles st') (PStr "gravity") = Some p.
Proof.
  apply (from_json_extra_data (Samples.document_text +:+ " ]") " ]"
           Samples.document "gravity" initial).
  - vm_compute. reflexivity.
  - vm_compute. discriminate.
  - split; [|split; [|split]].
    + apply (bool_decide_unpack _). vm_compute. reflexivity.
    + unfold Samples.document, attributes.
      repeat (apply Forall_cons; split;
              [split; [set_solver | reflexivity]|]).
      apply Forall_nil_2.
    + reflexivity.
    + intros v [= <-]. reflexivity.
Defined.

(** X4. On the empty text, and on a text of white space only,
    [from_json] raises the decode error and changes nothing. *)
Theorem from_json_blank (text : string) (st : state) :
  skip_ws text = EmptyString ->
  from_json text st = (Raise JSONDecodeError, st).
Proof. intros Hb. unfold from_json, loads. by rewrite Hb. Qed.

Lemma from_json_blank_witness :
  from_json "  " Samples.registered
  = (Raise JSONDecodeError, Samples.registered).
Proof. apply (from_json_blank "  " Samples.registered). reflexivity. Defined.
End FromJson.

(** ** What the decoder keeps *)

Module Invariants.
Import Json JsonFacts.

Section Decoder.
Context {St : Type} (hook : pydict -> St -> outcome pyval * St).
Context (P : St -> Prop).
Hypothesis hook_keeps : forall d st, P st -> P (snd (hook d st)).

Local Ltac step IHs IHa IHo :=
  match goal with
  | H : hook ?d ?st = (_, ?st'), HP : P ?st |- _ =>
      let HQ := fresh "HQ" in
      pose proof (hook_keeps d st HP) as HQ; rewrite H in HQ;
      cbn [snd] in HQ; clear H
  | H : scan_once hook _ ?s ?st = (_, ?st'), HP : P ?st |- _ =>
      let HQ := fresh "HQ" in
      pose proof (IHs s st HP) as HQ; rewrite H in HQ;
      cbn [snd] in HQ; clear H
  | H : array_loop hook _ ?s ?st = (_, ?st'), HP : P ?st |- _ =>
      let HQ := fresh "HQ" in
      pose proof (IHa s st HP) as HQ; rewrite H in HQ;
      cbn [snd] in HQ; clear H
  | H : object_loop hook _ ?s ?p ?st = (_, ?st'), HP : P ?st |- _ =>
      let HQ := fresh "HQ" in
      pose proof (IHo s p st HP) as HQ; rewrite H in HQ;
      cbn [snd] in HQ; clear H
  end.

(** What every call of the hook keeps, the decoder keeps. *)
Lemma decoder_keeps f :
  (forall s st, P st -> P (snd (scan_once hook f s st))) /\
  (forall s st, P st -> P (snd (array_loop hook f s st))) /\
  (forall s pairs st, P st -> P (snd (object_loop hook f s pairs st))).
Proof.
  induction f as [|f (IHs & IHa & IHo)]; [by repeat split|].
  split; [|split].
  - intros s st HP. rewrite scan_once_S.
    unfold scan_value, JSONObject_with, JSONArray_with.
    repeat case_match; simplify_eq; cbn [snd]; repeat step IHs IHa IHo;
      try done; eauto.
  - intros s st HP. rewrite array_loop_S. unfold JSONArray_step.
    repeat case_match; simplify_eq; cbn [snd]; repeat step IHs IHa IHo;
      try done; eauto.
  - intros s pairs st HP. rewrite object_loop_S. unfold JSONObject_step.
    repeat case_match; simplify_eq; cbn [snd]; repeat step IHs IHa IHo;
      try done; eauto.
Qed.

Lemma loads_keeps text st : P st -> P (snd (loads hook text st)).
Proof.
  intros HP. unfold loads.
  destruct (scan_once hook _ _ st) as [o st'] eqn:E.
  pose proof (proj1 (decoder_keeps (S (S (2 * String.length text))))
                (skip_ws text) st HP) as HQ.
  rewrite E in HQ. by repeat case_match.
Qed.
End Decoder.
End Invariants.

(** ** The registry under any calls *)

Module RegistryFacts.
Import ExportProfile Registry ExportProfileFacts.

Lemma key_eqb_sym a b : key_eqb a b = key_eqb b a.
Proof.
  destruct a as [| x | x | x | x | [] | i ?], b as [| y | y | y | y | [] | j ?];
    cbn; try done.
  - by destruct x, y.
  - apply Z.eqb_sym.
  - apply String.eqb_sym.
  - apply Nat.eqb_sym.
Qed.

Lemma key_eqb_trans a b c :
  key_eqb a b = true -> key_eqb b c = true -> key_eqb a c = true.
Proof.
  destruct a as [| x | x | x | x | [] | i ?], b as [| y | y | y | y | [] | j ?],
           c as [| z | z | z | z | [] | k ?];
    cbn; try done;
    rewrite ?Z.eqb_eq, ?String.eqb_eq, ?Nat.eqb_eq, ?eqb_true_iff;
    try congruence; try (destruct x, y; (done || lia));
    try (destruct y, z; (done || lia)); try (destruct x, z; (done || lia)).
  all: try (destruct x; lia). all: try (destruct y; lia).
Qed.

Lemma register_step profile st :
  registry_step (__profiles st) (__profiles (snd (register profile st))).
Proof.
  unfold register.
  destruct (getattr profile "name") as [name|] eqn:Hn; [|by left].
  destruct (hashable name) eqn:Hh; [|by left].
  right. by exists name, profile.
Qed.

Lemma __init___step self name columns ext precision dateformat _userprofile
    register_ st :
  registry_step (__profiles st)
    (__profiles (snd (__init__ self name columns ext precision dateformat
                        _userprofile register_ st))).
Proof.
  unfold __init__.
  destruct (match dateformat with
            | PStr s => olift PEnum (TimeFormat_of_value s)
            | _ => Return dateformat
            end) as [df|e|]; [|by left|by left].
  destruct (truthy register_); [|by left].
  match goal with
  | |- context [register ?obj st] => pose proof (register_step obj st) as Hs
  end.
  by destruct (register _ st) as [[[]|e|] st'].
Qed.

Lemma new_step kwargs st :
  registry_step (__profiles st) (__profiles (snd (new kwargs st))).
Proof.
  unfold new.
  destruct (forallb _ kwargs); [|by left].
  destruct (dict_get String.eqb kwargs "name") as [name|]; [|by left].
  match goal with
  | |- context [__init__ ?a ?b ?c ?d ?e ?f ?g ?h ?st1] =>
      apply (__init___step a b c d e f g h st1)
  end.
Qed.

Lemma copy_step self st :
  registry_step (__profiles st) (__profiles (snd (copy self st))).
Proof.
  unfold copy. destruct (__dict__ self) as [d|e|]; [|by left|by left].
  apply new_step.
Qed.

Section Kept.
(** A property of the registry that no change of one entry breaks. *)
Context (Q : list (pyval * pyval) -> Prop).
Hypothesis Q_step : forall r r', Q r -> registry_step r r' -> Q r'.

Lemma from_json_kept value st :
  Q (__profiles st) -> Q (__profiles (snd (from_json value st))).
Proof.
  unfold from_json.
  apply (Invariants.loads_keeps _decode (fun st => Q (__profiles st))).
  intros d st0 HQ. eapply Q_step; [exact HQ|]. apply new_step.
Qed.

Lemma after_kept c st : Q (__profiles st) -> Q (__profiles (after c st)).
Proof.
  intros HQ. destruct c as [p|kwargs|p|value]; cbn [after].
  - eapply Q_step; [exact HQ|]. apply register_step.
  - eapply Q_step; [exact HQ|]. apply new_step.
  - eapply Q_step; [exact HQ|]. apply copy_step.
  - by apply from_json_kept.
Qed.

Lemma after_all_kept cs st :
  Q (__profiles st) -> Q (__profiles (after_all cs st)).
Proof.
  revert st. induction cs as [|c cs IH]; intros st HQ; [done|].
  cbn [after_all fold_left]. apply IH. by apply after_kept.
Qed.
End Kept.

(** Setting an entry keeps the keys different from each other. *)
Lemma dict_set_distinct (r : list (pyval * pyval)) name obj :
  (forall k, (key_count key_eqb (dict_keys r) k <= 1)%nat) ->
  hashable name = true ->
  forall k, (key_count key_eqb (dict_keys (dict_set key_eqb r name obj)) k
             <= 1)%nat.
Proof.
  intros Hr Hh k. rewrite dict_keys_set.
  destruct (existsb _ _) eqn:E; [apply Hr|].
  rewrite key_count_app, key_count_cons. cbn.
  destruct (key_eqb name k) eqn:Ek; [|specialize (Hr k); lia].
  rewrite key_count_not_existsb; [lia|].
  apply not_true_is_false. intros Hex.
  apply existsb_exists in Hex as (k' & Hin & Hk').
  assert (existsb (fun k' => key_eqb k' name) (dict_keys r) = true) as Hc.
  { apply existsb_exists. exists k'. split; [done|].
    eapply key_eqb_trans; [exact Hk'|]. by rewrite key_eqb_sym. }
  congruence.
Qed.

Lemma dict_set_keyed (r : list (pyval * pyval)) name obj :
  Forall (fun kp => exists n, getattr (snd kp) "name" = Some n /\
                              key_eqb (fst kp) n = true) r ->
  getattr obj "name" = Some name -> hashable name = true ->
  Forall (fun kp => exists n, getattr (snd kp) "name" = Some n /\
                              key_eqb (fst kp) n = true)
         (dict_set key_eqb r name obj).
Proof.
  intros Hr Hn Hh. induction r as [|[k v] r IH]; cbn [dict_set].
  - apply Forall_cons. split; [|done]. exists name. split; [done|].
    by apply key_eqb_refl.
  - apply Forall_cons in Hr as [Hk Hr].
    destruct (key_eqb k name) eqn:E.
    + apply Forall_cons. split; [|done]. by exists name.
    + apply Forall_cons. split; [done | by apply IH].
Qed.

(** X5. Whatever calls are made of [register], the constructor, [copy]
    and [from_json], and whether they return or raise, the registry
    never has two entries under equal names, and every profile in it is
    under its own name. *)
Theorem registry_invariant (cs : list call) :
  distinct_names (after_all cs initial) /\
  keyed_by_name (after_all cs initial).
Proof.
  unfold distinct_names, keyed_by_name, names.
  apply (after_all_kept
           (fun r =>
              (forall k, (key_count key_eqb (dict_keys r) k <= 1)%nat) /\
              Forall (fun kp => exists n, getattr (snd kp) "name" = Some n /\
                                          key_eqb (fst kp) n = true) r)).
  - intros r r' [Hd Hk] [->|(name & obj & Hn & Hh & ->)]; [done|].
    split; [by apply dict_set_distinct | by apply dict_set_keyed].
  - split; [intros k; cbn; lia | apply Forall_nil_2].
Qed.

(** X6. No call takes a name out of the registry or moves it: what
    [names()] yields before a run of calls is the beginning of what it
    yields afterwards. *)
Theorem names_are_kept (cs : list call) (st : state) :
  names st `prefix_of` names (after_all cs st).
Proof.
  unfold names.
  apply (after_all_kept
           (fun r => dict_keys (__profiles st) `prefix_of` dict_keys r));
    [|done].
  intros r r' Hr [->|(name & obj & Hn & Hh & ->)]; [done|].
  rewrite dict_keys_set. destruct (existsb _ _); [done|].
  etrans; [exact Hr|]. by apply prefix_app_r.
Qed.
End RegistryFacts.

(** ** What the constructor makes *)

Module ConstructorFacts.
Import ExportProfile.

(** X7. A call of the constructor that raises, or that is told not to
    register, leaves the registry as it was. *)
Theorem constructor_keeps_registry (kwargs : pydict) (st : state) :
  truthy (arg kwargs "register" (PBool true)) = false \/
  (exists e, fst (new kwargs st) = Raise e) ->
  __profiles (snd (new kwargs st)) = __profiles st.
Proof.
  unfold new.
  destruct (forallb _ kwargs); [|done].
  destruct (dict_get String.eqb kwargs "name") as [name|]; [|done].
  unfold __init__.
  destruct (match arg kwargs "dateformat" (PEnum ISO8601) with
            | PStr s => olift PEnum (TimeFormat_of_value s)
            | _ => Return (arg kwargs "dateformat" (PEnum ISO8601))
            end) as [df|e|]; [|done|done].
  destruct (truthy (arg kwargs "register" (PBool true))); [|done].
  unfold register. cbn [getattr dict_get]. rewrite String.eqb_refl.
  destruct (hashable name); [|done].
  cbn [fst]. by intros [|[e ?]].
Qed.

Lemma constructor_keeps_registry_witness :
  __profiles (snd (new [("name", PStr "gravity"); ("register", PBool false)]
                     Samples.registered))
  = __profiles Samples.registered.
Proof.
  apply (constructor_keeps_registry
           [("name", PStr "gravity"); ("register", PBool false)]
           Samples.registered).
  left. reflexivity.
Defined.

(** The instance that the constructor returns, and what the call has
    done to the state. *)
Lemma new_shape (kwargs : pydict) (st st' : state) (p : pyval) :
  new kwargs st = (Return p, st') ->
  exists name c e pr df u,
    p = PObj (next_oid st)
          [("name", name); ("columns", c); ("ext", e); ("precision", pr);
           ("dateformat", df); ("_userprofile", u)] /\
    (truthy c = true \/ c = PList []) /\
    (forall s, df <> PStr s) /\
    next_oid st' = S (next_oid st) /\
    (__profiles st' = __profiles st \/
     hashable name = true /\
     __profiles st' = dict_set key_eqb (__profiles st) name p).
Proof.
  unfold new.
  destruct (forallb _ kwargs); [|done].
  destruct (dict_get String.eqb kwargs "name") as [name|]; [|done].
  unfold __init__.
  set (columns := arg kwargs "columns" PNone).
  destruct (match arg kwargs "dateformat" (PEnum ISO8601) with
            | PStr s => olift PEnum (TimeFormat_of_value s)
            | _ => Return (arg kwargs "dateformat" (PEnum ISO8601))
            end) as [df|e|] eqn:Hdf; [|done|done].
  assert (forall s, df <> PStr s) as Hstr.
  { intros s ->.
    destruct (arg kwargs "dateformat" (PEnum ISO8601)); simplify_eq.
    unfold TimeFormat_of_value in Hdf. by case_match. }
  assert (truthy (if truthy columns then columns else PList []) = true \/
          (if truthy columns then columns else PList []) = PList []) as Hc.
  { destruct (truthy columns) eqn:E; auto. }
  destruct (truthy (arg kwargs "register" (PBool true))).
  - unfold register. cbn [getattr dict_get]. rewrite String.eqb_refl.
    destruct (hashable name) eqn:Hh; [|done]. intros [= <- <-].
    eexists _, _, _, _, _, _. split; [reflexivity|]. cbn.
    repeat split; auto.
  - intros [= <- <-].
    eexists _, _, _, _, _, _. split; [reflexivity|]. cbn.
    repeat split; auto.
Qed.

(** X8. An instance that the constructor returns is a new one with the
    six attributes in the order of their assignment. Its [columns] is
    true or the empty list, never [None], and its [dateformat] is never
    a string: a string has been replaced by the member of that value. *)
Theorem constructed_instance
    (kwargs : pydict) (st st' : state) (p : pyval) :
  new kwargs st = (Return p, st') ->
  exists attrs,
    p = PObj (next_oid st) attrs /\
    map fst attrs = attributes /\
    (exists c, dict_get String.eqb attrs "columns" = Some c /\
               (truthy c = true \/ c = PList [])) /\
    (forall s, dict_get String.eqb attrs "dateformat" <> Some (PStr s)) /\
    next_oid st' = S (next_oid st).
Proof.
  intros Hnew.
  apply new_shape in Hnew
    as (name & c & e & pr & df & u & -> & Hc & Hdf & Hoid & _).
  eexists. split; [reflexivity|]. split; [reflexivity|].
  split; [by exists c|]. split; [|done].
  intros s [= E]. by apply (Hdf s).
Qed.

Lemma constructed_instance_witness :
  exists attrs,
    PObj 0 [("name", PStr "gravity"); ("columns", PList []);
            ("ext", PStr "dat"); ("precision", PInt 10);
            ("dateformat", PEnum ISO8601); ("_userprofile", PBool true)]
    = PObj (next_oid initial) attrs /\
    map fst attrs = attributes /\
    (exists c, dict_get String.eqb attrs "columns" = Some c /\
               (truthy c = true \/ c = PList [])) /\
    (forall s, dict_get String.eqb attrs "dateformat" <> Some (PStr s)) /\
    next_oid {| next_oid := 1;
                __profiles :=
                  [(PStr "gravity",
                    PObj 0 [("name", PStr "gravity"); ("columns", PList []);
                            ("ext", PStr "dat"); ("precision", PInt 10);
                            ("dateformat", PEnum ISO8601);
                            ("_userprofile", PBool true)])] |}
    = S (next_oid initial).
Proof.
  apply (constructed_instance
           [("name", PStr "gravity"); ("columns", PNone);
            ("dateformat", PStr "%Y-%m-%dT%H:%M:%S.%f%z")] initial).
  vm_compute. reflexivity.
Defined.

(** X9. [copy] of an instance that the constructor has returned, with
    a name that can be hashed, returns a new instance with the same
    attributes and registers it under the name: the constructor makes
    nothing else of what it has made itself. *)
Theorem copy_of_constructed
    (kwargs : pydict) (st0 st1 st : state) (p n : pyval) :
  new kwargs st0 = (Return p, st1) ->
  getattr p "name" = Some n ->
  hashable n = true ->
  exists attrs p' st',
    p = PObj (next_oid st0) attrs /\
    p' = PObj (next_oid st) attrs /\
    copy p st = (Return p', st') /\
    dict_get key_eqb (__profiles st') n = Some p'.
Proof.
  intros Hnew Hn Hh.
  apply new_shape in Hnew
    as (name & c & e & pr & df & u & -> & Hc & Hdf & _).
  cbn in Hn. injection Hn as ->.
  eexists _, _, _. split; [reflexivity|]. split; [reflexivity|].
  unfold copy, new. cbn [__dict__ forallb fst is_parameter existsb orb andb
                           parameters String.eqb Ascii.eqb Bool.eqb].
  cbn. unfold __init__.
  assert ((if truthy c then c else PList []) = c) as ->.
  { destruct Hc as [-> | ->]; done. }
  assert (match df with
          | PStr s => olift PEnum (TimeFormat_of_value s)
          | _ => Return df
          end = Return df) as ->.
  { destruct df; try done. by destruct (Hdf s). }
  cbn [truthy]. unfold register. cbn [getattr dict_get].
  rewrite String.eqb_refl, Hh.
  split; [reflexivity|]. cbn [__profiles].
  apply dict_get_set_eq. by apply ExportProfileFacts.key_eqb_refl.
Qed.

Lemma copy_of_constructed_witness :
  exists attrs p' st',
    PObj 0 [("name", PInt 7); ("columns", PList []);
            ("ext", PNone); ("precision", PInt 10);
            ("dateformat", PEnum ISO8601); ("_userprofile", PBool true)]
    = PObj (next_oid initial) attrs /\
    p' = PObj (next_oid Samples.registered) attrs /\
    copy (PObj 0 [("name", PInt 7); ("columns", PList []);
                  ("ext", PNone); ("precision", PInt 10);
                  ("dateformat", PEnum ISO8601);
                  ("_userprofile", PBool true)])
      Samples.registered
    = (Return p', st') /\
    dict_get key_eqb (__profiles st') (PInt 7) = Some p'.
Proof.
  apply (copy_of_constructed
           [("name", PInt 7); ("ext", PNone); ("register", PBool false)]
           initial {| next_oid := 1; __profiles := [] |}
           Samples.registered).
  - vm_compute. reflexivity.
  - reflexivity.
  - reflexivity.
Defined.
End ConstructorFacts.

(** ** What [to_json] writes *)

Module ToJsonFacts.
Import Json JsonFacts JsonDocuments ExportProfile.

Lemma decoded_is_native v : json_native (decoded _encode v) = true.
Proof.
  induction v as [| b | z | s | l IH | e | i a] using pyval_ind;
    cbn [json_native decoded _encode]; try done.
  induction IH as [|x l Hx _ IHl]; [done|].
  cbn [map forallb]. by rewrite Hx, IHl.
Qed.

(** An object that is no JSON value is written as what [_encode] makes
    of it. *)
Lemma iterencode_decoded indent v :
  forall level,
    iterencode indent _encode level (decoded _encode v)
    = iterencode indent _encode level v.
Proof.
  induction v as [| b | z | s | l IH | e | i a] using pyval_ind;
    cbn [decoded _encode]; try done; intros level.
  destruct l as [|x l]; [done|].
  apply Forall_cons in IH as [Hx Hl]. cbn [map iterencode].
  rewrite Hx. f_equal.
  assert (forall sep,
             iterencode_rest (iterencode indent _encode (S level)) sep
               (map (decoded _encode) l)
             = iterencode_rest (iterencode indent _encode (S level)) sep l)
    as ->; [|done].
  intros sep. induction Hl as [|y l Hy _ IHl]; [done|].
  cbn [map iterencode_rest]. by rewrite Hy, IHl.
Qed.

Lemma iterencode_items_decoded indent level (d : pydict) :
  iterencode_items indent _encode level (decoded_items _encode d)
  = iterencode_items indent _encode level d.
Proof.
  induction d as [|[k v] d IH]; [done|].
  cbn [decoded_items map fst snd iterencode_items].
  unfold decoded_items in IH. by rewrite iterencode_decoded, IH.
Qed.

Lemma dumps_decoded indent (d : pydict) :
  encode indent _encode (decoded_items _encode d) = encode indent _encode d.
Proof.
  unfold encode, iterencode_dict. destruct d as [|[k v] d]; [done|].
  cbn [decoded_items map fst snd].
  rewrite iterencode_decoded.
  pose proof (iterencode_items_decoded indent 1 d) as E.
  unfold decoded_items in E. by rewrite E.
Qed.

Lemma decoded_items_are_native (d : pydict) :
  Forall (fun kv => json_native (snd kv) = true) (decoded_items _encode d).
Proof.
  unfold decoded_items. apply Forall_map, Forall_forall.
  intros kv _. cbn. apply decoded_is_native.
Qed.

(** There is a text for every instance, the same as for the instance
    with its attributes replaced, whenever the [indent] is one that the
    encoder takes. *)
Lemma to_json_text (oid : nat) (attrs : pydict) (indent : pyval) u :
  indent_string indent = Return u ->
  exists text,
    encode u _encode attrs = Return text /\
    to_json (PObj oid attrs) indent = Return text /\
    to_json (PObj oid (decoded_items _encode attrs)) indent = Return text.
Proof.
  intros Hu.
  destruct (dumps_native u _encode (decoded_items _encode attrs))
    as [text Htext]; [apply decoded_items_are_native|].
  exists text. cbn [to_json __dict__ obind]. unfold dumps.
  rewrite Hu. cbn [obind]. by rewrite <- dumps_decoded.
Qed.



Lemma map_PStr_inj (l1 l2 : list string) :
  map PStr l1 = map PStr l2 -> l1 = l2.
Proof.
  revert l2. induction l1 as [|x l1 IH]; intros [|y l2]; try done.
  cbn. intros [= -> E]. f_equal. by apply IH.
Qed.

(** X11. Two profiles for which [to_json] writes the same text agree in
    every field, whether the text is written without an [indent], as by
    default, or with a number or a blank string for it. *)
Theorem to_json_injective
    (oid1 oid2 : nat) (f1 f2 : fields) (indent1 indent2 : pyval)
    (text : string) :
  blank_indent indent1 = true ->
  blank_indent indent2 = true ->
  to_json (instance oid1 f1) indent1 = Return text ->
  to_json (instance oid2 f2) indent2 = Return text ->
  f1 = f2.
Proof.
  rewrite !ExportProfileJson.dumps_instance. intros Hb1 Hb2 H1 H2.
  assert (forall f indent,
             blank_indent indent = true ->
             dumps indent _encode (document_of f) = Return text ->
             object_of text (document_of f)) as Hobj.
  { intros f indent Hb Hf.
    destruct (indent_string_blank indent Hb) as (u & Hu & Hbu).
    unfold dumps in Hf. rewrite Hu in Hf. cbn [obind] in Hf.
    destruct (ExportProfileJson.document_of_profile_document f)
      as (Hnd & Hd & _).
    eapply Objects.dumps_object_of; [exact Hbu|exact Hnd| |exact Hf].
    eapply Forall_impl; [exact Hd|]. by intros kv [_ ?]. }
  apply Hobj in H1, H2; [|done|done].
  unfold object_of in *. rewrite H1 in H2.
  destruct f1 as [n1 c1 e1 p1 [] u1], f2 as [n2 c2 e2 p2 [] u2].
  unfold document_of in H2. cbn in H2.
  injection H2 as -> Hc -> -> ->. apply map_PStr_inj in Hc as ->. done.
Qed.

Lemma to_json_injective_witness : Samples.gravity = Samples.gravity.
Proof.
  apply (to_json_injective 0 1 Samples.gravity Samples.gravity PNone PNone
           (quoted
              "{'name': 'gravity', 'columns': ['gravity', 'lat', 'long'], 'ext': 'csv', 'precision': 6, 'dateformat': '%Y-%m-%dT%H:%M:%S.%f%z', '_userprofile': false}")).
  - reflexivity.
  - reflexivity.
  - vm_compute. reflexivity.
  - vm_compute. reflexivity.
Defined.
End ToJsonFacts.

(** ** The characters of a text *)

Module AsciiFacts.
Import Json JsonFacts ExportProfile PlainText.

Lemma all_chars_app P a b :
  all_chars P (a +:+ b) = all_chars P a && all_chars P b.
Proof.
  induction a as [|c a IH]; [by rewrite app_nil_l|].
  rewrite app_cons. cbn [all_chars]. by rewrite IH, andb_assoc.
Qed.

Lemma all_chars_impl (P Q : ascii -> bool) s :
  (forall c, P c = true -> Q c = true) ->
  all_chars P s = true -> all_chars Q s = true.
Proof.
  intros HPQ. induction s as [|c s IH]; [done|]. cbn [all_chars].
  rewrite !andb_true_iff. intros [Hc Hs]. auto.
Qed.

Lemma printable_text_char indent c :
  printable c = true -> text_char indent c = true.
Proof. unfold text_char. by intros ->. Qed.

Lemma escape_char_printable c : all_chars printable (escape_char c) = true.
Proof. destruct c as [[] [] [] [] [] [] [] []]; vm_compute; reflexivity. Qed.

Lemma escape_printable s : all_chars printable (escape s) = true.
Proof.
  induction s as [|c s IH]; [done|]. cbn [escape].
  by rewrite all_chars_app, escape_char_printable, IH.
Qed.

Lemma encode_basestring_ascii_printable s :
  all_chars printable (encode_basestring_ascii s) = true.
Proof.
  unfold encode_basestring_ascii. cbn [all_chars].
  rewrite all_chars_app, escape_printable. reflexivity.
Qed.

Lemma string_of_uint_printable d :
  all_chars printable (NilEmpty.string_of_uint d) = true.
Proof. induction d; cbn [NilEmpty.string_of_uint all_chars]; by rewrite ?IHd. Qed.

Lemma intstr_printable z : all_chars printable (intstr z) = true.
Proof.
  unfold intstr, NilZero.string_of_int.
  destruct (Z.to_int z) as [d|d]; unfold NilZero.string_of_uint;
    destruct d; try reflexivity;
    cbn [all_chars]; try (rewrite andb_true_iff; split; [reflexivity|]);
    apply (string_of_uint_printable (_ _)).
Qed.

Lemma encode_scalar_printable o s :
  encode_scalar o = Some s -> all_chars printable s = true.
Proof.
  destruct o as [| [] | z | s' | l | e | i a]; cbn; intros [= <-]; try done.
  - apply intstr_printable.
  - apply encode_basestring_ascii_printable.
Qed.

Lemma spaces_printable n : all_chars printable (spaces n) = true.
Proof. induction n as [|n IH]; [done|]. cbn. exact IH. Qed.

Lemma all_chars_occurs u s :
  (forall c, occurs c s = true -> occurs c u = true) ->
  all_chars (fun c => occurs c u) s = true.
Proof.
  induction s as [|c s IH]; [done|]. intros Hs. cbn [all_chars].
  apply andb_true_iff. split.
  - apply Hs. cbn. by rewrite Ascii.eqb_refl.
  - apply IH. intros c' Hc'. apply Hs. cbn. rewrite Hc'. apply orb_true_r.
Qed.

Lemma newline_indent_text indent level :
  all_chars (text_char indent) (newline_indent indent level) = true.
Proof.
  destruct indent as [u|]; [|done]. cbn [newline_indent all_chars].
  apply andb_true_iff. split; [apply orb_true_r|].
  induction level as [|level IH]; [done|]. cbn [repeat_string].
  rewrite all_chars_app, IH, andb_true_r.
  eapply all_chars_impl; [|apply (all_chars_occurs u u); auto].
  intros c Hc. unfold text_char. rewrite Hc. by rewrite !orb_true_r.
Qed.

Lemma item_separator_text indent :
  all_chars (text_char indent) (item_separator indent) = true.
Proof. by destruct indent. Qed.

Section Encoder.
Variable indent : option string.
Variable default : pyval -> pyval.

Local Abbreviation ok t := (all_chars (text_char indent) t = true).

Local Ltac pieces :=
  rewrite ?all_chars_app, ?andb_true_iff;
  repeat split;
  try apply newline_indent_text; try apply item_separator_text;
  try (eapply all_chars_impl;
       [apply printable_text_char | apply encode_basestring_ascii_printable]);
  try done.

Lemma iterencode_text v :
  forall level t, iterencode indent default level v = Return t -> ok t.
Proof.
  induction v as [| b | z | s | l IH | e | i a] using pyval_ind;
    intros level t; cbn [iterencode].
  1-4, 6-7:
    destruct (encode_scalar _) as [s'|] eqn:E; intros [= <-];
    (eapply all_chars_impl;
     [apply printable_text_char | by eapply encode_scalar_printable]).
  destruct l as [|x l]; [by intros [= <-]|].
  apply Forall_cons in IH as [Hx Hl].
  destruct (iterencode indent default (S level) x) as [b| |] eqn:Eb;
    try done. cbn [obind].
  destruct (iterencode_rest _ _ l) as [r| |] eqn:Er; try done.
  cbn [obind]. intros [= <-].
  assert (ok r) as Hr.
  { clear Eb Hx. revert r Er.
    induction Hl as [|y l Hy _ IHl]; intros r; cbn [iterencode_rest].
    - by intros [= <-].
    - destruct (iterencode indent default (S level) y) as [c| |] eqn:Ec;
        try done. cbn [obind].
      destruct (iterencode_rest _ _ l) as [r'| |] eqn:Er'; try done.
      cbn [obind]. intros [= <-]. pieces; eauto. }
  pieces; eauto.
Qed.

Lemma iterencode_items_text level (d : pydict) :
  forall t, iterencode_items indent default level d = Return t -> ok t.
Proof.
  induction d as [|[k v] d IH]; intros t; cbn [iterencode_items].
  - by intros [= <-].
  - destruct (iterencode indent default level v) as [c| |] eqn:Ec; try done.
    cbn [obind].
    destruct (iterencode_items indent default level d) as [r| |]; try done.
    cbn [obind]. intros [= <-]. pieces; eauto using iterencode_text.
Qed.

Lemma dumps_text (d : pydict) t : encode indent default d = Return t -> ok t.
Proof.
  unfold encode, iterencode_dict. destruct d as [|[k v] d].
  - by intros [= <-].
  - destruct (iterencode indent default 1 v) as [c| |] eqn:Ec; try done.
    cbn [obind].
    destruct (iterencode_items indent default 1 d) as [r| |] eqn:Er;
      try done.
    cbn [obind]. intros [= <-].
    pieces; eauto using iterencode_text, iterencode_items_text.
Qed.
End Encoder.

(** X12. For an instance whose attributes hold [None], booleans, ints,
    strings of characters below 256, lists of such, [TimeFormat]
    members or other instances, every character of the text that
    [to_json] writes is a printable ASCII one, or comes with the
    indentation: a newline, or a character of an [indent] string.
    Without [indent], and with a number for it, the text is printable
    ASCII and newlines. *)
Theorem to_json_ascii
    (self indent : pyval) (text : string) :
  to_json self indent = Return text ->
  exists u,
    indent_string indent = Return u /\
    all_chars (text_char u) text = true /\
    ((forall s, indent <> PStr s) ->
     all_chars (fun c => printable c || Ascii.eqb c newline) text = true).
Proof.
  unfold to_json. destruct (__dict__ self) as [d| |]; try done.
  cbn [obind]. unfold dumps.
  destruct (indent_string indent) as [u| |] eqn:Hu; try done.
  cbn [obind]. intros Ht. exists u. split; [done|].
  pose proof (dumps_text u _encode d text Ht) as Hok.
  split; [done|]. intros Hs.
  eapply all_chars_impl; [|exact Hok].
  intros c. unfold text_char.
  destruct (printable c) eqn:Hp; [done|]. cbn [orb].
  destruct indent as [| b | z | s | l | e | i a]; cbn in Hu; simplify_eq;
    try done.
  - destruct (Ascii.eqb c newline); [done|]. cbn [orb]. intros Hc.
    exfalso. revert Hc Hp. clear.
    induction (if b then 1%nat else 0%nat) as [|n IH]; [done|].
    cbn [spaces occurs]. destruct (Ascii.eqb c " ") eqn:E; [|exact IH].
    apply Ascii.eqb_eq in E as ->. done.
  - destruct (Ascii.eqb c newline); [done|]. cbn [orb]. intros Hc.
    exfalso. revert Hc Hp. clear.
    induction (Z.to_nat z) as [|n IH]; [done|].
    cbn [spaces occurs]. destruct (Ascii.eqb c " ") eqn:E; [|exact IH].
    apply Ascii.eqb_eq in E as ->. done.
  - by destruct (Hs s).
Qed.

Lemma to_json_ascii_witness :
  exists u,
    indent_string (PInt 2) = Return u /\
    all_chars (text_char u)
      (String.append
         (String (chr 123) (String (chr 10)
            (quoted "  'name': 'gravit\u00e9',")))
         (String (chr 10)
            (String.append (quoted "  'columns': []") (String (chr 10) "}"))))
    = true /\
    ((forall s, PInt 2 <> PStr s) ->
     all_chars (fun c => printable c || Ascii.eqb c newline)
       (String.append
          (String (chr 123) (String (chr 10)
             (quoted "  'name': 'gravit\u00e9',")))
          (String (chr 10)
             (String.append (quoted "  'columns': []")
                (String (chr 10) "}"))))
     = true).
Proof.
  apply (to_json_ascii
           (PObj 0 [("name", PStr (String.append "gravit"
                                     (String (chr 233) EmptyString)));
                    ("columns", PList [])])
           (PInt 2)).
  vm_compute. reflexivity.
Defined.
End AsciiFacts.

(** ** The saved state of any tabs *)

Module WorkspaceFacts.
Import DataSetTab DataSetTabFacts.

(** X13. Whatever the tabs, [save_state] has under a name the state of
    the last tab of the class of that name, and nothing under a name
    that is the class of no tab: of two tabs of one class the later one
    overwrites the earlier. *)
Theorem save_state_last_wins (tabs : list SubTab) (name : string) :
  save_state tabs !! name
  = get_state <$> last (filter (fun tab => class_name tab = name) tabs).
Proof.
  induction tabs as [|t tabs IH] using rev_ind; [done|].
  rewrite save_state_snoc, filter_app.
  destruct (decide (class_name t = name)) as [E|E].
  - rewrite (filter_cons_True (fun tab => class_name tab = name)) by done.
    rewrite filter_nil, last_snoc. subst name. by rewrite lookup_insert_eq.
  - rewrite (filter_cons_False (fun tab => class_name tab = name)) by done.
    rewrite filter_nil, app_nil_r. by rewrite lookup_insert_ne.
Qed.

(** X14. After the state of a [DataSetTab] has been saved,
    [_tab_loaded] restores the segment tab with the state of its channel
    controller, and the transform tab with [None], which is what its
    [get_state] has answered, not with the empty dictionary of a tab
    that was never saved. *)
Theorem workspace_restore (controller_state : settings) :
  _tab_loaded (save_state (workspace controller_state))
    (segment_tab controller_state)
  = controller_state /\
  _tab_loaded (save_state (workspace controller_state)) transform_tab
  = SNone /\
  _tab_loaded (save_state []) transform_tab = SDict [].
Proof.
  unfold _tab_loaded, save_state, workspace. cbn [fold_left].
  split; [|split].
  - rewrite lookup_insert_ne by done. by rewrite lookup_insert_eq.
  - by rewrite lookup_insert_eq.
  - done.
Qed.
End WorkspaceFacts.

(** ** Segments that come and go *)

Module SegmentLifeFacts.
Import Node SegmentSelectTab NodeFacts SegmentSelectTabFacts.

Lemma find_map_uid u (f : Node -> Node) cs :
  (forall c, uid (f c) = uid c) ->
  find (fun c => bool_decide (uid c = u)) (map f cs)
  = f <$> find (fun c => bool_decide (uid c = u)) cs.
Proof.
  intros Hf. induction cs as [|c cs IH]; [done|]. cbn.
  rewrite Hf. by destruct (bool_decide (uid c = u)).
Qed.

Lemma find_absent u (cs : list Node) :
  u ∉ map uid cs -> find (fun c => bool_decide (uid c = u)) cs = None.
Proof.
  induction cs as [|c cs IH]; [done|]. cbn.
  intros Hn. apply not_elem_of_cons in Hn as [Hne Hn].
  rewrite bool_decide_eq_false_2 by congruence. auto.
Qed.

Lemma find_snoc_absent u (cs : list Node) c :
  u ∉ map uid cs -> uid c = u ->
  find (fun c' => bool_decide (uid c' = u)) (cs ++ [c]) = Some c.
Proof.
  intros Hn Hu. apply find_middle; [done|].
  apply Forall_forall. intros c' Hc' E. apply Hn.
  apply list_elem_of_fmap. eauto.
Qed.

Lemma remove_first_snoc_absent u (cs : list Node) c :
  u ∉ map uid cs -> uid c = u -> remove_first u (cs ++ [c]) = cs.
Proof.
  intros Hn Hu. induction cs as [|c0 cs IH]; cbn.
  - by rewrite bool_decide_eq_true_2.
  - cbn in Hn. apply not_elem_of_cons in Hn as [Hne Hn].
    rewrite bool_decide_eq_false_2 by congruence. by rewrite IH.
Qed.

(** X15. After [__init__] has registered the plot group of every
    segment, a [DELETE] for a segment takes the first segment of that
    identifier out of the controller and invokes, after the callbacks
    that were on the segment before, the [remove] of its own plot group
    and of no other. *)
Theorem delete_removes_the_group
    (update : LineUpdate) (control c : Node) :
  lu_action update = DELETE ->
  get_child (lu_uid update) control = Some c ->
  exists control',
    _slot_segment_changed update (register_groups control)
    = Some (control',
            notify DELETE c ++ [group_remove (lu_uid update)]) /\
    children control'
    = remove_first (lu_uid update) (children (register_groups control)) /\
    observers control' = observers control /\
    attrs control' = attrs control.
Proof.
  intros Ha Hc. unfold _slot_segment_changed, remove_child. rewrite Ha.
  unfold get_child, register_groups in *. cbn [children with_children].
  rewrite find_map_uid by done. rewrite Hc. cbn [fmap option_fmap option_map].
  apply find_some in Hc as [_ Hu]. apply bool_decide_eq_true in Hu.
  rewrite notify_register_observer, Hu.
  eexists. split; [reflexivity|]. done.
Qed.

Lemma delete_removes_the_group_witness :
  exists control',
    _slot_segment_changed
      {| lu_action := DELETE; lu_uid := "seg-2";
         start := PNone; stop := PNone; label := PNone |}
      (register_groups Samples.dataset)
    = Some (control',
            notify DELETE Samples.line2 ++ [group_remove "seg-2"]) /\
    children control'
    = remove_first "seg-2" (children (register_groups Samples.dataset)) /\
    observers control' = observers Samples.dataset /\
    attrs control' = attrs Samples.dataset.
Proof.
  apply (delete_removes_the_group
           {| lu_action := DELETE; lu_uid := "seg-2";
              start := PNone; stop := PNone; label := PNone |}
           Samples.dataset Samples.line2); reflexivity.
Defined.

(** X16. A [CREATE] for a new identifier followed by a [DELETE] for it
    leaves the controller with the segments that it had, and the
    [DELETE] invokes the [remove] of the plot group of the new segment
    and nothing else. *)
Theorem create_then_delete
    (create delete : LineUpdate) (control : Node) :
  lu_action create = CREATE ->
  lu_action delete = DELETE ->
  lu_uid delete = lu_uid create ->
  lu_uid create ∉ map uid (children control) ->
  exists control1 control2,
    _slot_segment_changed create control
    = Some (control1, notify CREATE control) /\
    map uid (children control1)
    = map uid (children control) ++ [lu_uid create] /\
    _slot_segment_changed delete control1
    = Some (control2, [group_remove (lu_uid create)]) /\
    control2 = control.
Proof.
  intros Hc Hd Hu Hnew. unfold _slot_segment_changed.
  rewrite Hc, Hd, Hu. cbn [add_child].
  eexists _, _. split; [reflexivity|].
  cbn [children with_children]. split; [by rewrite map_app|].
  unfold remove_child, get_child. cbn [children with_children].
  rewrite find_snoc_absent by done.
  rewrite remove_first_snoc_absent by done.
  split; [reflexivity|]. by destruct control.
Qed.

Lemma create_then_delete_witness :
  exists control1 control2,
    _slot_segment_changed
      {| lu_action := CREATE; lu_uid := "seg-3";
         start := PInt 500; stop := PInt 600; label := PStr "" |}
      Samples.dataset
    = Some (control1, notify CREATE Samples.dataset) /\
    map uid (children control1)
    = map uid (children Samples.dataset) ++ ["seg-3"] /\
    _slot_segment_changed
      {| lu_action := DELETE; lu_uid := "seg-3";
         start := PNone; stop := PNone; label := PNone |}
      control1
    = Some (control2, [group_remove "seg-3"]) /\
    control2 = Samples.dataset.
Proof.
  apply (create_then_delete
           {| lu_action := CREATE; lu_uid := "seg-3";
              start := PInt 500; stop := PInt 600; label := PStr "" |}
           {| lu_action := DELETE; lu_uid := "seg-3";
              start := PNone; stop := PNone; label := PNone |}
           Samples.dataset); try reflexivity.
  apply (bool_decide_unpack _). vm_compute. reflexivity.
Defined.
End SegmentLifeFacts.

(** ** The channels of a loaded data frame *)

Module DataFrameFacts.
Import DataFrame.

Section Columns.
Context {Series : Type}.

(** With labels that are all different, the comprehension takes the
    columns whose label is kept, in the order of the frame. *)
Lemma series_where_filter keep (df : list (string * Series)) :
  NoDup (dict_keys df) ->
  series_where keep df
  = map snd (List.filter (fun kv => keep (fst kv)) df).
Proof.
  unfold series_where.
  enough (forall pre,
             NoDup (dict_keys (pre ++ df)) ->
             flat_map (fun col =>
                         if keep col then
                           match dict_get String.eqb (pre ++ df) col with
                           | Some series => [series]
                           | None => []
                           end
                         else [])
                      (dict_keys df)
             = map snd (List.filter (fun kv => keep (fst kv)) df)) as H.
  { apply (H []). }
  induction df as [|[col series] df IH]; intros pre Hnd; [done|].
  cbn [dict_keys map fst flat_map List.filter].
  assert (dict_get String.eqb (pre ++ (col, series) :: df) col = Some series)
    as ->.
  { unfold dict_keys in Hnd. rewrite map_app in Hnd.
    apply NoDup_app in Hnd as (_ & Hdis & _).
    clear IH. induction pre as [|[k v] pre IHp]; cbn.
    - by rewrite String.eqb_refl.
    - rewrite (proj2 (String.eqb_neq k col)).
      + apply IHp. intros x Hx. apply Hdis. cbn. by right.
      + intros ->. apply (Hdis col); cbn; by left. }
  specialize (IH (pre ++ [(col, series)])).
  rewrite <- List.app_assoc in IH. cbn [app] in IH.
  unfold dict_keys in IH. rewrite (IH Hnd).
  by destruct (keep col).
Qed.

(** X17. Every column of the loaded frame goes to exactly one of
    [set_series] and [set_binary_series]: the data columns to the first,
    in the order of the frame, and all the others to the second. *)
Theorem dataframe_columns_split (df : list (string * Series)) :
  NoDup (dict_keys df) ->
  fst (_dataframe_loaded df)
  = map snd (List.filter (fun kv => is_data_col (fst kv)) df) /\
  snd (_dataframe_loaded df)
  = map snd (List.filter (fun kv => negb (is_data_col (fst kv))) df) /\
  fst (_dataframe_loaded df) ++ snd (_dataframe_loaded df)
  ≡ₚ dict_values df.
Proof.
  intros Hnd. unfold _dataframe_loaded. cbn [fst snd].
  rewrite !series_where_filter by done.
  split; [done|]. split; [done|].
  unfold dict_values. clear Hnd.
  induction df as [|[col series] df IH]; [done|].
  cbn [List.filter map fst snd]. destruct (is_data_col col); cbn.
  - by rewrite IH.
  - rewrite <- Permutation_middle. by rewrite IH.
Qed.
End Columns.

Lemma dataframe_columns_split_witness :
  fst (_dataframe_loaded [("gravity", 1%nat); ("status", 2%nat);
                          ("lat", 3%nat)])
  = map snd (List.filter (fun kv => is_data_col (fst kv))
               [("gravity", 1%nat); ("status", 2%nat); ("lat", 3%nat)]) /\
  snd (_dataframe_loaded [("gravity", 1%nat); ("status", 2%nat);
                          ("lat", 3%nat)])
  = map snd (List.filter (fun kv => negb (is_data_col (fst kv)))
               [("gravity", 1%nat); ("status", 2%nat); ("lat", 3%nat)]) /\
  fst (_dataframe_loaded [("gravity", 1%nat); ("status", 2%nat);
                          ("lat", 3%nat)])
  ++ snd (_dataframe_loaded [("gravity", 1%nat); ("status", 2%nat);
                             ("lat", 3%nat)])
  ≡ₚ dict_values [("gravity", 1%nat); ("status", 2%nat); ("lat", 3%nat)].
Proof.
  apply (dataframe_columns_split
           [("gravity", 1%nat); ("status", 2%nat); ("lat", 3%nat)]).
  apply (bool_decide_unpack _). vm_compute. reflexivity.
Defined.

(** X18. Of a frame with the fields of an AT1A meter, whatever the
    data, the status column alone becomes a binary series; every other
    field is a data channel. *)
Theorem at1a_status_is_binary {Series : Type} (df : list (string * Series)) :
  dict_keys df = AT1A ->
  exists gravity long_accel cross_accel beam temp status pressure Etemp
         gps_week gps_sow,
    dict_values df
    = [gravity; long_accel; cross_accel; beam; temp; status; pressure;
       Etemp; gps_week; gps_sow] /\
    _dataframe_loaded df
    = ([gravity; long_accel; cross_accel; beam; temp; pressure; Etemp;
        gps_week; gps_sow],
       [status]).
Proof.
  unfold dict_keys, AT1A. intros Hk.
  repeat (destruct df as [|[? ?] df]; [done|];
          let E := fresh in injection Hk as E Hk; cbn in E; subst).
  destruct df; [|done]. by eexists _, _, _, _, _, _, _, _, _, _.
Qed.

Lemma at1a_status_is_binary_witness :
  exists gravity long_accel cross_accel beam temp status pressure Etemp
         gps_week gps_sow,
    dict_values (map (fun col => (col, String.length col)) AT1A)
    = [gravity; long_accel; cross_accel; beam; temp; status; pressure;
       Etemp; gps_week; gps_sow] /\
    _dataframe_loaded (map (fun col => (col, String.length col)) AT1A)
    = ([gravity; long_accel; cross_accel; beam; temp; pressure; Etemp;
        gps_week; gps_sow],
       [status]).
Proof.
  apply (at1a_status_is_binary
           (map (fun col => (col, String.length col)) AT1A)).
  reflexivity.
Defined.
End DataFrameFacts.

(** ** The observers of an updated segment *)

Module SegmentUpdateFacts.
Import Node SegmentSelectTab NodeFacts SegmentSelectTabFacts.

(** One guarded [set_attr] on the segment [u] invokes the observers of
    the segment for [UPDATE] when the guard holds, and keeps them. *)
Lemma when_child_set_attr_trace b u key v (control seg : Node) pre post tr :
  uid seg = u -> Forall (fun c' => uid c' <> u) pre ->
  exists seg',
    when b (child_set_attr u key v)
         (with_children control (pre ++ seg :: post), tr)
    = (with_children control (pre ++ seg' :: post),
       tr ++ (if b then notify UPDATE seg else [])) /\
    uid seg' = u /\
    notify UPDATE seg' = notify UPDATE seg.
Proof.
  intros Hu Hpre. destruct b; cbn.
  - unfold get_child. cbn. rewrite find_middle by done. cbn.
    unfold update_child. cbn. rewrite update_first_middle by done.
    eexists. split; [reflexivity|]. done.
  - exists seg. by rewrite app_nil_r.
Qed.

(** X19. An [UPDATE] invokes the observers that the segment has for
    [UPDATE] once for every field that it writes, in the order start,
    stop, label: up to three times for one update, and not at all when
    no field is true. *)
Theorem update_notifies_per_field
    (update : LineUpdate) (control seg : Node) :
  lu_action update = UPDATE ->
  get_child (lu_uid update) control = Some seg ->
  exists control',
    _slot_segment_changed update control
    = Some (control',
            (if truthy (start update) then notify UPDATE seg else []) ++
            (if truthy (stop update) then notify UPDATE seg else []) ++
            (if truthy (label update) then notify UPDATE seg else [])).
Proof.
  intros Ha Hc. unfold _slot_segment_changed. rewrite Ha, Hc.
  destruct (find_split _ _ _ Hc) as (pre & post & Hcs & Hu & Hpre).
  assert (with_children control (pre ++ seg :: post) = control) as Hctl.
  { destruct control. cbn in *. by subst. }
  destruct (when_child_set_attr_trace (truthy (start update)) _ "start"
              (start update) control seg pre post [] Hu Hpre)
    as (s1 & E1 & Hu1 & Hn1).
  rewrite Hctl in E1. rewrite E1.
  destruct (when_child_set_attr_trace (truthy (stop update)) _ "stop"
              (stop update) control s1 pre post
              ([] ++ (if truthy (start update) then notify UPDATE seg else []))
              Hu1 Hpre)
    as (s2 & -> & Hu2 & Hn2).
  destruct (when_child_set_attr_trace (truthy (label update)) _ "label"
              (label update) control s2 pre post
              (([] ++ (if truthy (start update) then notify UPDATE seg else []))
               ++ (if truthy (stop update) then notify UPDATE s1 else []))
              Hu2 Hpre)
    as (s3 & -> & Hu3 & Hn3).
  eexists. f_equal. f_equal.
  rewrite Hn2, Hn1. cbn [app]. by rewrite <- List.app_assoc.
Qed.

Lemma update_notifies_per_field_witness :
  exists control',
    _slot_segment_changed Samples.retime Samples.watched_dataset
    = Some (control', [callable 1; callable 1]).
Proof.
  apply (update_notifies_per_field Samples.retime Samples.watched_dataset
           Samples.watched_line); reflexivity.
Defined.
End SegmentUpdateFacts.

(** ** The round trip of what the constructor makes *)

Module RoundTripFacts.
Import Json JsonFacts JsonDocuments ExportProfile.

(** X20. An instance that the constructor has returned, with a name
    that can be hashed and with attributes that are [None], booleans,
    ints, strings or lists of such, but for a date format that may be a
    [TimeFormat] member, comes back from [from_json] of its [to_json]
    text with the same attributes, of whatever of these types they are.
    The text may be written without [indent] or with a number or a
    blank string for it. *)
Theorem round_trip_of_constructed
    (kwargs : pydict) (st0 st1 st : state) (p : pyval) (attrs : pydict)
    (indent : pyval) :
  new kwargs st0 = (Return p, st1) ->
  p = PObj (next_oid st0) attrs ->
  (exists n, dict_get String.eqb attrs "name" = Some n /\ hashable n = true) ->
  Forall (fun kv => json_native (snd kv) = true \/
                    fst kv = "dateformat" /\ exists t, snd kv = PEnum t)
         attrs ->
  blank_indent indent = true ->
  exists text st',
    to_json p indent = Return text /\
    from_json text st = (Return (PObj (next_oid st) attrs), st').
Proof.
  intros Hnew -> (n & Hn & Hh) Hnat Hblank.
  destruct (indent_string_blank indent Hblank) as (unit & Hu & Hbu).
  destruct (ToJsonFacts.to_json_text (next_oid st0) attrs indent unit Hu)
    as (text & Henc & Ht & _).
  exists text.
  pose proof (loads_dumps _decode unit _encode Hbu attrs text st Henc)
    as Hload.
  enough (exists st',
             new (dict_of_pairs String.eqb (decoded_items _encode attrs)) st
             = (Return (PObj (next_oid st) attrs), st')) as [st' Hst'].
  { exists st'. split; [exact Ht|]. unfold from_json. by rewrite Hload. }
  clear text Henc Ht Hload unit Hu Hbu.
  apply ConstructorFacts.new_shape in Hnew
    as (name & c & e & pr & df & u & [= ->] & Hc & Hdf & _).
  cbn in Hn. injection Hn as ->.
  repeat (apply Forall_cons in Hnat as [?H Hnat]). cbn [fst snd] in *.
  destruct H as [H|[? _]]; [|done]. destruct H0 as [H0|[? _]]; [|done].
  destruct H1 as [H1|[? _]]; [|done]. destruct H2 as [H2|[? _]]; [|done].
  destruct H4 as [H4|[? _]]; [|done].
  assert (decoded _encode df = df /\ json_native df = true \/
          exists t, df = PEnum t) as Hdf'.
  { destruct H3 as [H3|[_ [t ->]]]; [left|right; by exists t].
    by rewrite decoded_native. }
  cbn [decoded_items map fst snd].
  rewrite (decoded_native _ n), (decoded_native _ c), (decoded_native _ e),
    (decoded_native _ pr), (decoded_native _ u) by done.
  rewrite dict_of_pairs_NoDup
    by (apply (bool_decide_unpack _); vm_compute; reflexivity).
  unfold new. cbn. unfold __init__.
  assert ((if truthy c then c else PList []) = c) as ->.
  { destruct Hc as [-> | ->]; done. }
  destruct Hdf' as [[-> Hnd]|[[] ->]].
  - assert (match df with
            | PStr s => olift PEnum (TimeFormat_of_value s)
            | _ => Return df
            end = Return df) as ->.
    { destruct df; try done. by destruct (Hdf s). }
    cbn [truthy]. unfold register. cbn [getattr dict_get].
    rewrite ?String.eqb_refl, Hh. by eexists.
  - cbn [decoded _encode TimeFormat_value]. cbn.
    unfold register. cbn [getattr dict_get].
    rewrite ?String.eqb_refl, Hh. by eexists.
Qed.

Lemma round_trip_of_constructed_witness :
  exists text st',
    to_json (PObj 0 [("name", PStr "gravity"); ("columns", PList []);
                     ("ext", PStr "dat"); ("precision", PNone);
                     ("dateformat", PEnum ISO8601);
                     ("_userprofile", PInt 1)])
      (PStr (String (chr 9) EmptyString))
    = Return text /\
    from_json text Samples.registered
    = (Return (PObj (next_oid Samples.registered)
                 [("name", PStr "gravity"); ("columns", PList []);
                  ("ext", PStr "dat"); ("precision", PNone);
                  ("dateformat", PEnum ISO8601);
                  ("_userprofile", PInt 1)]),
       st').
Proof.
  apply (round_trip_of_constructed
           [("name", PStr "gravity"); ("precision", PNone);
            ("_userprofile", PInt 1)]
           initial
           {| next_oid := 1;
              __profiles :=
                [(PStr "gravity",
                  PObj 0 [("name", PStr "gravity"); ("columns", PList []);
                          ("ext", PStr "dat"); ("precision", PNone);
                          ("dateformat", PEnum ISO8601);
                          ("_userprofile", PInt 1)])] |}
           Samples.registered).
  - vm_compute. reflexivity.
  - reflexivity.
  - exists (PStr "gravity"). split; reflexivity.
  - repeat (apply Forall_cons; split; [first [by left | right; by eauto]|]).
    apply Forall_nil_2.
  - reflexivity.
Defined.
End RoundTripFacts.

(** ** Lookup after [register] *)

Module RegisterFacts.
Import ExportProfile RegistryFacts.



End RegisterFacts.

(** ** Texts of profiles, and the [register] key *)

Module ProfileTexts.
Import Json ExportProfile.

Lemma parameter_is_parameter k : k ∈ parameters -> is_parameter k = true.
Proof.
  unfold parameters. rewrite !elem_of_cons, elem_of_nil.
  intros [->|[->|[->|[->|[->|[->|[->|[]]]]]]]]; reflexivity.
Qed.

(** C6, as the code has it. [from_json] on a text that is one JSON
    object with the keys of a profile answers with an instance of the
    name in the object. It registers the instance under the name when
    the object has no [register] key, or a true value under it; when
    the object has a false value under [register], the registry stays
    as it was. [from_json] takes the text and nothing else, so it is
    the text alone that can keep the instance out of the registry. *)
Theorem from_json_registers_unless_told
    (text : string) (d : pydict) (n : string) (st : state) :
  object_of text d ->
  profile_keywords d n ->
  exists p st',
    from_json text st = (Return p, st') /\
    getattr p "name" = Some (PStr n) /\
    if truthy (arg d "register" (PBool true))
    then dict_get key_eqb (__profiles st') (PStr n) = Some p
    else __profiles st' = __profiles st.
Proof.
  intros Hobj (Hk & Hn & Hd). unfold from_json, _decode.
  rewrite (Objects.loads_object _ text d st Hobj).
  unfold new.
  assert (forallb (fun kv : string * pyval => is_parameter (fst kv)) d = true)
    as ->.
  { apply forallb_forall. intros kv Hkv. apply parameter_is_parameter.
    rewrite Forall_forall in Hk. apply Hk. by apply list_elem_of_In. }
  rewrite Hn. unfold __init__.
  assert (match arg d "dateformat" (PEnum ISO8601) with
          | PStr s => olift PEnum (TimeFormat_of_value s)
          | _ => Return (arg d "dateformat" (PEnum ISO8601))
          end
          = Return match arg d "dateformat" (PEnum ISO8601) with
                   | PStr _ => PEnum ISO8601
                   | df => df
                   end) as ->.
  { unfold arg in *.
    destruct (dict_get String.eqb d "dateformat") as [[| | |s| | |]|];
      try done.
    rewrite (Hd s eq_refl). reflexivity. }
  destruct (truthy (arg d "register" (PBool true))).
  - unfold register. cbn [getattr dict_get]. rewrite String.eqb_refl.
    cbn [hashable]. eexists _, _. split; [reflexivity|].
    split; [reflexivity|]. cbn [__profiles].
    apply ExportProfileFacts.registry_set_str_lookup.
  - eexists _, _. split; [reflexivity|]. by split.
Qed.

Lemma from_json_registers_unless_told_witness :
  exists p st',
    from_json (quoted "{'name':'gravity','precision':6,'register':1}")
      Samples.registered
    = (Return p, st') /\
    getattr p "name" = Some (PStr "gravity") /\
    if truthy (arg [("name", PStr "gravity"); ("precision", PInt 6);
                    ("register", PInt 1)]
                 "register" (PBool true))
    then dict_get key_eqb (__profiles st') (PStr "gravity") = Some p
    else __profiles st' = __profiles Samples.registered.
Proof.
  apply (from_json_registers_unless_told
           (quoted "{'name':'gravity','precision':6,'register':1}")
           [("name", PStr "gravity"); ("precision", PInt 6);
            ("register", PInt 1)]
           "gravity" Samples.registered).
  - vm_compute. reflexivity.
  - split; [|split].
    + unfold parameters.
      repeat (apply Forall_cons; split; [set_solver|]).
      apply Forall_nil_2.
    + reflexivity.
    + intros s. discriminate.
Defined.

(** C6, as the specification has it, fails: a profile text with all the
    keys of section 6 and a false [register] besides is read as a
    profile, and the profile is not registered. *)
Lemma register_false_in_the_text :
  exists p,
    from_json
      (quoted
         "{'name': 'gravity', 'columns': ['gravity', 'lat'], 'ext': 'csv', 'precision': 6, 'dateformat': '%Y-%m-%dT%H:%M:%S.%f%z', '_userprofile': true, 'register': false}")
      initial
    = (Return p, {| next_oid := 1; __profiles := [] |}) /\
    getattr p "name" = Some (PStr "gravity") /\
    getattr p "columns" = Some (PList [PStr "gravity"; PStr "lat"]) /\
    dict_get key_eqb (__profiles {| next_oid := 1; __profiles := [] |})
      (PStr "gravity")
    = None.
Proof. eexists. split; [vm_compute; reflexivity|]. by repeat split. Qed.
End ProfileTexts.
